(** * pfcards: the Archives-of-Nethys scrapers, embedded and verified

    The repository holds two scripts, [Pathfinder_Spells/web_scrape.py] and
    [Pathfinder_Magic_Items/web_scrape.py].  Each turns one parsed HTML page
    into a Python dictionary whose strings are meant to be TeX compatible.

    The embedding is shallow.  Python strings are lists of Unicode code
    points, Python exceptions and the module-level state (the global
    [abbreviations] dictionary and the stream written by [warnings.warn])
    are threaded through a small state-and-error monad, and the
    BeautifulSoup tree is an inductive type of text leaves and elements. *)

From Stdlib Require Import ZArith NArith List Ascii String Lia Bool.
From Stdlib Require Import Sorted Permutation DecimalString.
From stdpp Require Import base option list gmap.

Local Open Scope N_scope.
Local Open Scope list_scope.

(** ** Python strings *)

(** A character is a code point; [str] is Python's [str]. *)
Definition char : Type := N.
Definition str : Type := list char.

Definition chr (a : ascii) : char := N_of_ascii a.

(** [py "..."] reads an ASCII literal as a Python string.  Characters
    outside ASCII are written as code points. *)
Definition py (s : string) : str := map chr (list_ascii_of_string s).

Definition CR : char := 13.
Definition LF : char := 10.
Definition BACKSLASH : char := 92.
Definition PERCENT : char := 37.
Definition EN_DASH : char := 0x2013.
Definition EM_DASH : char := 0x2014.
Definition RSQUO : char := 0x2019.
Definition LDQUO : char := 0x201c.
Definition RDQUO : char := 0x201d.

Definition char_eqb (a b : char) : bool := N.eqb a b.
Definition str_eqb (a b : str) : bool := bool_decide (a = b).

(** ** Exceptions, warnings and the module state *)

Inductive exn : Type :=
  | KeyError | IndexError | ValueError | TypeError | AttributeError.

#[global] Instance exn_eq_dec : EqDecision exn.
Proof. solve_decision. Defined.

Inductive result (A : Type) : Type :=
  | Ok (a : A)
  | Raise (e : exn).
Arguments Ok {A} a.
Arguments Raise {A} e.

(** The part of the interpreter state that the scripts touch: the global
    dictionary [abbreviations] and the messages passed to [warn], oldest
    first.  Every call of [warn] is recorded. *)
Record World : Type := mkWorld {
  abbreviations : gmap str str;
  warnings : list str
}.

Definition M (A : Type) : Type := World -> result A * World.

Definition ret {A} (a : A) : M A := fun w => (Ok a, w).
Definition raise {A} (e : exn) : M A := fun w => (Raise e, w).
Definition bind {A B} (c : M A) (k : A -> M B) : M B :=
  fun w => match c w with
           | (Ok a, w') => k a w'
           | (Raise e, w') => (Raise e, w')
           end.

Notation "'let*' x ':=' c 'in' k" := (bind c (fun x => k))
  (at level 10, x name, c at level 100, k at level 200).
Notation "c ';;' k" := (bind c (fun _ => k))
  (at level 100, k at level 200, right associativity).

(** [try: c except e: h] *)
Definition try_except {A} (c : M A) (e : exn) (h : M A) : M A :=
  fun w => match c w with
           | (Ok a, w') => (Ok a, w')
           | (Raise e', w') =>
               if bool_decide (e' = e) then h w' else (Raise e', w')
           end.

Definition warn (msg : str) : M unit :=
  fun w => (Ok tt, mkWorld (abbreviations w) (warnings w ++ [msg])).

(** What a run shows from outside: the result and the warnings. *)
Definition outcome {A} (c : M A) (w : World) : result A * list str :=
  (fst (c w), warnings (snd (c w))).

(** [abbreviations[name]] on the global dictionary. *)
Definition abbreviations_getitem (name : str) : M str :=
  fun w => match abbreviations w !! name with
           | Some v => (Ok v, w)
           | None => (Raise KeyError, w)
           end.

(** ** Regular expressions: the fragment of [re] that the scripts use

    Every pattern of the two scripts is a sequence of single-character
    atoms, with at most one capturing group around an atom, an optional
    atom, or a one-character negative look-behind. *)

Inductive atom : Type :=
  | Lit (c : char)                 (* a literal character *)
  | OneOf (cs : str)               (* [abc] *)
  | NotInRange (lo hi : char)      (* [^a-z] *)
  | AnyChar.                       (* . : anything but a newline *)

Inductive item : Type :=
  | One (a : atom)
  | Opt (a : atom)                 (* a? , greedy *)
  | Group (a : atom)               (* (a) , group 1 *)
  | NotAfter (c : char).           (* (?<!c) *)

Definition atom_matches (a : atom) (c : char) : bool :=
  match a with
  | Lit x => char_eqb c x
  | OneOf cs => existsb (char_eqb c) cs
  | NotInRange lo hi => negb (N.leb lo c && N.leb c hi)
  | AnyChar => negb (char_eqb c LF)
  end.

(** Match pattern [p] at the head of [s]; [prev] is the character before
    it.  The answer is the text of group 1 and the number of characters
    consumed. *)
Fixpoint match_here (p : list item) (prev : option char) (s : str)
  : option (str * nat) :=
  match p with
  | [] => Some ([], O)
  | One a :: p' =>
      match s with
      | c :: t =>
          if atom_matches a c
          then match match_here p' (Some c) t with
               | Some (g, n) => Some (g, S n)
               | None => None
               end
          else None
      | [] => None
      end
  | Group a :: p' =>
      match s with
      | c :: t =>
          if atom_matches a c
          then match match_here p' (Some c) t with
               | Some (_, n) => Some ([c], S n)
               | None => None
               end
          else None
      | [] => None
      end
  | Opt a :: p' =>
      match s with
      | c :: t =>
          if atom_matches a c
          then match match_here p' (Some c) t with
               | Some (g, n) => Some (g, S n)
               | None => match_here p' prev s
               end
          else match_here p' prev s
      | [] => match_here p' prev s
      end
  | NotAfter x :: p' =>
      match prev with
      | Some c => if char_eqb c x then None else match_here p' prev s
      | None => match_here p' prev s
      end
  end.

(** Replacement templates: literal characters and [\1]. *)
Inductive ritem : Type :=
  | RChar (c : char)
  | RGroup1.

Definition rlit (s : str) : list ritem := map RChar s.

Definition expand (r : list ritem) (g : str) : str :=
  flat_map (fun x => match x with RChar c => [c] | RGroup1 => g end) r.

(** [re.sub]: scan from the left; where the pattern matches, emit the
    replacement and resume after the match, otherwise copy one character.
    [skip] counts the characters of the current match still to pass over.
    No pattern of the scripts matches the empty string. *)
Fixpoint re_sub_from (p : list item) (r : list ritem)
    (prev : option char) (skip : nat) (s : str) : str :=
  match s with
  | [] => []
  | c :: t =>
      match skip with
      | S k => re_sub_from p r (Some c) k t
      | O =>
          match match_here p prev s with
          | Some (g, S k) => expand r g ++ re_sub_from p r (Some c) k t
          | _ => c :: re_sub_from p r (Some c) O t
          end
      end
  end.

Definition re_sub (p : list item) (r : list ritem) (s : str) : str :=
  re_sub_from p r None O s.

(** [s.replace(old, new)] for a non-empty [old]. *)
Definition replace (old new : str) (s : str) : str :=
  re_sub (map (fun c => One (Lit c)) old) (rlit new) s.

(** ** Code shared by the two scripts *)

(** [abbreviate], lines 70-77 of both scripts. *)
Definition abbreviate (name : str) : M str :=
  try_except
    (abbreviations_getitem name)
    KeyError
    (warn (py "Could not abbreviate '" ++ name ++ py "'");;
     ret name).

(** [texify], lines 414-431 (spells) and 286-303 (items). *)
Definition texify (text : str) : str :=
  let text := re_sub [One (Lit CR)] [] text in
  let text := re_sub [One (Lit EN_DASH)] (rlit (py "$-$")) text in
  let text := re_sub [One (Lit EM_DASH)] (rlit (py "--")) text in
  let text := re_sub [One (Lit RSQUO)] (rlit (py "'")) text in
  let text := re_sub [One (Lit LDQUO)] (rlit (py "''")) text in
  let text := re_sub [One (Lit RDQUO)] (rlit (py "''")) text in
  let text := re_sub [NotAfter BACKSLASH; One (Lit PERCENT)]
                     (rlit (py "\%")) text in
  let text := replace [LF] (py "\\") text in
  text.

(** ** More of the Python runtime *)

(** Unicode 14 white space, the characters removed by [s.strip()]. *)
Definition is_space (c : char) : bool :=
  (N.leb 0x9 c && N.leb c 0xd) || (N.leb 0x1c c && N.leb c 0x20)
  || char_eqb c 0x85 || char_eqb c 0xa0 || char_eqb c 0x1680
  || (N.leb 0x2000 c && N.leb c 0x200a)
  || char_eqb c 0x2028 || char_eqb c 0x2029 || char_eqb c 0x202f
  || char_eqb c 0x205f || char_eqb c 0x3000.

Definition in_chars (chars : str) (c : char) : bool :=
  existsb (char_eqb c) chars.

Fixpoint lstrip_by (p : char -> bool) (s : str) : str :=
  match s with
  | c :: t => if p c then lstrip_by p t else s
  | [] => []
  end.

Definition rstrip_by (p : char -> bool) (s : str) : str :=
  rev (lstrip_by p (rev s)).

Definition strip_by (p : char -> bool) (s : str) : str :=
  rstrip_by p (lstrip_by p s).

(** [s.strip(chars)] and [s.strip()]. *)
Definition strip_chars (chars : str) (s : str) : str :=
  strip_by (in_chars chars) s.
Definition strip (s : str) : str := strip_by is_space s.

Fixpoint startswith (s pre : str) : bool :=
  match pre, s with
  | [], _ => true
  | p :: pre', c :: s' => char_eqb c p && startswith s' pre'
  | _ :: _, [] => false
  end.

(** [s.find(sub)], counting from [i]; -1 when [sub] does not occur. *)
Fixpoint find_from (sub : str) (i : Z) (s : str) : Z :=
  if startswith s sub then i
  else match s with
       | [] => (-1)%Z
       | _ :: t => find_from sub (i + 1)%Z t
       end.

Definition find (s sub : str) : Z := find_from sub 0%Z s.

(** [sub in s] *)
Definition contains (sub s : str) : bool := negb (Z.eqb (find s sub) (-1)).

(** [s.split(sep)] for a non-empty [sep]. *)
Fixpoint split_from (sep : str) (skip : nat) (s : str) : list str :=
  match s with
  | [] => [[]]
  | c :: t =>
      match skip with
      | S k => split_from sep k t
      | O =>
          if startswith s sep
          then [] :: split_from sep (length sep - 1) t
          else match split_from sep O t with
               | h :: r => (c :: h) :: r
               | [] => [[c]]
               end
      end
  end.

Definition split (s sep : str) : list str := split_from sep O s.

(** [sep.join(l)] *)
Fixpoint join (sep : str) (l : list str) : str :=
  match l with
  | [] => []
  | [x] => x
  | x :: r => x ++ sep ++ join sep r
  end.

(** Slices [l[lo:hi]]: a negative bound counts from the end, and bounds are
    clamped to the length. *)
Definition slice_bound (len i : Z) : Z :=
  let i := if (i <? 0)%Z then (i + len)%Z else i in
  Z.max 0 (Z.min len i).

Definition slice {A} (l : list A) (lo hi : option Z) : list A :=
  let len := Z.of_nat (length l) in
  let a := match lo with Some i => slice_bound len i | None => 0%Z end in
  let b := match hi with Some i => slice_bound len i | None => len end in
  firstn (Z.to_nat (b - a)) (skipn (Z.to_nat a) l).

(** [l[i]], raising [IndexError] out of range. *)
Definition getitem {A} (l : list A) (i : Z) : M A :=
  let len := Z.of_nat (length l) in
  let j := if (i <? 0)%Z then (i + len)%Z else i in
  if (j <? 0)%Z then raise IndexError
  else match nth_error l (Z.to_nat j) with
       | Some x => ret x
       | None => raise IndexError
       end.

(** [str(n)] and ['{0}'.format(n)] for an integer. *)
Definition str_of_int (n : Z) : str :=
  py (NilZero.string_of_int (Z.to_int n)).

(** The code points of the digit zero of every decimal-digit block of
    Unicode 14; the ten digits of a block are consecutive. *)
Definition decimal_zeros : list char :=
  [0x30; 0x660; 0x6f0; 0x7c0; 0x966; 0x9e6; 0xa66; 0xae6; 0xb66; 0xbe6;
   0xc66; 0xce6; 0xd66; 0xde6; 0xe50; 0xed0; 0xf20; 0x1040; 0x1090;
   0x17e0; 0x1810; 0x1946; 0x19d0; 0x1a80; 0x1a90; 0x1b50; 0x1bb0;
   0x1c40; 0x1c50; 0xa620; 0xa8d0; 0xa900; 0xa9d0; 0xa9f0; 0xaa50;
   0xabf0; 0xff10; 0x104a0; 0x10d30; 0x11066; 0x110f0; 0x11136; 0x111d0;
   0x112f0; 0x11450; 0x114d0; 0x11650; 0x116c0; 0x11730; 0x118e0;
   0x11950; 0x11c50; 0x11d50; 0x11da0; 0x16a60; 0x16ac0; 0x16b50;
   0x1d7ce; 0x1d7d8; 0x1d7e2; 0x1d7ec; 0x1d7f6; 0x1e140; 0x1e2f0;
   0x1e950; 0x1fbf0].

Definition digit_value (c : char) : option Z :=
  match List.find (fun z => N.leb z c && N.leb c (z + 9)) decimal_zeros with
  | Some z => Some (Z.of_N (c - z))
  | None => None
  end.

(** [int(c)] for a string of one character [c]. *)
Definition int_of_char (c : char) : M Z :=
  match digit_value c with
  | Some n => ret n
  | None => raise ValueError
  end.

(** Python dictionaries whose iteration order matters: association lists
    in insertion order, with [d[k] = v] updating in place. *)
Definition dict (K V : Type) : Type := list (K * V).

Fixpoint dict_set {K V} `{EqDecision K} (d : dict K V) (k : K) (v : V)
  : dict K V :=
  match d with
  | [] => [(k, v)]
  | (k', v') :: r =>
      if decide (k' = k) then (k', v) :: r else (k', v') :: dict_set r k v
  end.

Fixpoint dict_get {K V} `{EqDecision K} (d : dict K V) (k : K) : option V :=
  match d with
  | [] => None
  | (k', v') :: r => if decide (k' = k) then Some v' else dict_get r k
  end.

(** The values stored in a record. *)
Inductive value : Type :=
  | VNone
  | VInt (n : Z)
  | VStr (s : str)
  | VDict (d : dict str Z).

(** ** The BeautifulSoup tree

    A node is a text leaf or an element with a tag name and its children.
    Attributes are not read by the scripts and are left out. *)

#[warnings="-register-all"]
Inductive node : Type :=
  | NavigableString (s : str)
  | Tag (name : str) (contents : list node).

Definition is_tag (n : node) : bool :=
  match n with Tag _ _ => true | NavigableString _ => false end.

(** [elem.text]: all the strings below [elem], concatenated. *)
Fixpoint text (n : node) : str :=
  match n with
  | NavigableString s => s
  | Tag _ cs => concat (map text cs)
  end.

(** [tag.string]: the single string below [tag], if there is exactly one
    chain of only children leading to it. *)
Fixpoint string_of (n : node) : option str :=
  match n with
  | NavigableString s => Some s
  | Tag _ [c] => string_of c
  | Tag _ _ => None
  end.

(** [tag.find(...)]: the first element below [tag], in document order, that
    passes the test, paired with its [next_siblings]. *)
Fixpoint find_tag (p : node -> bool) (n : node) : option (node * list node) :=
  match n with
  | NavigableString _ => None
  | Tag _ cs =>
      (fix scan (l : list node) : option (node * list node) :=
         match l with
         | [] => None
         | x :: r =>
             if is_tag x && p x then Some (x, r)
             else match find_tag p x with
                  | Some y => Some y
                  | None => scan r
                  end
         end) cs
  end.

(** [tag.find_all(...)], in document order. *)
Fixpoint find_all (p : node -> bool) (n : node) : list node :=
  match n with
  | NavigableString _ => []
  | Tag _ cs =>
      concat (map (fun x => (if is_tag x && p x then [x] else [])
                            ++ find_all p x) cs)
  end.

Definition named (name : string) (n : node) : bool :=
  match n with
  | Tag nm _ => str_eqb nm (py name)
  | NavigableString _ => false
  end.

(** The test of [find(name, string=s)]. *)
Definition named_with_string (name s : string) (n : node) : bool :=
  named name n && bool_decide (string_of n = Some (py s)).

(** [tag.name] for the attribute access [tag.h1], [tag.table], ...:
    the first such element or [None]; on [None] itself the access raises. *)
Definition child_tag (o : option node) (name : string) : M (option node) :=
  match o with
  | Some (Tag nm cs) => ret (fst <$> find_tag (named name) (Tag nm cs))
  | _ => raise AttributeError
  end.

(** [x.text] where [x] may be [None]. *)
Definition text_of (o : option node) : M str :=
  match o with
  | Some n => ret (text n)
  | None => raise AttributeError
  end.

(** [x.contents] and [x.children]; a text leaf has neither. *)
Definition contents_of (o : option node) : M (list node) :=
  match o with
  | Some (Tag _ cs) => ret cs
  | _ => raise AttributeError
  end.

(** HTML elements written without a closing tag. *)
Definition void_elements : list str :=
  map py ["area"; "base"; "br"; "col"; "embed"; "hr"; "img"; "input";
          "keygen"; "link"; "menuitem"; "meta"; "param"; "source";
          "track"; "wbr"]%string.

Definition escape_entities (s : str) : str :=
  flat_map (fun c => if char_eqb c (chr "&") then py "&amp;"
                     else if char_eqb c (chr "<") then py "&lt;"
                     else if char_eqb c (chr ">") then py "&gt;"
                     else [c]) s.

(** [str(elem)]: a text leaf is its string, an element is its markup. *)
Fixpoint markup (n : node) : str :=
  match n with
  | NavigableString s => escape_entities s
  | Tag nm [] =>
      if bool_decide (nm ∈ void_elements)
      then py "<" ++ nm ++ py "/>"
      else py "<" ++ nm ++ py "></" ++ nm ++ py ">"
  | Tag nm cs =>
      py "<" ++ nm ++ py ">" ++ concat (map markup cs)
      ++ py "</" ++ nm ++ py ">"
  end.

Definition str_of_node (n : node) : str :=
  match n with
  | NavigableString s => s
  | Tag _ _ => markup n
  end.

(** [str(tag.next_sibling)], where a missing sibling is [None]. *)
Definition str_of_next_sibling (sibs : list node) : str :=
  match sibs with
  | n :: _ => str_of_node n
  | [] => py "None"
  end.

(** [_parse_basic_text], lines 443-463 (spells) and 315-335 (items). *)
Fixpoint parse_basic_children (cs : list node) : M (list str) :=
  match cs with
  | [] => ret []
  | Tag nm xs :: r =>
      let elem := Tag nm xs in
      let* piece :=
        (if str_eqb nm (py "b") then
           ret (py "\textbf{" ++ text elem ++ py "}")
         else if str_eqb nm (py "i") then
           ret (py "\textit{" ++ text elem ++ py "}")
         else
           (warn (py "Found unknown tag '" ++ text elem ++ py "'.");;
            ret (text elem))) in
      let* rest := parse_basic_children r in
      ret (piece :: rest)
  | NavigableString s :: r =>
      let* rest := parse_basic_children r in
      ret (s :: rest)
  end.

Definition _parse_basic_text (item : node) : M str :=
  let* cs := contents_of (Some item) in
  let* text_list := parse_basic_children cs in
  ret (concat text_list).

Fixpoint mapM {A B} (f : A -> M B) (l : list A) : M (list B) :=
  match l with
  | [] => ret []
  | x :: r => let* y := f x in let* ys := mapM f r in ret (y :: ys)
  end.

(** [_ul_process], lines 433-441 (spells) and 305-313 (items). *)
Definition _ul_process (ul : node) : M str :=
  let* children := contents_of (Some ul) in
  let* item_list := mapM _parse_basic_text children in
  ret ([LF] ++ join [LF] item_list ++ [LF]).

(** [htmltable2latex], lines 465-481 (spells) and 337-353 (items). *)
Fixpoint table_rows (rows : list node) : M (list str) :=
  match rows with
  | [] => ret []
  | Tag nm cs :: r =>
      let* row_list := mapM _parse_basic_text cs in
      let* rest := table_rows r in
      ret (join (py "&") row_list :: py "\\" :: rest)
  | NavigableString _ :: r => table_rows r
  end.

Definition htmltable2latex (table : node) : M str :=
  let* tr := child_tag (Some table) "tr" in
  let* cells := contents_of tr in
  let ncols := length cells in
  let* children := contents_of (Some table) in
  let* rows := table_rows children in
  ret (concat ([py "\begin{tabular}";
                py "{" ++ repeat (chr "c") ncols ++ py "}"]
               ++ rows ++ [py "\end{tabular}"])).

(** The loop shared by the two [_description_from_span]: walk the siblings
    after the Description heading up to a closing heading.  The answer is
    the pieces of text and whether a closing heading was met. *)
Fixpoint description_pieces (stops : list str) (sibs : list node)
  : M (list str * bool) :=
  match sibs with
  | [] => ret ([], false)
  | NavigableString s :: r =>
      let* rest := description_pieces stops r in
      ret (s :: fst rest, snd rest)
  | Tag nm cs :: r =>
      let elem := Tag nm cs in
      if bool_decide (nm ∈ stops) then ret ([], true)
      else
        let* piece :=
          (if str_eqb nm (py "br") then ret (py "\\")
           else if str_eqb nm (py "b") then
             ret (py "\textbf{" ++ text elem ++ py "}")
           else if str_eqb nm (py "i") then
             ret (py "\textit{" ++ text elem ++ py "}")
           else if str_eqb nm (py "ul") then _ul_process elem
           else if str_eqb nm (py "table") then htmltable2latex elem
           else
             (warn (py "Found unknown tag '" ++ nm
                    ++ py "' in Description.");;
              ret (text elem))) in
        let* rest := description_pieces stops r in
        ret (piece :: fst rest, snd rest)
  end.

(** The entries that the [abbreviations] tables of the two scripts have
    in common. *)
Definition common_abbreviations : list (string * string) := [
    ("PRPG Core Rulebook", "PF Core");
    ("Ultimate Equipment", "PF Ult Equip");
    ("Ultimate Magic", "PF Ult Magic");
    ("Ultimate Combat", "PF Ult Combat");
    ("Advanced Player's Guide", "PF Adv Play");
    ("Advanced Class Guide", "PF Adv Class");
    ("Pathfinder Society Field Guide", "PFSoc Field Guide");
    ("Pathfinder Society Primer", "PFSoc Primer");
    ("Cheliax, Empire of Devils", "PFC Cheliax");
    ("Champions of Purity", "PFPC Champions of Purity");
    ("Advanced Class Origins", "PFPC Adv Class Origins");
    ("Magic Tactics Toolbox", "PFPC Magic Tactics Toolbox");
    ("Monster Codex", "PF Monster Codex");
    ("adept", "ade");
    ("alchemist", "alc");
    ("antipaladin", "apal");
    ("arcanist", "arc");
    ("bard", "bar");
    ("bloodrager", "brag");
    ("cleric", "cle");
    ("druid", "dru");
    ("hunter", "hun");
    ("inquisitor", "inq");
    ("investigator", "inv");
    ("magus", "mag");
    ("medium", "med");
    ("mesmerist", "mes");
    ("occultist", "occ");
    ("oracle", "ora");
    ("paladin", "pal");
    ("psychic", "psy");
    ("ranger", "ran");
    ("redmantisassassin", "rma");
    ("shaman", "sha");
    ("skald", "ska");
    ("sorcerer", "sor");
    ("spiritualist", "spi");
    ("summoner", "sum");
    ("summoner (unchained)", "sumU");
    ("warpriest", "war");
    ("witch", "wit");
    ("wizard", "wiz")
  ]%string.

Definition table_of (l : list (string * string)) : gmap str str :=
  list_to_map (map (fun kv => (py (fst kv), py (snd kv))) l).

(** ** [Pathfinder_Spells/web_scrape.py] *)

Module Spells.

Definition abbreviations : gmap str str :=
  table_of (common_abbreviations
            ++ [("Adventurer's Guide", "PF Adventurer Guide")]%string).

(** The state in which the script starts. *)
Definition initial : World := mkWorld abbreviations [].

Definition _name_from_span (span : option node) : M str :=
  let* h1 := child_tag span "h1" in
  let* t := text_of h1 in
  ret (strip t).

(** [span.find("b", string=s)] with its next siblings. *)
Definition find_label (span : node) (s : string)
  : option (node * list node) :=
  find_tag (named_with_string "b" s) span.

(** The loop of [_source_from_span]: the texts of the links up to the next
    bold element. *)
Fixpoint sources_raw_of (sibs : list node) : list str :=
  match sibs with
  | [] => []
  | Tag nm cs :: r =>
      if str_eqb nm (py "b") then []
      else if str_eqb nm (py "a") then text (Tag nm cs) :: sources_raw_of r
      else sources_raw_of r
  | NavigableString _ :: r => sources_raw_of r
  end.

Definition _source_from_span (span : node) : M (option str) :=
  match find_label span "Source" with
  | None =>
      warn (py "Could not find Source tag. Skipping element 'source'");;
      ret None
  | Some (_, sibs) =>
      let sources_raw := sources_raw_of sibs in
      match sources_raw with
      | [] =>
          warn (py "No sources detected. Skipping element 'source'.");;
          ret None
      | first :: _ =>
          if contains (py "PRPG Core Rulebook") (concat sources_raw)
          then ret (Some (py "PF Core"))
          else
            let source := first in
            let ind := find source (py " pg. ") in
            let source := slice source None (Some ind) in
            let* a := abbreviate source in
            ret (Some a)
      end
  end.

(** The loop of [_school_from_span]: every text up to the next bold
    element. *)
Fixpoint texts_until_bold (sibs : list node) : list str :=
  match sibs with
  | [] => []
  | Tag nm cs :: r =>
      if str_eqb nm (py "b") then []
      else text (Tag nm cs) :: texts_until_bold r
  | NavigableString s :: r => s :: texts_until_bold r
  end.

Definition _school_from_span (span : node) : M (option str) :=
  match find_label span "School" with
  | None =>
      warn (py "Could not find School tag. Skipping element 'school'.");;
      ret None
  | Some (_, sibs) =>
      let text_list := texts_until_bold sibs in
      let school :=
        replace (py " ") [] (strip_chars (py " ;") (concat text_list)) in
      let school := replace (py "seetext") (py "see text") school in
      let school := replace (py ",") (py ", ") school in
      ret (Some school)
  end.

Definition _get_text_from_simple_tag (span : node) (s : string)
    (warnname : option string) : M (option str) :=
  match find_label span s with
  | None =>
      match warnname with
      | Some wn =>
          warn (py "Could not find " ++ py s ++ py " tag. Skipping element '"
                ++ py wn ++ py "'.");;
          ret None
      | None => ret None
      end
  | Some (_, sibs) => ret (Some (str_of_next_sibling sibs))
  end.

(** The loop of [_classes_from_span]. *)
Fixpoint classes_loop (text_list : list str) (class_dict : dict str Z)
  : M (dict str Z) :=
  match text_list with
  | [] => ret class_dict
  | item :: r =>
      let* last := getitem item (-1) in
      let* level := int_of_char last in
      let cls := strip (slice item (Some 0%Z) (Some (-1)%Z)) in
      classes_loop r (dict_set class_dict cls level)
  end.

Definition _classes_from_span (span : node) : M (option (dict str Z)) :=
  let* text := _get_text_from_simple_tag span "Level" (Some "classes"%string) in
  match text with
  | None => ret None
  | Some text =>
      let text_list := split text (py ",") in
      let* class_dict := classes_loop text_list [] in
      ret (Some class_dict)
  end.

(** [Counter(values)]: the distinct values with their number of
    occurrences, in the order of first occurrence. *)
Fixpoint counter_add (c : dict Z nat) (L : Z) : dict Z nat :=
  match c with
  | [] => [(L, 1%nat)]
  | (k, n) :: r =>
      if Z.eqb k L then (k, S n) :: r else (k, n) :: counter_add r L
  end.

Definition Counter (values : list Z) : dict Z nat :=
  fold_left counter_add values [].

(** [most_common()]: [sorted(items, key=count, reverse=True)].  The sort
    is stable, so equal counts keep the order of first occurrence. *)
Fixpoint insert_by_count (x : Z * nat) (l : list (Z * nat))
  : list (Z * nat) :=
  match l with
  | [] => [x]
  | y :: r =>
      if Nat.ltb (snd x) (snd y) then y :: insert_by_count x r else x :: l
  end.

Definition most_common (c : dict Z nat) : list (Z * nat) :=
  foldr insert_by_count [] c.

(** The order of Python strings: lexicographic on code points. *)
Fixpoint str_ltb (a b : str) : bool :=
  match a, b with
  | [], [] => false
  | [], _ :: _ => true
  | _ :: _, [] => false
  | x :: a', y :: b' =>
      if N.ltb x y then true
      else if N.ltb y x then false
      else str_ltb a' b'
  end.

Fixpoint insert_sorted (x : str) (l : list str) : list str :=
  match l with
  | [] => [x]
  | y :: r => if str_ltb y x then y :: insert_sorted x r else x :: l
  end.

(** [sorted(l)] on a list of strings. *)
Definition sorted (l : list str) : list str := foldr insert_sorted [] l.

(** The inner loop of [_level_from_classes]: the abbreviated names of the
    classes at level [L], in the order of the dictionary. *)
Fixpoint class_list_at (classes : dict str Z) (keys : list str) (L : Z)
  : M (list str) :=
  match keys with
  | [] => ret []
  | key :: r =>
      match dict_get classes key with
      | None => raise KeyError
      | Some v =>
          if Z.eqb v L then
            let* a := abbreviate key in
            let* rest := class_list_at classes r L in
            ret (a :: rest)
          else class_list_at classes r L
      end
  end.

Definition level_group (classes : dict str Z) (L : Z) : M str :=
  let* class_list := class_list_at classes (map fst classes) L in
  ret (join (py "/") (sorted class_list) ++ py " " ++ str_of_int L).

(** [_level_from_classes], lines 242-281.  The test
    [counts[0] >= sum(counts)/2] is taken on integers as
    [2 * counts[0] >= sum(counts)]. *)
Definition _level_from_classes (classes : dict str Z) : M value :=
  let level_counter := most_common (Counter (map snd classes)) in
  match level_counter with
  | [(L, _)] => ret (VInt L)
  | _ =>
      let counts := map snd level_counter in
      let levels := map fst level_counter in
      let* c0 := getitem counts 0 in
      let* majority :=
        (if Nat.leb (list_sum counts) (2 * c0) then
           let* c1 := getitem counts 1 in
           ret (Nat.ltb c1 c0)
         else ret false) in
      let main_level := if majority then head levels else None in
      let levels := if majority then tail levels else levels in
      let* levellist := mapM (level_group classes) levels in
      let leveltxt := join (py ", ") levellist in
      match main_level with
      | Some m => ret (VStr (str_of_int m ++ py " (" ++ leveltxt ++ py ")"))
      | None => ret (VStr leveltxt)
      end
  end.

Definition _time_from_span (span : node) : M (option str) :=
  let* time := _get_text_from_simple_tag span "Casting Time"
                 (Some "time"%string) in
  match time with
  | None => ret None
  | Some time => ret (Some (texify (strip_chars (py " ;.") time)))
  end.

Definition _components_from_span (span : node) : M (option str) :=
  let* comp := _get_text_from_simple_tag span "Components"
                 (Some "components"%string) in
  match comp with
  | None => ret None
  | Some comp =>
      let comp := texify (strip_chars (py " ;.") comp) in
      let comp := re_sub [Group (OneOf (py "VSMF)")); One (Lit (chr ","));
                          One (Lit (chr " "))]
                         [RGroup1; RChar (chr ",")] comp in
      let comp := re_sub [Group (OneOf (py "MF")); One (Lit (chr " "));
                          One (Lit (chr "("))]
                         [RGroup1; RChar (chr "(")] comp in
      let comp := re_sub (map (fun c => One (Lit c)) (py " gp"))
                         (rlit (py "gp")) comp in
      let comp := re_sub (map (fun c => One (Lit c)) (py " lbs."))
                         (rlit (py "lb")) comp in
      ret (Some comp)
  end.

Definition _range_from_span (span : node) : M (option str) :=
  let* range := _get_text_from_simple_tag span "Range"
                  (Some "range"%string) in
  match range with
  | None => ret None
  | Some range =>
      let range := texify (strip_chars (py " ;.") range) in
      match List.find (fun opt => startswith range opt)
                      [py "close"; py "medium"; py "long"] with
      | Some opt => ret (Some opt)
      | None =>
          let range := re_sub [One (Lit (chr " ")); One (Lit (chr "f"));
                               One (Lit (chr "t")); One AnyChar]
                              (rlit (py "ft")) range in
          let range := re_sub (map (fun c => One (Lit c)) (py " ft"))
                              (rlit (py "ft")) range in
          ret (Some range)
      end
  end.

(** [_ATE_from_span], lines 318-328; [ATE] is "Area", "Target", "Effect",
    and also "Targets" and "Duration". *)
Definition _ATE_from_span (span : node) (ATE : string) : M (option str) :=
  let* text := _get_text_from_simple_tag span ATE None in
  match text with
  | None => ret None
  | Some text =>
      let text := texify (strip_chars (py " ;.") text) in
      let text := re_sub (map (fun c => One (Lit c)) (py "level")
                          ++ [Opt (Lit (chr "s"))])
                         (rlit (py "lvl")) text in
      let text := replace (py " per ") (py "/") text in
      let text := re_sub [One (OneOf (py " -")); One (Lit (chr "f"));
                          One (Lit (chr "t")); One (Lit (chr "."))]
                         (rlit (py "ft")) text in
      let text := re_sub (map (fun c => One (Lit c)) (py " lbs")
                          ++ [One AnyChar])
                         (rlit (py "lb")) text in
      ret (Some text)
  end.

Definition _area_from_span (span : node) : M (option str) :=
  _ATE_from_span span "Area".

Definition _target_from_span (span : node) : M (option str) :=
  let* target := _ATE_from_span span "Target" in
  match target with
  | None => _ATE_from_span span "Targets"
  | Some _ => ret target
  end.

Definition _effect_from_span (span : node) : M (option str) :=
  _ATE_from_span span "Effect".

(** [x.replace(...)] where [x] may be [None]. *)
Definition method_on_str (o : option str) : M str :=
  match o with
  | Some s => ret s
  | None => raise AttributeError
  end.

(** [_duration_from_span], lines 343-350. *)
Definition _duration_from_span (span : node) : M (option str) :=
  let* duration := _ATE_from_span span "Duration" in
  (match duration with
   | None =>
       warn (py "Could not find Duration tag. Skipping element 'duration'.")
   | Some _ => ret tt
   end);;
  let* duration := method_on_str duration in
  let duration := replace (py "min.") (py "min") duration in
  let duration := re_sub (map (fun c => One (Lit c)) (py "minute")
                          ++ [Opt (Lit (chr "s"))])
                         (rlit (py "min")) duration in
  ret (Some duration).

Definition _save_from_span (span : node) : M (option str) :=
  let* save := _get_text_from_simple_tag span "Saving Throw" None in
  match save with
  | None => ret (Some (py "none"))
  | Some save =>
      let save := strip_chars (py " ;.") save in
      let save := replace (py "Reflex") (py "Ref") save in
      let save := replace (py "Fortitude") (py "Fort") save in
      ret (Some save)
  end.

Definition _sr_from_span (span : node) : M (option str) :=
  let* sr := _get_text_from_simple_tag span "Spell Resistance" None in
  match sr with
  | None => ret (Some (py "no"))
  | Some sr => ret (Some (strip_chars (py " ;.") sr))
  end.

(** [span.find("h3", string="Description")] with its next siblings. *)
Definition find_heading (span : node) (s : string)
  : option (node * list node) :=
  find_tag (named_with_string "h3" s) span.

Definition _description_from_span (span : node) : M (option str) :=
  match find_heading span "Description" with
  | None =>
      warn (py
        "Could not find Description tag. Skipping element 'description'");;
      ret None
  | Some (_, sibs) =>
      let* pieces :=
        description_pieces [py "h3"; py "h2"; py "h1"] sibs in
      ret (Some (texify (concat (fst pieces))))
  end.

(** [if v is not None: json[key] = v] *)
Definition set_unless_None (json : dict str value) (key : string)
    (v : option str) : dict str value :=
  match v with
  | Some s => dict_set json (py key) (VStr s)
  | None => json
  end.

(** [json[key] = v], whatever [v] is. *)
Definition set_always (json : dict str value) (key : string)
    (v : option str) : dict str value :=
  dict_set json (py key)
    (match v with Some s => VStr s | None => VNone end).

(** The search for a span that is not empty, lines 94-103. *)
Fixpoint next_nonempty_span (spans : list node) : M node :=
  match spans with
  | [] => raise ValueError
  | Tag nm (c :: cs) :: _ => ret (Tag nm (c :: cs))
  | _ :: r => next_nonempty_span r
  end.

Definition first_span (soup : node) : M node :=
  let* table := child_tag (Some soup) "table" in
  let* span := child_tag table "span" in
  let* contents := contents_of span in
  match span, contents, table with
  | Some sp, _ :: _, _ => ret sp
  | _, _, Some t => next_nonempty_span (skipn 1 (find_all (named "span") t))
  | _, _, None => raise AttributeError
  end.

(** [soup2dict], lines 79-146. *)
Definition soup2dict (soup : node) : M (dict str value) :=
  let json : dict str value := [] in
  let* span := first_span soup in
  let* name := _name_from_span (Some span) in
  let json := set_unless_None json "name" (Some name) in
  let* source := _source_from_span span in
  let json := set_unless_None json "source" source in
  let* school := _school_from_span span in
  let json := set_unless_None json "school" school in
  let* classes := _classes_from_span span in
  let* json :=
    (match classes with
     | Some classes =>
         let json := dict_set json (py "classes") (VDict classes) in
         let* level := _level_from_classes classes in
         ret (dict_set json (py "level") level)
     | None => ret json
     end) in
  let* time := _time_from_span span in
  let json := set_unless_None json "time" time in
  let* components := _components_from_span span in
  let json := set_unless_None json "components" components in
  let* range := _range_from_span span in
  let json := set_unless_None json "range" range in
  let* area := _area_from_span span in
  let json := set_always json "area" area in
  let* target := _target_from_span span in
  let json := set_always json "target" target in
  let* effect := _effect_from_span span in
  let json := set_always json "effect" effect in
  (match area, target, effect with
   | None, None, None => warn (py "No Area, Target or Effect found.")
   | _, _, _ => ret tt
   end);;
  let* duration := _duration_from_span span in
  let json := set_unless_None json "duration" duration in
  let* save := _save_from_span span in
  let json := set_unless_None json "save" save in
  let* sr := _sr_from_span span in
  let json := set_unless_None json "sr" sr in
  let* description := _description_from_span span in
  let json := set_unless_None json "description" description in
  ret json.

End Spells.

(** ** [Pathfinder_Magic_Items/web_scrape.py] *)

Module Items.

(** The table of this script has no entry for the Adventurer's Guide. *)
Definition abbreviations : gmap str str := table_of common_abbreviations.

Definition initial : World := mkWorld abbreviations [].

Definition _name_from_span (span : option node) : M str :=
  let* h1 := child_tag span "h1" in
  let* t := text_of h1 in
  ret (strip t).

Definition find_label (span : node) (s : string)
  : option (node * list node) :=
  find_tag (named_with_string "b" s) span.

(** [_source_from_span], lines 129-154. *)
Definition _source_from_span (span : node) : M (option str) :=
  let spantxt := text span in
  let startind := (find spantxt (py "Source ") + 7)%Z in
  let endind := find spantxt (py "Aura") in
  if (startind <? 7)%Z then
    warn (py "We could not find 'Source '. Skipping element 'source'");;
    ret None
  else if (endind =? -1)%Z then
    warn (py "We could not find 'Aura'. Skipping element 'source'");;
    ret None
  else
    let listing := slice spantxt (Some startind) (Some endind) in
    if contains (py "PRPG Core Rulebook") listing then
      ret (Some (py "PF Core"))
    else
      let sources_raw := split listing (py ", ") in
      let* source := getitem sources_raw (-1) in
      let ind := find source (py " pg. ") in
      let source := slice source None (Some ind) in
      let* a := abbreviate source in
      ret (Some a).

(** [_aura_from_span], lines 156-170. *)
Definition _aura_from_span (span : node) : M (option str) :=
  let spantxt := text span in
  let startind := (find spantxt (py "Aura ") + 5)%Z in
  let endind := find spantxt (py "CL") in
  if (startind <? 5)%Z then
    warn (py "We could not find 'Aura '. Skipping element 'aura'");;
    ret None
  else if (endind =? -1)%Z then
    warn (py "We could not find 'CL'. Skipping element 'aura'");;
    ret None
  else
    ret (Some (strip_chars (py " ;")
                 (slice spantxt (Some startind) (Some endind)))).

Definition _CL_from_span (span : node) : M (option str) :=
  match find_label span "CL" with
  | None =>
      warn (py "Could not find CL tag. Skipping element 'cl'");;
      ret None
  | Some (_, sibs) =>
      let cl := str_of_next_sibling sibs in
      ret (Some (re_sub [One (NotInRange (chr "0") (chr "9"))] [] cl))
  end.

(** [if s[-1] == ";": s = s[0:-1]] *)
Definition drop_final_semicolon (s : str) : M str :=
  let* last := getitem s (-1) in
  if char_eqb last (chr ";")
  then ret (slice s (Some 0%Z) (Some (-1)%Z))
  else ret s.

Definition _slot_from_span (span : node) : M (option str) :=
  match find_label span "Slot" with
  | None =>
      warn (py "Could not find Slot tag. Skipping element 'slot'");;
      ret None
  | Some (_, sibs) =>
      let slot := strip (str_of_next_sibling sibs) in
      let* slot := drop_final_semicolon slot in
      if str_eqb slot [EM_DASH] then ret (Some (py "--"))
      else ret (Some slot)
  end.

(** The loop of [_price_from_span]: every text up to the next bold element
    or level-3 heading. *)
Fixpoint price_texts (sibs : list node) : list str :=
  match sibs with
  | [] => []
  | Tag nm cs :: r =>
      if str_eqb nm (py "b") || str_eqb nm (py "h3") then []
      else text (Tag nm cs) :: price_texts r
  | NavigableString s :: r => s :: price_texts r
  end.

Definition _price_from_span (span : node) : M (option str) :=
  match find_label span "Price" with
  | None =>
      warn (py "Could not find Price tag. Skipping element 'price'");;
      ret None
  | Some (_, sibs) =>
      let price := strip (concat (price_texts sibs)) in
      let* price := drop_final_semicolon price in
      ret (Some price)
  end.

Definition _weight_from_span (span : node) : M (option str) :=
  match find_label span "Weight" with
  | None =>
      warn (py "Could not find Weight tag. Skipping element 'weight'");;
      ret None
  | Some (_, sibs) =>
      let slot := strip_chars (py " ;.") (str_of_next_sibling sibs) in
      if str_eqb slot [EM_DASH] then ret (Some (py "--"))
      else ret (Some slot)
  end.

Definition find_heading (span : node) (s : string)
  : option (node * list node) :=
  find_tag (named_with_string "h3" s) span.

(** [_description_from_span], lines 239-284. *)
Definition _description_from_span (span : node) : M (option str) :=
  match find_heading span "Description" with
  | None =>
      warn (py
        "Could not find Description tag. Skipping element 'description'");;
      ret None
  | Some (_, sibs) =>
      let* pieces := description_pieces [py "h3"] sibs in
      (if snd pieces then ret tt
       else warn (py "Did not find h3 block after Description."));;
      ret (Some (texify (concat (fst pieces))))
  end.

(** The first loop of [_construction_from_span]: the nodes after the
    Requirements label up to the next bold element. *)
Fixpoint requirement_nodes (sibs : list node) : list node :=
  match sibs with
  | [] => []
  | Tag nm cs :: r =>
      if str_eqb nm (py "b") then [] else Tag nm cs :: requirement_nodes r
  | NavigableString s :: r => NavigableString s :: requirement_nodes r
  end.

(** The second loop: the indices of the elements of [tag_list], counted
    from [i]. *)
Fixpoint italic_list_from (i : nat) (tag_list : list node) : list nat :=
  match tag_list with
  | [] => []
  | x :: r =>
      (if is_tag x then [i] else []) ++ italic_list_from (S i) r
  end.

Definition list_min (x : nat) (l : list nat) : nat := foldr Nat.min x l.
Definition list_max (x : nat) (l : list nat) : nat := foldr Nat.max x l.

Definition none_if_empty (s : str) : option str :=
  match s with [] => None | _ :: _ => Some s end.

(** Lines 381-423: the split of the requirements into feats, spells and
    other requirements. *)
Definition split_requirements (tag_list : list node)
  : option str * option str * option str :=
  let text_list := map text tag_list in
  let italic_list := italic_list_from 0 tag_list in
  let '(feat, spells, others) :=
    match italic_list with
    | [] =>
        let splittxt := split (concat text_list) (py ", ") in
        let is_feat s := contains (py "Craft") s || contains (py "Forge") s in
        let feat_list := List.filter is_feat splittxt in
        let other_list := List.filter (fun s => negb (is_feat s)) splittxt in
        (join (py ", ") feat_list, [], join (py ", ") other_list)
    | i :: rest =>
        let lo := Z.of_nat (list_min i rest) in
        let hi := Z.of_nat (list_max i rest) in
        (concat (slice text_list (Some 0%Z) (Some lo)),
         concat (slice text_list (Some lo) (Some (hi + 1)%Z)),
         concat (slice text_list (Some (hi + 1)%Z) None))
    end in
  let punctuation := py " ,.;:" in
  let feat := strip_chars punctuation feat in
  let others := strip_chars punctuation others in
  let spells := strip_chars punctuation spells in
  let feat :=
    if str_eqb (slice feat (Some (-4)%Z) None) (py " and")
    then slice feat None (Some (-4)%Z) else feat in
  let feat := texify feat in
  let spells := texify spells in
  let others := texify others in
  (none_if_empty feat, none_if_empty spells, none_if_empty others).

(** [_construction_from_span], lines 355-423. *)
Definition _construction_from_span (span : node)
  : M (option (option str * option str * option str)) :=
  match find_heading span "Construction" with
  | None =>
      warn (py "Could not find Construction tag. Skipping.");;
      ret None
  | Some (_, sibs) =>
      match sibs with
      | [] => raise AttributeError
      | _ :: after_label =>
          ret (Some (split_requirements (requirement_nodes after_label)))
      end
  end.

Definition set_unless_None (json : dict str value) (key : string)
    (v : option str) : dict str value :=
  match v with
  | Some s => dict_set json (py key) (VStr s)
  | None => json
  end.

Definition set_always (json : dict str value) (key : string)
    (v : option str) : dict str value :=
  dict_set json (py key)
    (match v with Some s => VStr s | None => VNone end).

(** [soup2dict], lines 79-122. *)
Definition soup2dict (soup : node) : M (dict str value) :=
  let json : dict str value := [] in
  let* table := child_tag (Some soup) "table" in
  let* span := child_tag table "span" in
  let* name := _name_from_span span in
  let json := set_unless_None json "name" (Some name) in
  match span with
  | None => raise AttributeError
  | Some span =>
      let* source := _source_from_span span in
      let json := set_unless_None json "source" source in
      let* aura := _aura_from_span span in
      let json := set_unless_None json "aura" aura in
      let* cl := _CL_from_span span in
      let json := set_unless_None json "cl" cl in
      let* slot := _slot_from_span span in
      let json := set_unless_None json "slot" slot in
      let* price := _price_from_span span in
      let json := set_unless_None json "price" price in
      let* weight := _weight_from_span span in
      let json := set_unless_None json "weight" weight in
      let* description := _description_from_span span in
      let json := set_unless_None json "description" description in
      let* construction := _construction_from_span span in
      match construction with
      | None => raise TypeError
      | Some (feat, spells, others) =>
          let json := set_always json "feat" feat in
          let json := set_always json "spells" spells in
          let json := set_always json "other_requirements" others in
          ret json
      end
  end.

End Items.

(** * Specifications

    The definitions below say what the prose specification says, in its
    own terms; the theorems compare the code with them. *)

(** ** The escaping rules, one character at a time *)

(** Replace every occurrence of the character [c] by the text [r]. *)
Definition subst_char (c : char) (r : str) (s : str) : str :=
  flat_map (fun x => if char_eqb x c then r else [x]) s.

(** Put a backslash before every percent sign that does not follow one. *)
Fixpoint escape_percent_after (prev : option char) (s : str) : str :=
  match s with
  | [] => []
  | c :: t =>
      (if char_eqb c PERCENT && negb (bool_decide (prev = Some BACKSLASH))
       then [BACKSLASH; PERCENT] else [c])
      ++ escape_percent_after (Some c) t
  end.

Definition strip_carriage_returns : str -> str := subst_char CR [].
Definition escape_minus : str -> str := subst_char EN_DASH (py "$-$").
Definition dash_to_hyphens : str -> str := subst_char EM_DASH (py "--").
Definition plain_apostrophe : str -> str := subst_char RSQUO (py "'").
Definition plain_left_quote : str -> str := subst_char LDQUO (py "''").
Definition plain_right_quote : str -> str := subst_char RDQUO (py "''").
Definition escape_percent : str -> str := escape_percent_after None.
Definition newline_to_break : str -> str := subst_char LF (py "\\").

(** The characters that [texify] rewrites. *)
Definition special_chars : list char :=
  [CR; LF; PERCENT; EN_DASH; EM_DASH; RSQUO; LDQUO; RDQUO].

Definition is_ascii (c : char) : Prop := c < 128.

#[global] Instance is_ascii_dec (c : char) : Decision (is_ascii c).
Proof. unfold is_ascii. apply _. Defined.

(** ** The entries of a Level text *)

(** The class name of an entry: all but its final character, stripped. *)
Definition entry_class (e : str) : str := strip (removelast e).

(** The level of an entry: the value of its final character, when that is
    a decimal digit. *)
Definition entry_level (e : str) : option Z := last e ≫= digit_value.

Definition ends_in_digit (e : str) : Prop := is_Some (entry_level e).

#[global] Instance ends_in_digit_dec (e : str) : Decision (ends_in_digit e).
Proof. unfold ends_in_digit. apply _. Defined.

(** The level that a Level text gives to the class [cls]: that of the last
    entry for that class. *)
Definition level_of_class (entries : list str) (cls : str) : option Z :=
  last (filter (fun e => entry_class e = cls) entries) ≫= entry_level.

(** ** Sources *)

(** [source] is the name [name] followed by a page reference that starts at
    the first [ pg. ] of [source]. *)
Definition has_page_reference (source name : str) : Prop :=
  (exists page, source = name ++ py " pg. " ++ page)
  /\ find source (py " pg. ") = Z.of_nat (length name).

(** The listing of an item page: the text between [Source ] and [Aura]. *)
Definition item_source_listing (span : node) : str :=
  let spantxt := text span in
  slice spantxt (Some (find spantxt (py "Source ") + 7)%Z)
                (Some (find spantxt (py "Aura"))).

(** ** Documents used as examples *)

Definition txt (s : string) : node := NavigableString (py s).
Definition elt (name : string) (cs : list node) : node := Tag (py name) cs.

(** An item with two sources, neither of them the Core Rulebook. *)
Definition two_source_item : node :=
  elt "span" [
    elt "h1" [txt "Cloak of the Hedge Wizard"];
    elt "b" [txt "Source"]; txt " ";
    elt "a" [elt "i" [txt "Ultimate Equipment pg. 208"]]; txt ", ";
    elt "a" [elt "i" [txt "Advanced Player's Guide pg. 302"]];
    elt "br" [];
    elt "b" [txt "Aura"]; txt " faint conjuration; ";
    elt "b" [txt "CL"]; txt " 1st"
  ].

(** The same listing on a spell page. *)
Definition two_source_spell : node :=
  elt "span" [
    elt "h1" [txt "Ablative Barrier"];
    elt "b" [txt "Source"]; txt " ";
    elt "a" [elt "i" [txt "Ultimate Combat pg. 221"]]; txt ", ";
    elt "a" [elt "i" [txt "Ultimate Magic pg. 205"]];
    elt "br" [];
    elt "b" [txt "School"]; txt " conjuration (creation) [force]; ";
    elt "b" [txt "Level"]; txt " alchemist 2, magus 2, sorcerer 3, wizard 3"
  ].

(** ** The three construction requirements *)








(** ** The level summary *)

(** How many classes cast the spell at level [L]. *)
Definition count_at (classes : dict str Z) (L : Z) : nat :=
  length (filter (fun kv => snd kv = L) classes).

(** [m] is the main level: at least half of the classes have it, and
    every other level has strictly fewer. *)
Definition is_main_level (classes : dict str Z) (m : Z) : Prop :=
  (length classes <= 2 * count_at classes m)%nat
  /\ forall L, L <> m -> (count_at classes L < count_at classes m)%nat.

Definition all_at_one_level (classes : dict str Z) (L : Z) : Prop :=
  forall kv, kv ∈ classes -> snd kv = L.

(** The short code of a name, or the name itself. *)
Definition abbreviation_of (table : gmap str str) (name : str) : str :=
  default name (table !! name).

Definition str_le (a b : str) : Prop := Spells.str_ltb b a = false.

(** The order of [most_common]: the larger count first. *)
Definition more_common (x y : Z * nat) : Prop := (snd y <= snd x)%nat.

(** The count that a counter holds for [L]; a missing key counts zero. *)
Definition cnt (c : dict Z nat) (L : Z) : nat :=
  default 0%nat (dict_get c L).

(** [g] is the group of level [L]: the abbreviated names of the classes at
    that level, in alphabetical order and joined by [/], then the level. *)
Definition is_group_of (table : gmap str str) (classes : dict str Z)
    (L : Z) (g : str) : Prop :=
  exists names,
    Permutation names
      (map (fun kv => abbreviation_of table (fst kv))
           (filter (fun kv => snd kv = L) classes))
    /\ Sorted str_le names
    /\ g = join (py "/") names ++ py " " ++ str_of_int L.

(** [s] lists the groups of [levels], separated by commas. *)
Definition is_grouped_list (table : gmap str str) (classes : dict str Z)
    (levels : list Z) (s : str) : Prop :=
  exists groups,
    Forall2 (is_group_of table classes) levels groups
    /\ s = join (py ", ") groups.

(** [levels] holds each level of [classes] that passes [keep] exactly
    once, the more frequent levels first. *)
Definition lists_levels (classes : dict str Z) (keep : Z -> Prop)
    (levels : list Z) : Prop :=
  NoDup levels
  /\ (forall L, L ∈ levels <-> L ∈ map snd classes /\ keep L)
  /\ Sorted (fun a b => (count_at classes b <= count_at classes a)%nat)
            levels.

(** The summary that the specification asks for. *)
Inductive level_summary (table : gmap str str) (classes : dict str Z)
  : value -> Prop :=
  | summary_single (L : Z) :
      all_at_one_level classes L ->
      level_summary table classes (VInt L)
  | summary_main (m : Z) (others : list Z) (s : str) :
      (forall L, ~ all_at_one_level classes L) ->
      is_main_level classes m ->
      lists_levels classes (fun L => L <> m) others ->
      is_grouped_list table classes others s ->
      level_summary table classes
        (VStr (str_of_int m ++ py " (" ++ s ++ py ")"))
  | summary_grouped (levels : list Z) (s : str) :
      (forall L, ~ all_at_one_level classes L) ->
      (forall m, ~ is_main_level classes m) ->
      lists_levels classes (fun _ => True) levels ->
      is_grouped_list table classes levels s ->
      level_summary table classes (VStr s).

(** ** Markup-safe text *)

(** The characters that must not reach a record, and the test for a
    percent sign that is not escaped. *)
Definition unsafe_chars : list char :=
  [CR; LF; EM_DASH; RSQUO; LDQUO; RDQUO].

Definition markup_safe (s : str) : Prop :=
  Forall (fun c => c ∉ unsafe_chars) s /\ escape_percent s = s.

#[global] Instance markup_safe_dec (s : str) : Decision (markup_safe s).
Proof. unfold markup_safe. apply _. Defined.

(** The string stored under [key], if any. *)
Definition string_field (json : dict str value) (key : string)
  : option str :=
  match dict_get json (py key) with
  | Some (VStr s) => Some s
  | _ => None
  end.

(** ** Pages used as examples *)

Definition page (span_contents : list node) : node :=
  elt "[document]" [
    elt "table" [elt "tr" [elt "td" [elt "span" span_contents]]]].

(** An item page that ends after the description: it has no Construction
    heading. *)
Definition item_without_construction : node :=
  page [
    elt "h1" [txt "Bag of Holding"];
    elt "b" [txt "Source"]; txt " ";
    elt "a" [elt "i" [txt "PRPG Core Rulebook pg. 501"]]; elt "br" [];
    elt "b" [txt "Aura"]; txt " moderate conjuration; ";
    elt "b" [txt "CL"]; txt " 9th"; elt "br" [];
    elt "b" [txt "Slot"]; txt " none; ";
    elt "b" [txt "Price"]; txt " 2,500 gp; ";
    elt "b" [txt "Weight"]; txt " 15 lbs.";
    elt "h3" [txt "Description"];
    txt "This appears to be a common cloth sack."
  ].

(** A spell page with every label but Duration. *)
Definition spell_without_duration : node :=
  page [
    elt "h1" [txt "Fireball"];
    elt "b" [txt "Source"]; txt " ";
    elt "a" [elt "i" [txt "PRPG Core Rulebook pg. 283"]]; elt "br" [];
    elt "b" [txt "School"]; txt " evocation [fire]; ";
    elt "b" [txt "Level"]; txt " bloodrager 3, magus 3, sorcerer 3, wizard 3";
    elt "h3" [txt "Casting"];
    elt "b" [txt "Casting Time"]; txt " 1 standard action"; elt "br" [];
    elt "b" [txt "Components"]; txt " V, S, M (a ball of bat guano)";
    elt "h3" [txt "Effect"];
    elt "b" [txt "Range"]; txt " long (400 ft. + 40 ft./level)"; elt "br" [];
    elt "b" [txt "Area"]; txt " 20-ft.-radius spread"; elt "br" [];
    elt "b" [txt "Saving Throw"]; txt " Reflex half; ";
    elt "b" [txt "Spell Resistance"]; txt " yes";
    elt "h3" [txt "Description"];
    txt "A fireball spell generates a searing explosion of flame."
  ].

(** The same page with its Duration: it has an Area but neither a Target
    nor an Effect. *)
Definition spell_with_area_only : node :=
  page [
    elt "h1" [txt "Fireball"];
    elt "b" [txt "Source"]; txt " ";
    elt "a" [elt "i" [txt "PRPG Core Rulebook pg. 283"]]; elt "br" [];
    elt "b" [txt "School"]; txt " evocation [fire]; ";
    elt "b" [txt "Level"]; txt " bloodrager 3, magus 3, sorcerer 3, wizard 3";
    elt "h3" [txt "Casting"];
    elt "b" [txt "Casting Time"]; txt " 1 standard action"; elt "br" [];
    elt "b" [txt "Components"]; txt " V, S, M (a ball of bat guano)";
    elt "h3" [txt "Effect"];
    elt "b" [txt "Range"]; txt " long (400 ft. + 40 ft./level)"; elt "br" [];
    elt "b" [txt "Area"]; txt " 20-ft.-radius spread"; elt "br" [];
    elt "b" [txt "Duration"]; txt " instantaneous"; elt "br" [];
    elt "b" [txt "Saving Throw"]; txt " Reflex half; ";
    elt "b" [txt "Spell Resistance"]; txt " yes";
    elt "h3" [txt "Description"];
    txt "A fireball spell generates a searing explosion of flame."
  ].

(** An item page whose name has a typographic apostrophe and whose price
    is a dash. *)
Definition item_with_typographic_name : node :=
  page [
    elt "h1" [NavigableString (py "Hunter" ++ [RSQUO] ++ py "s Cloak")];
    elt "b" [txt "Source"]; txt " ";
    elt "a" [elt "i" [txt "Ultimate Equipment pg. 208"]]; elt "br" [];
    elt "b" [txt "Aura"]; txt " faint transmutation; ";
    elt "b" [txt "CL"]; txt " 5th"; elt "br" [];
    elt "b" [txt "Slot"]; txt " shoulders; ";
    elt "b" [txt "Price"];
    NavigableString [chr " "; EM_DASH; chr ";"; chr " "];
    elt "b" [txt "Weight"]; txt " 1 lb.";
    elt "h3" [txt "Description"];
    txt "This cloak is woven of leaves.";
    elt "h3" [txt "Construction"];
    elt "b" [txt "Requirements"]; txt " Craft Wondrous Item, ";
    elt "i" [txt "pass without trace"]; txt "; ";
    elt "b" [txt "Cost"]; txt " 1,250 gp"
  ].

(** ** Fields that are stored only when their label is found *)

(** The state after the warnings [log]. *)
Definition add_log (w : World) (log : list str) : World :=
  mkWorld (abbreviations w) (warnings w ++ log).


(** Every warning that the computation [c] emits satisfies [P], and [c]
    leaves the table as it is. *)
Definition logs (P : str -> Prop) {A} (c : M A) : Prop :=
  forall w, exists log, snd (c w) = add_log w log /\ Forall P log.

(** The two families of warnings that carry text of the page. *)
Definition about_abbreviation (m : str) : Prop :=
  exists name, m = py "Could not abbreviate '" ++ name ++ py "'".

Definition about_unknown_tag (m : str) : Prop :=
  exists rest, m = py "Found unknown tag '" ++ rest.

(** The fields of a spell that [soup2dict] stores under the test
    [if x is not None]. *)
Inductive spell_field : Type :=
  | SSource | SSchool | SLevel | STime | SComponents | SRange
  | SDescription.



Definition spell_warning (f : spell_field) : str :=
  match f with
  | SSource => py "Could not find Source tag. Skipping element 'source'"
  | SSchool => py "Could not find School tag. Skipping element 'school'."
  | SLevel => py "Could not find Level tag. Skipping element 'classes'."
  | STime => py "Could not find Casting Time tag. Skipping element 'time'."
  | SComponents =>
      py "Could not find Components tag. Skipping element 'components'."
  | SRange => py "Could not find Range tag. Skipping element 'range'."
  | SDescription =>
      py "Could not find Description tag. Skipping element 'description'"
  end.

Definition no_ATE_warning : str := py "No Area, Target or Effect found.".


(** The warnings about a missing label of a spell. *)
Definition spell_warnings : list str :=
  no_ATE_warning
  :: map spell_warning
       [SSource; SSchool; SLevel; STime; SComponents; SRange; SDescription].

(** The fields of an item that [soup2dict] stores under the same test. *)
Inductive item_field : Type :=
  | ISource | IAura | ICL | ISlot | IPrice | IWeight | IDescription.



Definition item_warning (f : item_field) : str :=
  match f with
  | ISource => py "We could not find 'Source '. Skipping element 'source'"
  | IAura => py "We could not find 'Aura '. Skipping element 'aura'"
  | ICL => py "Could not find CL tag. Skipping element 'cl'"
  | ISlot => py "Could not find Slot tag. Skipping element 'slot'"
  | IPrice => py "Could not find Price tag. Skipping element 'price'"
  | IWeight => py "Could not find Weight tag. Skipping element 'weight'"
  | IDescription =>
      py "Could not find Description tag. Skipping element 'description'"
  end.

Definition item_warnings : list str :=
  map item_warning
    [ISource; IAura; ICL; ISlot; IPrice; IWeight; IDescription].

(** The span that [soup2dict] reads on an item page. *)
Definition item_span (soup : node) : option node :=
  match find_tag (named "table") soup with
  | Some (table, _) => fst <$> find_tag (named "span") table
  | None => None
  end.



(** Every percent sign of [s] follows a backslash; [prev] is the character
    before [s]. *)
Fixpoint percents_escaped (prev : option char) (s : str) : Prop :=
  match s with
  | [] => True
  | c :: t =>
      (c = PERCENT -> prev = Some BACKSLASH) /\ percents_escaped (Some c) t
  end.

(** * Further code and its specifications *)

(** ** The entry point of the two scripts *)

(** The test on [args.url] in the [__main__] block. *)
Definition allowed_url (url : str) : bool :=
  startswith url (py "https://aonprd.com/")
  || startswith url (py "https://www.aonprd.com/").

(** The [__main__] block, lines 485-514 (spells) and 426-455 (items), up to
    the dictionary that is handed to [json.dumps].  [url2soup] fetches and
    parses the page; [soup2dict] is that of the script. *)
Definition main (soup2dict : node -> M (dict str value))
    (url2soup : str -> M node) (url : option str) : M (dict str value) :=
  match url with
  | None => raise TypeError
  | Some url =>
      if negb (allowed_url url) then raise ValueError
      else
        let* soup := url2soup url in
        let* data := soup2dict soup in
        ret (dict_set data (py "url") (VStr url))
  end.

(** ** Further specifications *)

(** The characters that [texify] rewrites, the percent sign apart. *)
Definition rewritten_chars : list char :=
  [CR; LF; EN_DASH; EM_DASH; RSQUO; LDQUO; RDQUO].

(** A dictionary of classes as [_classes_from_span] builds them. *)
Definition wellformed_classes (d : dict str Z) : Prop :=
  d <> [] /\ NoDup (map fst d)
  /\ Forall (fun kv => (0 <= snd kv <= 9)%Z) d.

Definition is_ascii_digit (c : char) : bool :=
  N.leb (chr "0") c && N.leb c (chr "9").

(** The keys of a spell record, in the order in which [soup2dict] stores
    them, and those that every record has. *)
Definition spell_key_order : list str :=
  map py ["name"; "source"; "school"; "classes"; "level"; "time";
          "components"; "range"; "area"; "target"; "effect"; "duration";
          "save"; "sr"; "description"]%string.

Definition spell_keys_always : list str :=
  map py ["name"; "area"; "target"; "effect"; "duration"; "save";
          "sr"]%string.

Definition item_key_order : list str :=
  map py ["name"; "source"; "aura"; "cl"; "slot"; "price"; "weight";
          "description"; "feat"; "spells"; "other_requirements"]%string.

Definition item_keys_always : list str :=
  map py ["name"; "feat"; "spells"; "other_requirements"]%string.

(** The keys of a record. *)
Definition keys {V} (json : dict str V) : list str := map fst json.

(** The warnings that do not carry text of the page. *)
Definition fixed_warnings : list str :=
  spell_warnings ++ item_warnings
  ++ map py [
       "No sources detected. Skipping element 'source'.";
       "Could not find Duration tag. Skipping element 'duration'.";
       "We could not find 'Aura'. Skipping element 'source'";
       "We could not find 'CL'. Skipping element 'aura'";
       "Did not find h3 block after Description.";
       "Could not find Construction tag. Skipping."]%string.

(** Every warning of the two scripts is one of these. *)
Definition known_warning (m : str) : Prop :=
  m ∈ fixed_warnings \/ about_abbreviation m \/ about_unknown_tag m.

(** One assignment of [soup2dict]: [json[key] = v] when there is a value
    [v], nothing otherwise. *)
Definition apply_op (json : dict str value) (op : str * option value)
  : dict str value :=
  match snd op with
  | Some v => dict_set json (fst op) v
  | None => json
  end.

(** A field that is either missing or a non-empty markup-safe string. *)
Definition safe_or_absent (o : option str) : Prop :=
  match o with
  | Some s => s <> [] /\ markup_safe s
  | None => True
  end.





(** ** Further pages used as examples *)

(** An item whose Slot and Price labels are followed by white space
    only. *)
Definition item_with_empty_slot : node :=
  elt "span" [
    elt "h1" [txt "Ioun Stone"];
    elt "b" [txt "Slot"]; txt " ";
    elt "b" [txt "Price"]; txt " ";
    elt "b" [txt "Weight"]; txt " 1 lb."
  ].

(** A spell and an item whose only source has no page reference. *)
Definition spell_source_without_page : node :=
  elt "span" [
    elt "h1" [txt "Mending"];
    elt "b" [txt "Source"]; txt " ";
    elt "a" [elt "i" [txt "Ultimate Magic"]]; elt "br" [];
    elt "b" [txt "School"]; txt " transmutation; "
  ].

Definition item_source_without_page : node :=
  elt "span" [
    elt "h1" [txt "Ioun Stone"];
    elt "b" [txt "Source"]; txt " ";
    elt "a" [elt "i" [txt "Ultimate Equipment"]]; elt "br" [];
    elt "b" [txt "Aura"]; txt " faint transmutation; "
  ].



(** The Construction block of an item, and a page without [h1]. *)
Definition construction_block : node :=
  elt "span" [
    elt "h3" [txt "Construction"];
    elt "b" [txt "Requirements"]; txt " Craft Wondrous Item, ";
    elt "i" [txt "pass without trace"]; txt "; ";
    elt "b" [txt "Cost"]; txt " 1,250 gp"
  ].

Definition span_without_heading : list node :=
  [elt "b" [txt "Source"]; txt " none"].

(** A span with a description and a casting time. *)
Definition described_span : node :=
  elt "span" [
    elt "b" [txt "Casting Time"]; txt " 1 round";
    elt "h3" [txt "Description"];
    NavigableString (py "Lasts 50% longer" ++ [EM_DASH] ++ py "or not.");
    elt "h3" [txt "Construction"]; txt "Not read."
  ].

(** The two substitutions at the end of [_range_from_span], lines
    314-315: [re.sub(r' ft.', 'ft', range)], then
    [re.sub(' ft', 'ft', range)]. *)
Definition compress_ft (range : str) : str :=
  re_sub (map (fun c => One (Lit c)) (py " ft")) (rlit (py "ft"))
    (re_sub [One (Lit (chr " ")); One (Lit (chr "f"));
             One (Lit (chr "t")); One AnyChar]
            (rlit (py "ft")) range).

(** The three range bands that [_range_from_span] returns as a bare
    word. *)
Definition range_bands : list str := [py "close"; py "medium"; py "long"].

(** A pattern without look-behind and without optional atoms. *)
Definition plain_item (i : item) : Prop :=
  match i with
  | One _ | Group _ => True
  | Opt _ | NotAfter _ => False
  end.

(** A range in feet followed by a word, and an item whose name holds the
    letters of the CL label. *)
Definition range_in_feet : node :=
  elt "span" [elt "b" [txt "Range"]; txt " 120 ft line; "].

Definition item_named_with_CL : node :=
  elt "span" [
    elt "h1" [txt "Ring of CLarity"];
    elt "b" [txt "Aura"]; txt " faint divination; ";
    elt "b" [txt "CL"]; txt " 5th"
  ].

(** [thins D s out]: [out] is [s] without some of its characters, all of
    them in [D]. *)
Inductive thins (D : char -> Prop) : str -> str -> Prop :=
  | thins_nil : thins D [] []
  | thins_keep c s out : thins D s out -> thins D (c :: s) (c :: out)
  | thins_drop c s out : D c -> thins D s out -> thins D (c :: s) out.

(** The characters that the substitutions of [_components_from_span]
    remove: a blank, and the [s] and the dot of [lbs.]. *)
Definition squeezed (c : char) : Prop := c ∈ py " s.".

(** A spell page with components only. *)
Definition components_only : node :=
  elt "span" [
    elt "b" [txt "Components"];
    txt " V, S, M (powdered silver worth 25 gp, 2 lbs. of it)"
  ].

(** * Pages as the specification describes them *)

(** The definitions of this part are written from the wording of the
    specification, without the functions of the scripts: they say what
    text a page shows, and the theorems say what the scripts make of
    it. *)

(** [l] written with [sep] between its elements. *)
Definition separated (sep : str) (l : list str) : str :=
  match l with
  | [] => []
  | x :: r => x ++ concat (map (fun y => sep ++ y) r)
  end.

(** [sub] occurs in [s]. *)
Definition occurs (sub s : str) : Prop := exists a b, s = a ++ sub ++ b.

(** The first occurrence of [sub] in [s] comes right after [a]. *)
Definition first_at (sub s a : str) : Prop :=
  (exists b, s = a ++ sub ++ b)
  /\ forall a' b', s = a' ++ sub ++ b' -> (length a <= length a')%nat.

(** ** A Level text *)

(** One entry of a Level text: blanks, the name of the class, blanks, and
    a final character that is a decimal digit of value [le_level]. *)
Record level_entry : Type := mkLevelEntry {
  le_lead : str;
  le_name : str;
  le_trail : str;
  le_digit : char;
  le_level : Z
}.

Definition le_text (e : level_entry) : str :=
  le_lead e ++ le_name e ++ le_trail e ++ [le_digit e].

(** [c] is the decimal digit of value [n]: the character [n] places after
    the zero of a block of ten digits. *)
Definition decimal_digit (c : char) (n : Z) : Prop :=
  exists zero,
    zero ∈ decimal_zeros /\ (0 <= n <= 9)%Z /\ c = (zero + Z.to_N n)%N.

Definition blank (s : str) : Prop := Forall (fun c => is_space c = true) s.

(** A text with no blank at either end. *)
Definition trimmed (s : str) : Prop :=
  match s with [] => True | c :: _ => is_space c = false end
  /\ match last s with Some c => is_space c = false | None => True end.

Definition well_formed (e : level_entry) : Prop :=
  blank (le_lead e) /\ trimmed (le_name e) /\ blank (le_trail e)
  /\ (chr "," ∉ le_text e)
  /\ decimal_digit (le_digit e) (le_level e).

(** The text [it] ends in a decimal digit. *)
Definition ends_in_decimal_digit (it : str) : Prop :=
  exists p c n, it = p ++ [c] /\ decimal_digit c n.

(** The level that the entries give to the class [cls]: that of the last
    entry with this name. *)
Definition listed_level (entries : list level_entry) (cls : str)
  : option Z :=
  le_level <$> last (filter (fun e => le_name e = cls) entries).

(** The entries of the Level text of [two_source_spell]. *)
Definition two_source_spell_entries : list level_entry :=
  [mkLevelEntry (py " ") (py "alchemist") (py " ") (chr "2") 2;
   mkLevelEntry (py " ") (py "magus") (py " ") (chr "2") 2;
   mkLevelEntry (py " ") (py "sorcerer") (py " ") (chr "3") 3;
   mkLevelEntry (py " ") (py "wizard") (py " ") (chr "3") 3].

(** A Level text with a level of two digits. *)
Definition two_digit_level : node :=
  elt "span" [elt "b" [txt "Level"]; txt " cleric 3, wizard 12"].

(** ** The sources that a page lists *)

Definition core_rulebook : str := py "PRPG Core Rulebook".

(** [name] is [source] cut at its page reference: what stands before the
    first [ pg. ] of [source]. *)
Definition without_page (source name : str) : Prop :=
  first_at (py " pg. ") source name.

(** The texts of the links among [nodes]. *)
Definition link_texts (nodes : list node) : list str :=
  map text (List.filter (named "a") nodes).

(** On a spell page the nodes [sibs] after the Source label list
    [sources]: these are the texts of the links that stand before the
    next bold element, or before the end. *)
Definition spell_lists (sibs : list node) (sources : list str) : Prop :=
  exists nodes rest,
    sibs = nodes ++ rest
    /\ Forall (fun n => named "b" n = false) nodes
    /\ match rest with [] => True | n :: _ => named "b" n = true end
    /\ sources = link_texts nodes.

(** An item page lists [sources]: its text reads [Source ], the sources
    separated by [, ], and [Aura], these being the first [Source ] and the
    first [Aura] of the text; no source holds a [, ]. *)
Definition item_lists (span : node) (sources : list str) : Prop :=
  exists before,
    first_at (py "Source ") (text span) before
    /\ first_at (py "Aura") (text span)
         (before ++ py "Source " ++ separated (py ", ") sources)
    /\ Forall (fun s => ~ occurs (py ", ") s) sources.

(** * Verification *)

(** ** The regular-expression engine on the patterns of [texify] *)

Lemma expand_rlit (r g : str) : expand (rlit r) g = r.
Proof.
  unfold expand, rlit. induction r as [|c r IH]; simpl; [done|].
  by rewrite IH.
Qed.

Lemma re_sub_from_literal (c : char) (r : str) (prev : option char) (s : str) :
  re_sub_from [One (Lit c)] (rlit r) prev 0 s = subst_char c r s.
Proof.
  revert prev. induction s as [|x s IH]; intros prev; simpl; [done|].
  destruct (char_eqb x c); simpl.
  - by rewrite expand_rlit, IH.
  - by rewrite IH.
Qed.

Lemma re_sub_literal (c : char) (r : str) (s : str) :
  re_sub [One (Lit c)] (rlit r) s = subst_char c r s.
Proof. apply re_sub_from_literal. Qed.

Lemma re_sub_from_percent (prev : option char) (s : str) :
  re_sub_from [NotAfter BACKSLASH; One (Lit PERCENT)]
              (rlit [BACKSLASH; PERCENT]) prev 0 s
  = escape_percent_after prev s.
Proof.
  revert prev. induction s as [|x s IH]; intros prev; [done|].
  cbn [re_sub_from match_here escape_percent_after].
  destruct prev as [p|].
  - destruct (char_eqb p BACKSLASH) eqn:Hp.
    + apply N.eqb_eq in Hp. subst p.
      rewrite bool_decide_eq_true_2 by done.
      rewrite andb_false_r. cbn. by rewrite IH.
    + rewrite bool_decide_eq_false_2.
      2:{ intros [= ->]. by rewrite N.eqb_refl in Hp. }
      cbn [atom_matches]. destruct (char_eqb x PERCENT); cbn.
      * by rewrite IH.
      * by rewrite IH.
  - rewrite bool_decide_eq_false_2 by done.
    cbn [atom_matches]. destruct (char_eqb x PERCENT); cbn; by rewrite IH.
Qed.

Lemma texify_unfold (text : str) :
  texify text
  = newline_to_break (escape_percent (plain_right_quote (plain_left_quote
      (plain_apostrophe (dash_to_hyphens (escape_minus
        (strip_carriage_returns text))))))).
Proof.
  unfold texify, replace.
  change (map (fun c => One (Lit c)) [LF]) with [One (Lit LF)].
  change (@nil ritem) with (rlit []) at 1.
  rewrite !re_sub_literal.
  unfold re_sub. change (py "\%") with [BACKSLASH; PERCENT].
  by rewrite re_sub_from_percent.
Qed.

(** C4.  [texify] is the eight escaping rules applied one after the other:
    carriage returns are removed, U+2013 becomes [$-$], the em-dash becomes
    [--], U+2019 becomes an apostrophe, U+201C and U+201D become two
    apostrophes each, a percent sign gets a backslash unless it already
    follows one, and last every newline becomes the line break [\\]. *)
Theorem texify_applies_rules_in_order (text : str) :
  texify text
  = newline_to_break (escape_percent (plain_right_quote (plain_left_quote
      (plain_apostrophe (dash_to_hyphens (escape_minus
        (strip_carriage_returns text))))))).
Proof. apply texify_unfold. Qed.

Lemma subst_char_absent (c : char) (r s : str) :
  c ∉ s -> subst_char c r s = s.
Proof.
  unfold subst_char. induction s as [|x s IH]; intros Hc; simpl; [done|].
  apply not_elem_of_cons in Hc as [Hx Hs].
  destruct (char_eqb x c) eqn:E.
  - apply N.eqb_eq in E. congruence.
  - simpl. by rewrite IH.
Qed.

Lemma escape_percent_absent (prev : option char) (s : str) :
  PERCENT ∉ s -> escape_percent_after prev s = s.
Proof.
  revert prev. induction s as [|x s IH]; intros prev Hc; simpl; [done|].
  apply not_elem_of_cons in Hc as [Hx Hs].
  destruct (char_eqb x PERCENT) eqn:E.
  - apply N.eqb_eq in E. congruence.
  - simpl. by rewrite IH.
Qed.

Lemma texify_plain (s : str) :
  Forall (fun c => c ∉ special_chars) s -> texify s = s.
Proof.
  intros H. rewrite texify_unfold.
  assert (Hs : forall c, c ∈ special_chars -> c ∉ s).
  { intros c Hc Hin. rewrite Forall_forall in H. by apply (H c). }
  unfold newline_to_break, escape_percent, plain_right_quote,
    plain_left_quote, plain_apostrophe, dash_to_hyphens, escape_minus,
    strip_carriage_returns.
  rewrite (subst_char_absent CR) by (apply Hs; set_solver).
  rewrite (subst_char_absent EN_DASH) by (apply Hs; set_solver).
  rewrite (subst_char_absent EM_DASH) by (apply Hs; set_solver).
  rewrite (subst_char_absent RSQUO) by (apply Hs; set_solver).
  rewrite (subst_char_absent LDQUO) by (apply Hs; set_solver).
  rewrite (subst_char_absent RDQUO) by (apply Hs; set_solver).
  rewrite escape_percent_absent by (apply Hs; set_solver).
  rewrite (subst_char_absent LF) by (apply Hs; set_solver).
  done.
Qed.

(** C9.  On a plain ASCII string with no carriage return, newline, percent
    sign or typographic punctuation, [texify] is the identity, and so it is
    idempotent there. *)
Theorem texify_plain_ascii_fixed (s : str) :
  Forall is_ascii s ->
  Forall (fun c => c ∉ special_chars) s ->
  texify s = s /\ texify (texify s) = texify s.
Proof.
  intros _ H. pose proof (texify_plain s H) as E. by rewrite !E.
Qed.

Lemma texify_plain_ascii_fixed_witness :
  Forall is_ascii (py "Craft Wondrous Item")
  /\ Forall (fun c => c ∉ special_chars) (py "Craft Wondrous Item")
  /\ texify (py "Craft Wondrous Item") = py "Craft Wondrous Item"
  /\ texify (texify (py "Craft Wondrous Item"))
     = texify (py "Craft Wondrous Item").
Proof.
  assert (H1 : Forall is_ascii (py "Craft Wondrous Item")).
  { apply (bool_decide_unpack _). vm_compute. exact I. }
  assert (H2 : Forall (fun c => c ∉ special_chars)
                      (py "Craft Wondrous Item")).
  { apply (bool_decide_unpack _). vm_compute. exact I. }
  split; [exact H1|]. split; [exact H2|].
  exact (texify_plain_ascii_fixed (py "Craft Wondrous Item") H1 H2).
Defined.

(** ** [abbreviate] *)

(** C10.  [abbreviate] never raises and never changes the table.  On a key
    of the table it returns the short code and warns of nothing; on any
    other name it returns the name itself and emits exactly one warning. *)
Theorem abbreviate_total (name : str) (w : World) :
  exists r w',
    abbreviate name w = (Ok r, w')
    /\ abbreviations w' = abbreviations w
    /\ match abbreviations w !! name with
       | Some code => r = code /\ warnings w' = warnings w
       | None =>
           r = name
           /\ warnings w'
              = warnings w ++ [py "Could not abbreviate '" ++ name ++ py "'"]
       end.
Proof.
  unfold abbreviate, try_except, abbreviations_getitem.
  destruct (abbreviations w !! name) as [code|] eqn:E.
  - by exists code, w.
  - eexists _, _. rewrite bool_decide_eq_true_2 by done.
    cbn. split; [reflexivity|]. by cbn.
Qed.

(** ** Dictionaries, slices and indexing *)

Lemma dict_get_set {K V} `{EqDecision K} (d : dict K V) (k k' : K) (v : V) :
  dict_get (dict_set d k v) k'
  = if decide (k = k') then Some v else dict_get d k'.
Proof.
  induction d as [|[k0 v0] d IH]; simpl.
  - repeat case_decide; congruence.
  - repeat (case_decide; simpl); try congruence.
Qed.

Lemma getitem_last {A} (l : list A) (x : A) (w : World) :
  last l = Some x -> getitem l (-1) w = (Ok x, w).
Proof.
  intros Hl. unfold getitem.
  destruct l as [|a l]; [done|].
  change ((-1 <? 0)%Z) with true. cbv iota.
  assert (Hlen : (-1 + Z.of_nat (length (a :: l)) = Z.of_nat (length l))%Z).
  { simpl length. lia. }
  rewrite Hlen. destruct (Z.ltb_spec (Z.of_nat (length l)) 0); [lia|].
  rewrite Nat2Z.id. rewrite last_lookup in Hl. simpl in Hl.
  replace (nth_error (a :: l) (length l)) with (Some x); [done|].
  symmetry. clear -Hl. revert a Hl. generalize (length l) as n.
  intros n. revert l. induction n; intros l a H; destruct l; simpl in *;
    try done. by apply IHn.
Qed.

Lemma getitem_last_empty {A} (w : World) :
  getitem (@nil A) (-1) w = (Raise IndexError, w).
Proof. done. Qed.

Lemma slice_all_but_last {A} (l : list A) :
  slice l (Some 0%Z) (Some (-1)%Z) = removelast l.
Proof.
  unfold slice, slice_bound. rewrite removelast_firstn_len.
  change ((0 <? 0)%Z) with false. change ((-1 <? 0)%Z) with true. cbv iota.
  destruct l as [|a l]; [done|].
  simpl length. 
  replace (Z.max 0 (Z.min (Z.of_nat (S (length l))) 0)) with 0%Z by lia.
  replace (Z.max 0 (Z.min (Z.of_nat (S (length l)))
                          (-1 + Z.of_nat (S (length l)))))
    with (Z.of_nat (length l)) by lia.
  rewrite Z.sub_0_r, Nat2Z.id. done.
Qed.

(** ** The classes of a spell *)

Lemma classes_loop_step (e : str) (r : list str) (d : dict str Z)
    (n : Z) (w : World) :
  entry_level e = Some n ->
  Spells.classes_loop (e :: r) d w
  = Spells.classes_loop r (dict_set d (entry_class e) n) w.
Proof.
  unfold entry_level. intros H.
  destruct (last e) as [x|] eqn:Hl; [|done]. simpl in H.
  cbn [Spells.classes_loop]. unfold bind at 1.
  rewrite (getitem_last e x w Hl).
  unfold bind at 1, int_of_char. rewrite H. cbn.
  by rewrite slice_all_but_last.
Qed.

Lemma classes_loop_bad (e : str) (r : list str) (d : dict str Z) (w : World) :
  entry_level e = None ->
  exists err, Spells.classes_loop (e :: r) d w = (Raise err, w)
              /\ (err = IndexError \/ err = ValueError).
Proof.
  unfold entry_level. intros H.
  cbn [Spells.classes_loop]. unfold bind at 1.
  destruct (last e) as [x|] eqn:Hl.
  - rewrite (getitem_last e x w Hl). simpl in H.
    unfold bind at 1, int_of_char. rewrite H. cbn. eauto.
  - apply last_None in Hl. subst e. cbn. eauto.
Qed.

Lemma classes_loop_ok (entries : list str) (d : dict str Z) (w : World) :
  Forall ends_in_digit entries ->
  exists d',
    Spells.classes_loop entries d w = (Ok d', w)
    /\ forall cls,
         dict_get d' cls
         = match level_of_class entries cls with
           | Some n => Some n
           | None => dict_get d cls
           end.
Proof.
  revert d. induction entries as [|e r IH]; intros d Hall.
  - exists d. split; [done|]. intros cls. done.
  - apply Forall_cons in Hall as [[n Hn] Hr].
    rewrite (classes_loop_step e r d n w Hn).
    destruct (IH (dict_set d (entry_class e) n) Hr) as (d' & Hrun & Hget).
    exists d'. split; [done|]. intros cls. rewrite Hget.
    unfold level_of_class. rewrite filter_cons.
    destruct (last (filter (fun e0 => entry_class e0 = cls) r)) as [e'|] eqn:Hl.
    + assert (Hr' : Forall ends_in_digit
                      (filter (fun e0 => entry_class e0 = cls) r)).
      { apply Forall_forall. intros x Hx. apply list_elem_of_filter in Hx.
        rewrite Forall_forall in Hr. apply Hr, Hx. }
      assert (He' : ends_in_digit e').
      { rewrite Forall_forall in Hr'. apply Hr'.
        rewrite last_lookup in Hl. eapply list_elem_of_lookup_2, Hl. }
      destruct He' as [n' Hn']. simpl. rewrite Hn'.
      case_decide.
      * rewrite last_cons, Hl. simpl. by rewrite Hn'.
      * rewrite Hl. simpl. by rewrite Hn'.
    + simpl. rewrite dict_get_set. case_decide as Hc.
      * rewrite last_cons, Hl. simpl. by rewrite Hn.
      * by rewrite Hl.
Qed.

Lemma classes_loop_raises (entries : list str) (d : dict str Z) (w : World) :
  Exists (fun e => ~ ends_in_digit e) entries ->
  exists err, Spells.classes_loop entries d w = (Raise err, w)
              /\ (err = IndexError \/ err = ValueError).
Proof.
  revert d. induction entries as [|e r IH]; intros d Hex.
  - by apply Exists_nil in Hex.
  - destruct (entry_level e) as [n|] eqn:Hn.
    + rewrite (classes_loop_step e r d n w Hn). apply IH.
      apply Exists_cons in Hex as [Hbad|Hex]; [|done].
      exfalso. apply Hbad. by exists n.
    + by apply classes_loop_bad.
Qed.


(** ** A Level text, entry by entry *)

Lemma separated_cons (sep x y : str) (r : list str) :
  separated sep (x :: y :: r) = x ++ sep ++ separated sep (y :: r).
Proof. cbn [separated map concat]. by rewrite <- app_assoc. Qed.

Lemma startswith_nil (s : str) : startswith s [] = true.
Proof. by destruct s. Qed.

Lemma split_without_comma (c : char) (x : str) :
  c ∉ x -> split_from [c] 0 x = [x].
Proof.
  induction x as [|a t IH]; intros Hx; [done|].
  apply not_elem_of_cons in Hx as [Ha Ht].
  cbn [split_from startswith]. unfold char_eqb.
  rewrite (proj2 (N.eqb_neq a c)) by congruence. cbn [andb].
  by rewrite IH.
Qed.

Lemma split_at_comma (c : char) (x rest : str) :
  c ∉ x ->
  split_from [c] 0 (x ++ c :: rest) = x :: split_from [c] 0 rest.
Proof.
  induction x as [|a t IH]; intros Hx.
  - cbn [app split_from startswith]. unfold char_eqb.
    rewrite N.eqb_refl, startswith_nil. reflexivity.
  - apply not_elem_of_cons in Hx as [Ha Ht].
    cbn [app split_from startswith]. unfold char_eqb.
    rewrite (proj2 (N.eqb_neq a c)) by congruence. cbn [andb].
    by rewrite IH.
Qed.

Lemma split_separated (c : char) (l : list str) :
  l <> [] -> Forall (fun x => c ∉ x) l ->
  split (separated [c] l) [c] = l.
Proof.
  unfold split. intros Hl Hall. destruct l as [|x l]; [done|]. clear Hl.
  revert x Hall. induction l as [|y l IH]; intros x Hall.
  - apply Forall_cons in Hall as [Hx _]. cbn [separated map concat].
    rewrite app_nil_r. by apply split_without_comma.
  - apply Forall_cons in Hall as [Hx Hall]. rewrite separated_cons.
    cbn [app]. rewrite split_at_comma by done. by rewrite IH.
Qed.

Lemma lstrip_by_blanks (p : char -> bool) (l s : str) :
  Forall (fun c => p c = true) l -> lstrip_by p (l ++ s) = lstrip_by p s.
Proof.
  induction 1 as [|c l Hc Hl IH]; [done|]. cbn [app lstrip_by].
  by rewrite Hc.
Qed.

Lemma lstrip_by_head (p : char -> bool) (s : str) :
  match s with [] => True | c :: _ => p c = false end ->
  lstrip_by p s = s.
Proof. destruct s as [|c t]; [done|]. cbn [lstrip_by]. by intros ->. Qed.

Lemma strip_by_trimmed (p : char -> bool) (lead name trail : str) :
  Forall (fun c => p c = true) lead ->
  Forall (fun c => p c = true) trail ->
  match name with [] => True | c :: _ => p c = false end ->
  match last name with Some c => p c = false | None => True end ->
  strip_by p (lead ++ name ++ trail) = name.
Proof.
  intros Hlead Htrail Hhead Hlast. unfold strip_by, rstrip_by.
  rewrite lstrip_by_blanks by done.
  destruct name as [|c n].
  - cbn [app]. rewrite <- (app_nil_r trail), lstrip_by_blanks by done.
    reflexivity.
  - rewrite (lstrip_by_head p ((c :: n) ++ trail)) by exact Hhead.
    rewrite rev_app_distr, lstrip_by_blanks.
    2:{ apply Forall_forall. intros x Hx. rewrite Forall_forall in Htrail.
        apply Htrail. apply list_elem_of_In. apply list_elem_of_In in Hx.
        by apply in_rev. }
    destruct (last (c :: n)) as [x|] eqn:E.
    + apply last_Some in E as [l' E]. rewrite E in *.
      rewrite rev_unit. cbn [lstrip_by]. rewrite Hlast.
      by rewrite <- rev_unit, rev_involutive.
    + by apply last_None in E.
Qed.

Lemma digit_value_of_digit (c : char) (n : Z) :
  decimal_digit c n -> digit_value c = Some n.
Proof.
  intros (zero & Hzero & Hn & ->).
  assert (H : Forall (fun z =>
                Forall (fun k => digit_value (z + N.of_nat k)
                                 = Some (Z.of_nat k)) (seq 0 10))
              decimal_zeros)
    by (apply (bool_decide_unpack _); vm_compute; exact I).
  rewrite Forall_forall in H. specialize (H zero Hzero).
  rewrite Forall_forall in H. specialize (H (Z.to_nat n)).
  replace (N.of_nat (Z.to_nat n)) with (Z.to_N n) in H by lia.
  replace (Z.of_nat (Z.to_nat n)) with n in H by lia.
  apply H. apply elem_of_seq. lia.
Qed.

Lemma digit_of_digit_value (c : char) (n : Z) :
  digit_value c = Some n -> decimal_digit c n.
Proof.
  unfold digit_value.
  destruct (List.find (fun z => N.leb z c && N.leb c (z + 9))
              decimal_zeros) as [z|] eqn:E; [|discriminate].
  intros [= <-]. apply find_some in E as [Hin Htest].
  apply andb_true_iff in Htest as [H1 H2].
  apply N.leb_le in H1, H2.
  exists z. split; [by apply list_elem_of_In|]. lia.
Qed.

Lemma entry_class_of_text (e : level_entry) :
  well_formed e -> entry_class (le_text e) = le_name e.
Proof.
  intros (Hlead & [Hhead Hlast] & Htrail & _ & _).
  unfold entry_class, le_text, strip.
  rewrite !app_assoc, removelast_last, <- !app_assoc.
  by apply strip_by_trimmed.
Qed.

Lemma entry_level_of_text (e : level_entry) :
  well_formed e -> entry_level (le_text e) = Some (le_level e).
Proof.
  intros (_ & _ & _ & _ & Hdigit).
  unfold entry_level, le_text. rewrite !app_assoc, last_snoc.
  by apply digit_value_of_digit.
Qed.

Lemma filter_entry_texts (entries : list level_entry) (cls : str) :
  Forall well_formed entries ->
  filter (fun e => entry_class e = cls) (map le_text entries)
  = map le_text (filter (fun e => le_name e = cls) entries).
Proof.
  induction 1 as [|e l He Hl IH]; [done|].
  cbn [map]. rewrite !filter_cons, (entry_class_of_text e He).
  destruct (decide (le_name e = cls)); cbn [map]; by rewrite IH.
Qed.

Lemma level_of_class_listed (entries : list level_entry) (cls : str) :
  Forall well_formed entries ->
  level_of_class (map le_text entries) cls = listed_level entries cls.
Proof.
  intros Hwf. unfold level_of_class, listed_level.
  rewrite filter_entry_texts by done.
  change (map le_text) with (fmap (M:=list) le_text). rewrite fmap_last.
  destruct (last (filter (fun e => le_name e = cls) entries))
    as [e|] eqn:E; [|done].
  cbn. apply entry_level_of_text.
  rewrite Forall_forall in Hwf. apply Hwf.
  rewrite last_lookup in E. apply list_elem_of_lookup_2 in E.
  by apply list_elem_of_filter in E as [_ E].
Qed.

Lemma ends_in_digit_spec (it : str) :
  ends_in_digit it -> ends_in_decimal_digit it.
Proof.
  intros [n Hn]. unfold entry_level in Hn.
  destruct (last it) as [c|] eqn:E; [|discriminate].
  apply last_Some in E as [p ->]. cbn in Hn.
  exists p, c, n. split; [done|]. by apply digit_of_digit_value.
Qed.

(** C8.  When the Level label is present and the text after it is a list
    of entries separated by commas, each made of blanks, a class name,
    blanks and one final decimal digit, the result maps each class name to
    the value of that digit alone (the last entry of a class wins).  If
    some entry of a comma-separated text does not end in a decimal digit,
    the extraction raises instead of giving a not-found result.  A level
    of two digits is cut to its last digit: [wizard 12] gives level 2 to
    the class [wizard 1]. *)
Theorem classes_read_one_trailing_digit
    (span tag : node) (sibs : list node) (w : World) :
  Spells.find_label span "Level" = Some (tag, sibs) ->
  (forall entries,
     entries <> [] -> Forall well_formed entries ->
     str_of_next_sibling sibs = separated (py ",") (map le_text entries) ->
     exists d,
       Spells._classes_from_span span w = (Ok (Some d), w)
       /\ forall cls, dict_get d cls = listed_level entries cls)
  /\ (forall items,
        items <> [] -> Forall (fun it => chr "," ∉ it) items ->
        str_of_next_sibling sibs = separated (py ",") items ->
        Exists (fun it => ~ ends_in_decimal_digit it) items ->
        exists err,
          Spells._classes_from_span span w = (Raise err, w)
          /\ (err = IndexError \/ err = ValueError))
  /\ Spells._classes_from_span two_digit_level w
     = (Ok (Some [(py "cleric", 3%Z); (py "wizard 1", 2%Z)]), w).
Proof.
  intros Hfind.
  assert (Hrun : Spells._classes_from_span span w
                 = match Spells.classes_loop
                           (split (str_of_next_sibling sibs) (py ",")) [] w
                   with
                   | (Ok d, w') => (Ok (Some d), w')
                   | (Raise e, w') => (Raise e, w')
                   end).
  { unfold Spells._classes_from_span, Spells._get_text_from_simple_tag.
    rewrite Hfind. unfold bind, ret.
    by destruct (Spells.classes_loop _ [] w) as [[?|?] ?]. }
  split; [|split].
  - intros entries Hne Hwf Htext.
    assert (Hsplit : split (str_of_next_sibling sibs) (py ",")
                     = map le_text entries).
    { rewrite Htext. apply (split_separated (chr ",")).
      - by destruct entries.
      - apply Forall_fmap. eapply Forall_impl; [exact Hwf|].
        by intros e (_ & _ & _ & He & _). }
    assert (Hall : Forall ends_in_digit (map le_text entries)).
    { apply Forall_fmap. eapply Forall_impl; [exact Hwf|].
      intros e He. exists (le_level e). by apply entry_level_of_text. }
    destruct (classes_loop_ok _ [] w Hall) as (d & Hd & Hget).
    exists d. rewrite Hrun, Hsplit, Hd. split; [done|].
    intros cls. rewrite Hget, level_of_class_listed by done.
    by destruct (listed_level entries cls).
  - intros items Hne Hcommas Htext Hbad.
    assert (Hsplit : split (str_of_next_sibling sibs) (py ",") = items).
    { rewrite Htext. by apply (split_separated (chr ",")). }
    assert (Hex : Exists (fun e => ~ ends_in_digit e) items).
    { eapply Exists_impl; [exact Hbad|].
      intros it Hit Hd. by apply Hit, ends_in_digit_spec. }
    destruct (classes_loop_raises items [] w Hex) as (err & He & Herr).
    exists err. by rewrite Hrun, Hsplit, He.
  - vm_compute. reflexivity.
Qed.

(** ** The source of a record *)

Lemma slice_prefix {A} (l r : list A) :
  slice (l ++ r) None (Some (Z.of_nat (length l))) = l.
Proof.
  unfold slice, slice_bound.
  destruct (Z.ltb_spec (Z.of_nat (length l)) 0); [lia|].
  rewrite length_app.
  replace (Z.max 0 (Z.min (Z.of_nat (length l + length r))
                          (Z.of_nat (length l))))
    with (Z.of_nat (length l)) by lia.
  rewrite Z.sub_0_r, Nat2Z.id. change (Z.to_nat 0) with 0%nat.
  rewrite skipn_O. apply take_app_length.
Qed.

Lemma cut_page_reference (source name : str) :
  has_page_reference source name ->
  slice source None (Some (find source (py " pg. "))) = name.
Proof.
  intros [[page ->] Hfind]. rewrite Hfind. apply slice_prefix.
Qed.

Lemma spells_source_core (span tag : node) (sibs : list node)
    (first : str) (rest : list str) (w : World) :
  Spells.find_label span "Source" = Some (tag, sibs) ->
  Spells.sources_raw_of sibs = first :: rest ->
  contains (py "PRPG Core Rulebook") (concat (first :: rest)) = true ->
  Spells._source_from_span span w = (Ok (Some (py "PF Core")), w).
Proof.
  intros Hf Hs Hc. unfold Spells._source_from_span.
  by rewrite Hf, Hs, Hc.
Qed.

Lemma spells_source_first (span tag : node) (sibs : list node)
    (first name : str) (rest : list str) (w : World) :
  Spells.find_label span "Source" = Some (tag, sibs) ->
  Spells.sources_raw_of sibs = first :: rest ->
  contains (py "PRPG Core Rulebook") (concat (first :: rest)) = false ->
  has_page_reference first name ->
  Spells._source_from_span span w
  = (let* a := abbreviate name in ret (Some a)) w.
Proof.
  intros Hf Hs Hc Hp. unfold Spells._source_from_span.
  rewrite Hf, Hs, Hc. by rewrite (cut_page_reference first name Hp).
Qed.

Lemma find_from_range (sub s : str) (i : Z) :
  find_from sub i s = (-1)%Z \/ (i <= find_from sub i s)%Z.
Proof.
  revert i. induction s as [|c s IH]; intros i; cbn [find_from].
  - destruct (startswith [] sub); [right; lia | by left].
  - destruct (startswith (c :: s) sub); [right; lia|].
    destruct (IH (i + 1)%Z); [by left | right; lia].
Qed.

Lemma find_found_nonneg (s sub : str) :
  find s sub <> (-1)%Z -> (0 <= find s sub)%Z.
Proof. intros H. by destruct (find_from_range sub s 0). Qed.

Lemma items_source_guards (span : node) :
  find (text span) (py "Source ") <> (-1)%Z ->
  find (text span) (py "Aura") <> (-1)%Z ->
  (find (text span) (py "Source ") + 7 <? 7)%Z = false
  /\ (find (text span) (py "Aura") =? -1)%Z = false.
Proof.
  intros Hs Ha. apply find_found_nonneg in Hs.
  split; [apply Z.ltb_ge; lia | by apply Z.eqb_neq].
Qed.

Lemma items_source_core (span : node) (w : World) :
  find (text span) (py "Source ") <> (-1)%Z ->
  find (text span) (py "Aura") <> (-1)%Z ->
  contains (py "PRPG Core Rulebook") (item_source_listing span) = true ->
  Items._source_from_span span w = (Ok (Some (py "PF Core")), w).
Proof.
  intros Hs Ha Hc. unfold Items._source_from_span.
  destruct (items_source_guards span Hs Ha) as [-> ->].
  unfold item_source_listing in Hc. by rewrite Hc.
Qed.

Lemma items_source_last (span : node) (source name : str) (w : World) :
  find (text span) (py "Source ") <> (-1)%Z ->
  find (text span) (py "Aura") <> (-1)%Z ->
  contains (py "PRPG Core Rulebook") (item_source_listing span) = false ->
  last (split (item_source_listing span) (py ", ")) = Some source ->
  has_page_reference source name ->
  Items._source_from_span span w
  = (let* a := abbreviate name in ret (Some a)) w.
Proof.
  intros Hs Ha Hc Hl Hp. unfold Items._source_from_span.
  destruct (items_source_guards span Hs Ha) as [-> ->].
  unfold item_source_listing in Hc, Hl. rewrite Hc.
  unfold bind at 1. rewrite (getitem_last _ source w Hl).
  by rewrite (cut_page_reference source name Hp).
Qed.

(** ** The split of the construction requirements *)

Lemma slice_between {A} (l : list A) (a b : nat) :
  (a <= b)%nat -> (b <= length l)%nat ->
  slice l (Some (Z.of_nat a)) (Some (Z.of_nat b)) = take (b - a) (drop a l).
Proof.
  intros Hab Hb. unfold slice, slice_bound.
  destruct (Z.ltb_spec (Z.of_nat a) 0); [lia|].
  destruct (Z.ltb_spec (Z.of_nat b) 0); [lia|].
  replace (Z.max 0 (Z.min (Z.of_nat (length l)) (Z.of_nat a)))
    with (Z.of_nat a) by lia.
  replace (Z.max 0 (Z.min (Z.of_nat (length l)) (Z.of_nat b)))
    with (Z.of_nat b) by lia.
  by rewrite <- Nat2Z.inj_sub, !Nat2Z.id by lia.
Qed.
















(** ** The level summary: counting *)

Lemma cnt_counter_add (c : dict Z nat) (L L' : Z) :
  cnt (Spells.counter_add c L) L'
  = (cnt c L' + if decide (L = L') then 1 else 0)%nat.
Proof.
  unfold cnt. induction c as [|[k n] c IH]; simpl.
  - repeat case_decide; simpl; try congruence; lia.
  - destruct (Z.eqb_spec k L) as [->|Hk]; simpl.
    + repeat case_decide; simpl; try congruence; lia.
    + repeat case_decide; simpl; try congruence; try lia.
      all: rewrite IH; try rewrite decide_True by done;
        try rewrite decide_False by done; lia.
Qed.

Lemma keys_counter_add (c : dict Z nat) (L : Z) :
  map fst (Spells.counter_add c L)
  = if bool_decide (L ∈ map fst c) then map fst c else map fst c ++ [L].
Proof.
  induction c as [|[k n] c IH]; simpl; [done|].
  destruct (Z.eqb_spec k L) as [->|Hk]; simpl.
  - rewrite bool_decide_eq_true_2; [done | constructor].
  - rewrite IH. destruct (bool_decide (L ∈ map fst c)) eqn:E.
    + apply bool_decide_eq_true in E.
      rewrite bool_decide_eq_true_2; [done | by constructor].
    + apply bool_decide_eq_false in E.
      rewrite bool_decide_eq_false_2; [done|].
      intros [?|?]%elem_of_cons; congruence.
Qed.

Lemma sum_counter_add (c : dict Z nat) (L : Z) :
  list_sum (map snd (Spells.counter_add c L)) = S (list_sum (map snd c)).
Proof.
  induction c as [|[k n] c IH]; simpl; [done|].
  destruct (Z.eqb k L); simpl; [done|]. rewrite IH. lia.
Qed.

Lemma positive_counter_add (c : dict Z nat) (L : Z) :
  Forall (fun kn => 0 < snd kn)%nat c ->
  Forall (fun kn => 0 < snd kn)%nat (Spells.counter_add c L).
Proof.
  induction 1 as [|[k n] c Hk Hc IH]; simpl.
  - repeat constructor.
  - destruct (Z.eqb k L); constructor; simpl in *; try done; lia.
Qed.

(** What [Counter] holds after counting [values] on top of [c]. *)
Lemma counter_fold (values : list Z) (c : dict Z nat) :
  NoDup (map fst c) ->
  Forall (fun kn => 0 < snd kn)%nat c ->
  let c' := fold_left Spells.counter_add values c in
  NoDup (map fst c')
  /\ Forall (fun kn => 0 < snd kn)%nat c'
  /\ (forall L, cnt c' L
                = (cnt c L + length (filter (fun v => v = L) values))%nat)
  /\ (forall L, L ∈ map fst c' <-> L ∈ map fst c \/ L ∈ values)
  /\ list_sum (map snd c') = (list_sum (map snd c) + length values)%nat.
Proof.
  revert c. induction values as [|v values IH]; intros c Hnd Hpos; simpl.
  - split; [done|]. split; [done|]. split; [intros; lia|].
    split; [|lia]. intros L. rewrite elem_of_nil. tauto.
  - assert (Hnd' : NoDup (map fst (Spells.counter_add c v))).
    { rewrite keys_counter_add. case_bool_decide as Hv; [done|].
      apply NoDup_app. split; [done|]. split; [|apply NoDup_singleton].
      intros x Hx ->%list_elem_of_singleton. done. }
    destruct (IH _ Hnd' (positive_counter_add c v Hpos))
      as (H1 & H2 & H3 & H4 & H5).
    split; [done|]. split; [done|]. split; [|split].
    + intros L. rewrite H3, cnt_counter_add, filter_cons.
      repeat case_decide; simpl; try congruence; lia.
    + intros L. rewrite H4, keys_counter_add, elem_of_cons.
      case_bool_decide as Hv.
      * split; [intros [?|?]; auto | intros [?|[->|?]]; auto].
      * rewrite elem_of_app, list_elem_of_singleton.
        split; [intros [[?|?]|?]; auto | intros [?|[->|?]]; auto].
    + rewrite H5, sum_counter_add. lia.
Qed.

Lemma cnt_lookup (c : dict Z nat) (L : Z) (n : nat) :
  NoDup (map fst c) -> (L, n) ∈ c -> cnt c L = n.
Proof.
  unfold cnt. induction c as [|[k m] c IH]; intros Hnd Hin.
  - by apply elem_of_nil in Hin.
  - apply NoDup_cons in Hnd as [Hk Hnd]. simpl.
    apply elem_of_cons in Hin as [[= -> ->]|Hin].
    + by rewrite decide_True.
    + rewrite decide_False; [by apply IH|].
      intros ->. apply Hk. apply list_elem_of_fmap. by exists (L, n).
Qed.

Lemma count_at_values (classes : dict str Z) (L : Z) :
  count_at classes L = length (filter (fun v => v = L) (map snd classes)).
Proof.
  unfold count_at. induction classes as [|[k v] cl IH]; [done|].
  cbn. destruct (decide (v = L)); cbn; [f_equal|]; exact IH.
Qed.

(** [Counter] on the levels of [classes]. *)
Lemma Counter_spec (classes : dict str Z) :
  let c := Spells.Counter (map snd classes) in
  NoDup (map fst c)
  /\ (forall L n, (L, n) ∈ c -> n = count_at classes L /\ (0 < n)%nat)
  /\ (forall L, L ∈ map fst c <-> L ∈ map snd classes)
  /\ list_sum (map snd c) = length classes.
Proof.
  intros c. subst c. unfold Spells.Counter.
  destruct (counter_fold (map snd classes) [] (NoDup_nil_2) (Forall_nil_2 _))
    as (H1 & H2 & H3 & H4 & H5).
  set (c := fold_left Spells.counter_add (map snd classes) []) in *.
  split; [done|]. split; [|split].
  - intros L n Hin. split.
    + rewrite count_at_values.
      rewrite <- (cnt_lookup c L n H1 Hin), H3. done.
    + rewrite Forall_forall in H2. apply (H2 _ Hin).
  - intros L. rewrite H4. simpl. rewrite elem_of_nil. tauto.
  - rewrite H5, length_map. done.
Qed.

(** ** The level summary: sorting *)

Lemma insert_by_count_perm (x : Z * nat) (l : list (Z * nat)) :
  Permutation (Spells.insert_by_count x l) (x :: l).
Proof.
  induction l as [|y l IH]; simpl; [done|].
  destruct (Nat.ltb (snd x) (snd y)); [|done].
  rewrite IH. apply perm_swap.
Qed.

Lemma most_common_perm (c : dict Z nat) :
  Permutation (Spells.most_common c) c.
Proof.
  unfold Spells.most_common. induction c as [|x c IH]; simpl; [done|].
  rewrite insert_by_count_perm. by constructor.
Qed.

Lemma insert_by_count_hd (a x : Z * nat) (l : list (Z * nat)) :
  more_common a x -> HdRel more_common a l ->
  HdRel more_common a (Spells.insert_by_count x l).
Proof.
  intros Hax Hal. destruct l as [|y l]; simpl; [by constructor|].
  destruct (Nat.ltb (snd x) (snd y)); constructor; [|done].
  by inversion Hal.
Qed.

Lemma insert_by_count_sorted (x : Z * nat) (l : list (Z * nat)) :
  Sorted more_common l -> Sorted more_common (Spells.insert_by_count x l).
Proof.
  induction 1 as [|y l Hl IH Hy]; simpl; [repeat constructor|].
  destruct (Nat.ltb_spec (snd x) (snd y)).
  - constructor; [done|]. apply insert_by_count_hd; [|done].
    unfold more_common. lia.
  - constructor; [by constructor|]. constructor. unfold more_common. lia.
Qed.

Lemma most_common_sorted (c : dict Z nat) :
  StronglySorted more_common (Spells.most_common c).
Proof.
  apply Sorted_StronglySorted.
  - intros x y z. unfold more_common. lia.
  - unfold Spells.most_common. induction c as [|x c IH]; simpl.
    + constructor.
    + by apply insert_by_count_sorted.
Qed.

Lemma str_ltb_asym (a b : str) :
  Spells.str_ltb a b = true -> Spells.str_ltb b a = false.
Proof.
  revert b. induction a as [|x a IH]; intros [|y b]; simpl; try done.
  destruct (N.ltb_spec x y), (N.ltb_spec y x); try done; try lia.
  apply IH.
Qed.

Lemma insert_sorted_perm (x : str) (l : list str) :
  Permutation (Spells.insert_sorted x l) (x :: l).
Proof.
  induction l as [|y l IH]; simpl; [done|].
  destruct (Spells.str_ltb y x); [|done].
  rewrite IH. apply perm_swap.
Qed.

Lemma sorted_perm (l : list str) : Permutation (Spells.sorted l) l.
Proof.
  unfold Spells.sorted. induction l as [|x l IH]; simpl; [done|].
  rewrite insert_sorted_perm. by constructor.
Qed.

Lemma insert_sorted_hd (a x : str) (l : list str) :
  str_le a x -> HdRel str_le a l ->
  HdRel str_le a (Spells.insert_sorted x l).
Proof.
  intros Hax Hal. destruct l as [|y l]; simpl; [by constructor|].
  destruct (Spells.str_ltb y x); constructor; [|done].
  by inversion Hal.
Qed.

Lemma insert_sorted_sorted (x : str) (l : list str) :
  Sorted str_le l -> Sorted str_le (Spells.insert_sorted x l).
Proof.
  induction 1 as [|y l Hl IH Hy]; simpl; [repeat constructor|].
  destruct (Spells.str_ltb y x) eqn:E.
  - constructor; [done|]. apply insert_sorted_hd; [|done].
    by apply str_ltb_asym.
  - constructor; [by constructor|]. by constructor.
Qed.

Lemma sorted_sorted (l : list str) : Sorted str_le (Spells.sorted l).
Proof.
  unfold Spells.sorted. induction l as [|x l IH]; simpl.
  - constructor.
  - by apply insert_sorted_sorted.
Qed.

(** ** The level summary: the groups *)

Lemma abbreviate_runs (name : str) (w : World) :
  exists w',
    abbreviate name w = (Ok (abbreviation_of (abbreviations w) name), w')
    /\ abbreviations w' = abbreviations w
    /\ exists log, warnings w' = warnings w ++ log.
Proof.
  unfold abbreviate, try_except, abbreviations_getitem, abbreviation_of.
  destruct (abbreviations w !! name) as [code|] eqn:E.
  - exists w. split; [done|]. split; [done|]. exists []. by rewrite app_nil_r.
  - rewrite bool_decide_eq_true_2 by done. cbn.
    eexists. split; [reflexivity|]. split; [done|]. by eexists.
Qed.

Lemma dict_get_NoDup {V} (d : dict str V) (k : str) (v : V) :
  NoDup (map fst d) -> (k, v) ∈ d -> dict_get d k = Some v.
Proof.
  induction d as [|[k0 v0] d IH]; intros Hnd Hin.
  - by apply elem_of_nil in Hin.
  - apply NoDup_cons in Hnd as [Hk Hnd]. simpl.
    apply elem_of_cons in Hin as [[= -> ->]|Hin].
    + by rewrite decide_True.
    + rewrite decide_False; [by apply IH|].
      intros ->. apply Hk. apply list_elem_of_fmap. by exists (k, v).
Qed.

Lemma class_list_at_runs (classes kvs : dict str Z) (L : Z) (w : World) :
  (forall kv, kv ∈ kvs -> dict_get classes (fst kv) = Some (snd kv)) ->
  exists w',
    Spells.class_list_at classes (map fst kvs) L w
    = (Ok (map (fun kv => abbreviation_of (abbreviations w) (fst kv))
               (filter (fun kv => snd kv = L) kvs)), w')
    /\ abbreviations w' = abbreviations w.
Proof.
  revert w. induction kvs as [|[k v] kvs IH]; intros w Hget.
  - by exists w.
  - cbn [map fst Spells.class_list_at].
    pose proof (Hget (k, v) ltac:(constructor)) as Hhere. cbn in Hhere.
    rewrite Hhere.
    assert (Hget' : forall kv, kv ∈ kvs
                      -> dict_get classes (fst kv) = Some (snd kv)).
    { intros kv Hkv. apply Hget. by constructor. }
    destruct (Z.eqb_spec v L) as [->|Hv].
    + destruct (abbreviate_runs k w) as (w1 & Ha & Ht & _).
      destruct (IH w1 Hget') as (w2 & Hr & Ht2).
      exists w2. unfold bind. rewrite Ha, Hr. rewrite Ht.
      split; [|congruence].
      cbn. rewrite decide_True by done. done.
    + destruct (IH w Hget') as (w2 & Hr & Ht2).
      exists w2. rewrite Hr. split; [|done].
      cbn. rewrite decide_False by done. done.
Qed.

Lemma level_group_runs (classes : dict str Z) (L : Z) (w : World) :
  NoDup (map fst classes) ->
  exists g w',
    Spells.level_group classes L w = (Ok g, w')
    /\ abbreviations w' = abbreviations w
    /\ is_group_of (abbreviations w) classes L g.
Proof.
  intros Hnd. unfold Spells.level_group.
  destruct (class_list_at_runs classes classes L w) as (w' & Hr & Ht).
  { intros [k v] Hkv. by apply dict_get_NoDup. }
  eexists _, w'. unfold bind. rewrite Hr. split; [reflexivity|].
  split; [done|]. eexists. split; [apply sorted_perm|].
  split; [apply sorted_sorted | done].
Qed.

Lemma level_groups_run (classes : dict str Z) (levels : list Z) (w : World) :
  NoDup (map fst classes) ->
  exists gs w',
    mapM (Spells.level_group classes) levels w = (Ok gs, w')
    /\ abbreviations w' = abbreviations w
    /\ Forall2 (is_group_of (abbreviations w) classes) levels gs.
Proof.
  intros Hnd. revert w. induction levels as [|L levels IH]; intros w.
  - exists [], w. split; [done|]. split; [done|]. constructor.
  - destruct (level_group_runs classes L w Hnd) as (g & w1 & Hg & Ht & Hspec).
    destruct (IH w1) as (gs & w2 & Hgs & Ht2 & Hall).
    exists (g :: gs), w2. cbn [mapM]. unfold bind. rewrite Hg, Hgs.
    split; [done|]. split; [congruence|].
    constructor; [done|]. by rewrite <- Ht.
Qed.

(** ** The sources that a page lists *)

Lemma startswith_spec (s p : str) :
  startswith s p = true <-> exists b, s = p ++ b.
Proof.
  revert s. induction p as [|c p IH]; intros s.
  - rewrite startswith_nil. split; [by exists s | done].
  - destruct s as [|x s]; cbn [startswith].
    + split; [done | by intros [b Hb]].
    + rewrite andb_true_iff, IH. unfold char_eqb. rewrite N.eqb_eq. split.
      * intros [-> [b ->]]. by exists b.
      * intros [b [= -> ->]]. split; [done | by exists b].
Qed.

Lemma first_at_tail (sub a b : str) (c : char) :
  first_at sub (c :: a ++ sub ++ b) (c :: a) ->
  first_at sub (a ++ sub ++ b) a.
Proof.
  intros [_ Hmin]. split; [by exists b|].
  intros a' b' E. specialize (Hmin (c :: a') b'). cbn in Hmin.
  rewrite E in Hmin. specialize (Hmin eq_refl). lia.
Qed.

Lemma first_at_not_head (sub a b : str) (c : char) :
  first_at sub (c :: a ++ sub ++ b) (c :: a) ->
  startswith (c :: a ++ sub ++ b) sub = false.
Proof.
  intros [_ Hmin]. apply not_true_is_false. intros H.
  apply startswith_spec in H as [b' H].
  specialize (Hmin [] b' H). cbn in Hmin. lia.
Qed.

Lemma first_at_app (sub s a : str) :
  first_at sub s a ->
  exists b, s = a ++ sub ++ b /\ first_at sub (a ++ sub ++ b) a.
Proof.
  intros H. destruct H as [[b ->] Hmin]. exists b. split; [done|].
  split; [by exists b | done].
Qed.

Lemma find_from_first (sub a b : str) (i : Z) :
  first_at sub (a ++ sub ++ b) a ->
  find_from sub i (a ++ sub ++ b) = (i + Z.of_nat (length a))%Z.
Proof.
  revert i. induction a as [|c a IH]; intros i H.
  - cbn [app length]. replace (startswith (sub ++ b) sub) with true
      in * by (symmetry; apply startswith_spec; by exists b).
    destruct (sub ++ b) eqn:E; cbn [find_from];
      (replace (startswith _ sub) with true
         by (symmetry; apply startswith_spec; exists b; by rewrite <- E));
      lia.
  - cbn [app find_from]. rewrite (first_at_not_head sub a b c H).
    rewrite IH by (by eapply first_at_tail). cbn [length]. lia.
Qed.

Lemma find_first (sub s a : str) :
  first_at sub s a -> find s sub = Z.of_nat (length a).
Proof.
  intros H. destruct (first_at_app _ _ _ H) as (b & -> & H').
  unfold find. by rewrite find_from_first.
Qed.

Lemma find_from_bound (sub a b : str) (i : Z) :
  (i <= find_from sub i (a ++ sub ++ b) <= i + Z.of_nat (length a))%Z.
Proof.
  revert i. induction a as [|c a IH]; intros i.
  - cbn [app length].
    assert (H : startswith (sub ++ b) sub = true)
      by (apply startswith_spec; by exists b).
    destruct (sub ++ b); cbn [find_from]; rewrite H; lia.
  - cbn [app find_from length].
    destruct (startswith _ sub); [lia|]. specialize (IH (i + 1)%Z). lia.
Qed.

Lemma find_from_absent (sub s : str) (i : Z) :
  ~ occurs sub s -> find_from sub i s = (-1)%Z.
Proof.
  revert i. induction s as [|c s IH]; intros i H.
  - cbn [find_from]. destruct (startswith [] sub) eqn:E; [|done].
    apply startswith_spec in E as [b E]. destruct H. by exists [], b.
  - cbn [find_from]. destruct (startswith (c :: s) sub) eqn:E.
    + apply startswith_spec in E as [b E]. destruct H. by exists [], b.
    + apply IH. intros (a & b & ->). apply H. by exists (c :: a), b.
Qed.

Lemma find_from_present (sub s : str) (i : Z) :
  find_from sub i s = (-1)%Z \/ occurs sub s.
Proof.
  revert i. induction s as [|c s IH]; intros i; cbn [find_from].
  - destruct (startswith [] sub) eqn:E; [right|by left].
    apply startswith_spec in E as [b E]. by exists [], b.
  - destruct (startswith (c :: s) sub) eqn:E.
    + right. apply startswith_spec in E as [b E]. by exists [], b.
    + destruct (IH (i + 1)%Z) as [H|(a & b & ->)]; [by left|right].
      by exists (c :: a), b.
Qed.

Lemma contains_occurs (sub s : str) :
  contains sub s = true <-> occurs sub s.
Proof.
  unfold contains, find. split.
  - intros H. destruct (find_from_present sub s 0) as [E|E]; [|done].
    rewrite E in H. discriminate H.
  - intros (a & b & ->). pose proof (find_from_bound sub a b 0).
    apply negb_true_iff, Z.eqb_neq. lia.
Qed.

Lemma contains_absent (sub s : str) :
  ~ occurs sub s -> contains sub s = false.
Proof.
  intros H. apply not_true_is_false. by rewrite contains_occurs.
Qed.

(** The first occurrence, by computation. *)
Lemma first_at_by_find (sub a b : str) :
  find (a ++ sub ++ b) sub = Z.of_nat (length a) ->
  first_at sub (a ++ sub ++ b) a.
Proof.
  intros H. split; [by exists b|]. intros a' b' E.
  pose proof (find_from_bound sub a' b' 0) as Hb.
  rewrite <- E in Hb. unfold find in H. lia.
Qed.

Lemma absent_by_find (sub s : str) :
  find s sub = (-1)%Z -> ~ occurs sub s.
Proof.
  intros H Hocc. apply contains_occurs in Hocc.
  unfold contains in Hocc. rewrite H in Hocc. discriminate Hocc.
Qed.

Lemma has_page_reference_first (source name : str) :
  without_page source name -> has_page_reference source name.
Proof.
  intros H. split; [exact (proj1 H) | by apply find_first].
Qed.

(** *** Splitting a listing *)

Lemma split_from_skip (sep u b : str) :
  split_from sep (length u) (u ++ b) = split_from sep 0 b.
Proof. induction u as [|c u IH]; [done | exact IH]. Qed.

Lemma split_from_absent (sep x : str) :
  ~ occurs sep x -> split_from sep 0 x = [x].
Proof.
  induction x as [|c x IH]; intros H; [done|].
  cbn [split_from]. destruct (startswith (c :: x) sep) eqn:E.
  - apply startswith_spec in E as [b E]. destruct H. by exists [], b.
  - rewrite IH; [done|]. intros (a & b & ->). apply H. by exists (c :: a), b.
Qed.

Lemma split_from_first (sep x rest : str) :
  sep <> [] -> first_at sep (x ++ sep ++ rest) x ->
  split_from sep 0 (x ++ sep ++ rest) = x :: split_from sep 0 rest.
Proof.
  intros Hsep. induction x as [|c x IH]; intros H.
  - destruct sep as [|s sep]; [done|]. cbn [app split_from].
    replace (startswith (s :: sep ++ rest) (s :: sep)) with true
      by (symmetry; apply startswith_spec; by exists rest).
    replace (length (s :: sep) - 1)%nat with (length sep)
      by (cbn [length]; lia).
    by rewrite split_from_skip.
  - cbn [app split_from]. rewrite (first_at_not_head sep x rest c H).
    by rewrite IH by (by eapply first_at_tail).
Qed.

Lemma comma_blank_first (x rest : str) :
  ~ occurs (py ", ") x -> first_at (py ", ") (x ++ py ", " ++ rest) x.
Proof.
  intros Hx. split; [by exists rest|].
  induction x as [|c x IH]; intros a' b' E; [cbn; lia|].
  destruct a' as [|c' a'].
  - exfalso. cbn in E. injection E as -> E.
    destruct x as [|d x]; [discriminate E|].
    injection E as -> E. apply Hx. by exists [], x.
  - cbn in E. injection E as <- E. cbn [length].
    apply le_n_S, (IH ltac:(intros (a & b & ->); apply Hx;
                            by exists (c :: a), b) a' b' E).
Qed.

Lemma split_listing (sources : list str) :
  sources <> [] -> Forall (fun s => ~ occurs (py ", ") s) sources ->
  split (separated (py ", ") sources) (py ", ") = sources.
Proof.
  unfold split. intros Hne Hall. destruct sources as [|x l]; [done|].
  clear Hne. revert x Hall. induction l as [|y l IH]; intros x Hall.
  - apply Forall_cons in Hall as [Hx _]. cbn [separated map concat].
    rewrite app_nil_r. by apply split_from_absent.
  - apply Forall_cons in Hall as [Hx Hall]. rewrite separated_cons.
    rewrite split_from_first; [|done|by apply comma_blank_first].
    by rewrite IH.
Qed.

Lemma occurs_in_separated (sub sep : str) (l : list str) :
  Exists (occurs sub) l -> occurs sub (separated sep l).
Proof.
  destruct l as [|x l]; [by intros ?%Exists_nil|]. revert x.
  induction l as [|y l IH]; intros x.
  - intros [H|H]%Exists_cons; [|by apply Exists_nil in H].
    cbn [separated map concat]. by rewrite app_nil_r.
  - rewrite separated_cons. intros [(a & b & ->)|H]%Exists_cons.
    + exists a, (b ++ sep ++ separated sep (y :: l)).
      by rewrite <- !app_assoc.
    + destruct (IH y H) as (a & b & ->).
      exists (x ++ sep ++ a), b. by rewrite <- !app_assoc.
Qed.

Lemma occurs_in_concat (sub : str) (l : list str) :
  Exists (occurs sub) l -> occurs sub (concat l).
Proof.
  induction 1 as [x l (a & b & ->)|x l H (a & b & IH)]; cbn [concat].
  - exists a, (b ++ concat l). by rewrite <- !app_assoc.
  - rewrite IH. exists (x ++ a), b. by rewrite <- !app_assoc.
Qed.

(** *** The two listings *)

Lemma sources_raw_of_links (nodes rest : list node) :
  Forall (fun n => named "b" n = false) nodes ->
  match rest with [] => True | n :: _ => named "b" n = true end ->
  Spells.sources_raw_of (nodes ++ rest) = link_texts nodes.
Proof.
  intros Hnodes Hrest. unfold link_texts.
  induction Hnodes as [|[s|nm cs] nodes Hn Hnodes IH].
  - destruct rest as [|[s|nm cs] rest]; [done|discriminate Hrest|].
    cbn in Hrest |- *. by rewrite Hrest.
  - exact IH.
  - cbn [app Spells.sources_raw_of List.filter named] in *. rewrite Hn.
    destruct (str_eqb nm (py "a")); cbn [map]; by rewrite IH.
Qed.

Lemma item_listing (span : node) (sources : list str) :
  item_lists span sources ->
  find (text span) (py "Source ") <> (-1)%Z
  /\ find (text span) (py "Aura") <> (-1)%Z
  /\ item_source_listing span = separated (py ", ") sources.
Proof.
  intros (before & Hsource & Haura & _).
  pose proof (find_first _ _ _ Hsource) as Hs.
  pose proof (find_first _ _ _ Haura) as Ha.
  split; [lia|]. split; [lia|].
  unfold item_source_listing. rewrite Hs, Ha.
  destruct Haura as [[after E] _]. rewrite E.
  set (listing := separated (py ", ") sources).
  rewrite !length_app.
  change (length (py "Source ")) with 7%nat.
  replace (Z.of_nat (length before) + 7)%Z
    with (Z.of_nat (length before + 7)) by lia.
  rewrite slice_between; [|lia|rewrite !length_app; cbn; lia].
  replace (length before + (7 + length listing) - (length before + 7))%nat
    with (length listing) by lia.
  rewrite <- !app_assoc, (app_assoc before (py "Source ")).
  replace (length before + 7)%nat with (length (before ++ py "Source "))
    by (rewrite length_app; reflexivity).
  rewrite drop_app_length. by rewrite take_app_length.
Qed.

(** C6, as the code has it.  When the Core Rulebook occurs in a listed
    source the field is [PF Core].  When it occurs nowhere in the listing,
    the field is the abbreviation of one listed source cut at its first
    [ pg. ], provided that source has a page reference: the first listed
    source on a spell page, the last one on an item page. *)
Theorem source_priority :
  (forall span tag sibs sources w,
     Spells.find_label span "Source" = Some (tag, sibs) ->
     spell_lists sibs sources -> sources <> [] ->
     (Exists (occurs core_rulebook) sources ->
      Spells._source_from_span span w = (Ok (Some (py "PF Core")), w))
     /\ (forall first rest name,
           sources = first :: rest ->
           ~ occurs core_rulebook (concat sources) ->
           without_page first name ->
           Spells._source_from_span span w
           = (let* a := abbreviate name in ret (Some a)) w
           /\ fst (Spells._source_from_span span w)
              = Ok (Some (abbreviation_of (abbreviations w) name))))
  /\ (forall span sources w,
        item_lists span sources -> sources <> [] ->
        (Exists (occurs core_rulebook) sources ->
         Items._source_from_span span w = (Ok (Some (py "PF Core")), w))
        /\ (forall init last name,
              sources = init ++ [last] ->
              ~ occurs core_rulebook (separated (py ", ") sources) ->
              without_page last name ->
              Items._source_from_span span w
              = (let* a := abbreviate name in ret (Some a)) w
              /\ fst (Items._source_from_span span w)
                 = Ok (Some (abbreviation_of (abbreviations w) name)))).
Proof.
  assert (Habbr : forall name w,
            fst ((let* a := abbreviate name in ret (Some a)) w)
            = Ok (Some (abbreviation_of (abbreviations w) name))).
  { intros name w. unfold bind.
    destruct (abbreviate_runs name w) as (w' & -> & _). done. }
  split.
  - intros span tag sibs sources w Hfind (nodes & after & -> & Hn & Ha & ->)
      Hne.
    pose proof (sources_raw_of_links nodes after Hn Ha) as Hraw.
    destruct (link_texts nodes) as [|first rest] eqn:E; [done|]. split.
    + intros Hcore.
      apply (spells_source_core span tag _ first rest w Hfind Hraw).
      by apply contains_occurs, occurs_in_concat.
    + intros first' rest' name [= <- <-] Hno Hpage.
      assert (Hrun : Spells._source_from_span span w
                     = (let* a := abbreviate name in ret (Some a)) w).
      { apply (spells_source_first span tag _ first name rest w Hfind Hraw).
        - by apply contains_absent.
        - by apply has_page_reference_first. }
      split; [exact Hrun|]. rewrite Hrun. apply Habbr.
  - intros span sources w Hlists Hne.
    destruct (item_listing span sources Hlists) as (Hs & Ha & Hlisting).
    destruct Hlists as (before & _ & _ & Hcommas). split.
    + intros Hcore. apply items_source_core; [done|done|].
      rewrite Hlisting. by apply contains_occurs, occurs_in_separated.
    + intros init last name -> Hno Hpage.
      assert (Hrun : Items._source_from_span span w
                     = (let* a := abbreviate name in ret (Some a)) w).
      { apply (items_source_last span last name w Hs Ha).
        - rewrite Hlisting. by apply contains_absent.
        - rewrite Hlisting, split_listing by done. apply last_snoc.
        - by apply has_page_reference_first. }
      split; [exact Hrun|]. rewrite Hrun. apply Habbr.
Qed.

(** The page [two_source_item] lists two sources. *)
Lemma two_source_item_lists :
  item_lists two_source_item
    [py "Ultimate Equipment pg. 208"; py "Advanced Player's Guide pg. 302"].
Proof.
  exists (py "Cloak of the Hedge Wizard"). split; [|split].
  - exact (first_at_by_find (py "Source ") (py "Cloak of the Hedge Wizard")
             (py "Ultimate Equipment pg. 208, "
              ++ py "Advanced Player's Guide pg. 302"
              ++ py "Aura faint conjuration; CL 1st")
             eq_refl).
  - exact (first_at_by_find (py "Aura")
             (py "Cloak of the Hedge WizardSource "
              ++ py "Ultimate Equipment pg. 208, "
              ++ py "Advanced Player's Guide pg. 302")
             (py " faint conjuration; CL 1st") eq_refl).
  - repeat (apply Forall_cons_2; [apply absent_by_find; reflexivity|]).
    apply Forall_nil_2.
Qed.

(** C6 fails on an item page: of [Ultimate Equipment pg. 208, Advanced
    Player's Guide pg. 302], neither of them the Core Rulebook, the code
    keeps the last source, not the first. *)
Lemma items_source_is_not_first_listed :
  item_lists two_source_item
    [py "Ultimate Equipment pg. 208"; py "Advanced Player's Guide pg. 302"]
  /\ ~ occurs core_rulebook
        (separated (py ", ")
           [py "Ultimate Equipment pg. 208";
            py "Advanced Player's Guide pg. 302"])
  /\ without_page (py "Ultimate Equipment pg. 208") (py "Ultimate Equipment")
  /\ outcome (abbreviate (py "Ultimate Equipment")) Items.initial
     = (Ok (py "PF Ult Equip"), [])
  /\ outcome (Items._source_from_span two_source_item) Items.initial
     = (Ok (Some (py "PF Adv Play")), [])
  /\ outcome (Items._source_from_span two_source_item) Items.initial
     <> (Ok (Some (py "PF Ult Equip")), []).
Proof.
  assert (H : outcome (Items._source_from_span two_source_item) Items.initial
              = (Ok (Some (py "PF Adv Play")), []))
    by (vm_compute; reflexivity).
  split; [exact two_source_item_lists|].
  split; [apply absent_by_find; reflexivity|].
  split.
  { exact (first_at_by_find (py " pg. ") (py "Ultimate Equipment")
             (py "208") eq_refl). }
  split; [vm_compute; reflexivity|].
  split; [exact H|].
  rewrite H. vm_compute. discriminate.
Qed.

(** ** The level summary: the derivation *)

Lemma count_at_positive (classes : dict str Z) (L : Z) :
  (0 < count_at classes L)%nat -> L ∈ map snd classes.
Proof.
  rewrite count_at_values. generalize (map snd classes) as values.
  induction values as [|v values IH]; cbn; [lia|].
  destruct (decide (v = L)) as [->|Hv]; cbn; intros H.
  - constructor.
  - constructor. by apply IH.
Qed.

(** What [most_common] of the counter holds. *)
Lemma most_common_facts (classes : dict str Z) :
  let mc := Spells.most_common (Spells.Counter (map snd classes)) in
  NoDup (map fst mc)
  /\ (forall L n, (L, n) ∈ mc -> n = count_at classes L /\ (0 < n)%nat)
  /\ (forall L, L ∈ map fst mc <-> L ∈ map snd classes)
  /\ list_sum (map snd mc) = length classes
  /\ StronglySorted more_common mc.
Proof.
  intros mc. destruct (Counter_spec classes) as (H1 & H2 & H3 & H4).
  pose proof (most_common_perm (Spells.Counter (map snd classes))) as Hp.
  fold mc in Hp.
  assert (Hkeys : map fst mc ≡ₚ
                  map fst (Spells.Counter (map snd classes)))
    by (by apply Permutation_map).
  split; [|split; [|split; [|split]]].
  - by rewrite Hkeys.
  - intros L n Hin. apply H2. by rewrite <- Hp.
  - intros L. rewrite <- H3. by rewrite Hkeys.
  - rewrite <- H4. clear -Hp. induction Hp as [|[]| [] [] |]; simpl; lia.
  - apply most_common_sorted.
Qed.

Lemma levels_sorted_by_count (classes : dict str Z) (l : list (Z * nat)) :
  StronglySorted more_common l ->
  (forall L n, (L, n) ∈ l -> n = count_at classes L) ->
  Sorted (fun a b => (count_at classes b <= count_at classes a)%nat)
         (map fst l).
Proof.
  induction 1 as [|[L n] l Hl IH Hall]; intros Hcount; simpl.
  - constructor.
  - constructor.
    + apply IH. intros L' n' Hin. apply Hcount. by constructor.
    + destruct l as [|[L' n'] l']; simpl; constructor.
      apply Forall_cons in Hall as [Hfirst _]. unfold more_common in Hfirst.
      simpl in Hfirst.
      rewrite <- (Hcount L n) by constructor.
      rewrite <- (Hcount L' n') by (constructor; constructor).
      done.
Qed.

Lemma level_from_classes_many (classes : dict str Z) (m L1 : Z)
    (c0 c1 : nat) (rest : list (Z * nat)) (w : World) :
  Spells.most_common (Spells.Counter (map snd classes))
  = (m, c0) :: (L1, c1) :: rest ->
  let majority :=
    Nat.leb (list_sum (c0 :: c1 :: map snd rest)) (2 * c0)
    && Nat.ltb c1 c0 in
  Spells._level_from_classes classes w
  = match mapM (Spells.level_group classes)
            (if majority then L1 :: map fst rest
             else m :: L1 :: map fst rest) w with
    | (Ok gs, w') =>
        (Ok (VStr (if majority
                   then str_of_int m ++ py " (" ++ join (py ", ") gs
                        ++ py ")"
                   else join (py ", ") gs)), w')
    | (Raise e, w') => (Raise e, w')
    end.
Proof.
  intros Hmc majority. unfold Spells._level_from_classes. rewrite Hmc.
  cbn [map fst snd]. unfold bind at 1.
  change (getitem (c0 :: c1 :: map snd rest) 0 w) with (Ok c0, w).
  cbv beta iota. subst majority.
  destruct (Nat.leb (list_sum (c0 :: c1 :: map snd rest)) (2 * c0)).
  - unfold bind at 1. unfold bind at 1.
    change (getitem (c0 :: c1 :: map snd rest) 1 w) with (Ok c1, w).
    cbv beta iota. unfold ret at 1. cbv beta iota.
    destruct (Nat.ltb c1 c0); cbn [andb head tail]; unfold bind;
      destruct (mapM _ _ w) as [[gs|e] w']; done.
  - unfold bind at 1. unfold ret at 1. cbv beta iota.
    cbn [andb]. unfold bind.
    destruct (mapM _ _ w) as [[gs|e] w']; done.
Qed.

Lemma level_summary_general (classes : dict str Z) (w : World) :
  classes <> [] -> NoDup (map fst classes) ->
  exists v w',
    Spells._level_from_classes classes w = (Ok v, w')
    /\ abbreviations w' = abbreviations w
    /\ level_summary (abbreviations w) classes v.
Proof.
  intros Hne Hnd.
  pose proof (most_common_facts classes) as Hfacts. cbv zeta in Hfacts.
  destruct Hfacts as (Hk & Hc & Hm & Hs & Hsorted).
  remember (Spells.most_common (Spells.Counter (map snd classes))) as mc
    eqn:Hmc. symmetry in Hmc.
  assert (Hin : forall kv, kv ∈ classes -> snd kv ∈ map fst mc).
  { intros kv Hkv. apply Hm. apply list_elem_of_fmap. by exists kv. }
  destruct mc as [|[m c0] [|[L1 c1] rest]].
  - (* no level at all: the dictionary would be empty *)
    destruct classes as [|kv cl]; [done|].
    specialize (Hin kv ltac:(constructor)). by apply elem_of_nil in Hin.
  - (* one level *)
    exists (VInt m), w. split; [|split; [done|]].
    + unfold Spells._level_from_classes. by rewrite Hmc.
    + apply summary_single. intros kv Hkv.
      specialize (Hin kv Hkv). by apply list_elem_of_singleton in Hin.
  - (* two levels or more *)
    pose proof (level_from_classes_many classes m L1 c0 c1 rest w Hmc) as Hrun.
    cbv zeta in Hrun.
    destruct (Hc m c0 ltac:(constructor)) as [Hc0 Hpos0].
    destruct (Hc L1 c1 ltac:(constructor; constructor)) as [Hc1 Hpos1].
    cbn [map fst] in Hk.
    apply NoDup_cons in Hk as [Hm_fresh Hk'].
    assert (Hneq : L1 <> m).
    { intros ->. apply Hm_fresh. constructor. }
    apply StronglySorted_inv in Hsorted as [Hsorted' Hfirst].
    assert (Hc10 : (c1 <= c0)%nat).
    { apply Forall_cons in Hfirst as [H _]. exact H. }
    assert (Hle : forall L, L <> m -> (count_at classes L <= c1)%nat).
    { intros L HL.
      destruct (count_at classes L) as [|n] eqn:Hcount; [lia|].
      rewrite <- Hcount.
      assert (HLin : L ∈ map snd classes)
        by (apply count_at_positive; lia).
      apply Hm in HLin. cbn [map fst] in HLin.
      apply elem_of_cons in HLin as [->|HLin]; [done|].
      apply elem_of_cons in HLin as [->|HLin]; [lia|].
      apply list_elem_of_fmap in HLin as ([L' n'] & -> & Hrest).
      cbn [fst].
      destruct (Hc L' n' ltac:(do 2 constructor; exact Hrest)) as [<- _].
      apply StronglySorted_inv in Hsorted' as [_ Hsecond].
      rewrite Forall_forall in Hsecond. apply (Hsecond _ Hrest). }
    assert (Hseveral : forall L, ~ all_at_one_level classes L).
    { intros L Hall.
      assert (Hvals : forall L', L' ∈ map snd classes -> L' = L).
      { intros L' ([k v] & -> & Hkv)%list_elem_of_fmap. by apply Hall. }
      apply Hneq. rewrite (Hvals L1), (Hvals m); [done| |].
      - apply Hm. constructor.
      - apply Hm. do 2 constructor. }
    cbn [map snd] in Hs.
    destruct (Nat.leb (list_sum (c0 :: c1 :: map snd rest)) (2 * c0)
              && Nat.ltb c1 c0) eqn:Hmaj.
    + (* a main level *)
      apply andb_true_iff in Hmaj as [Hhalf Hmore].
      apply Nat.leb_le in Hhalf. apply Nat.ltb_lt in Hmore.
      destruct (level_groups_run classes (L1 :: map fst rest) w Hnd)
        as (gs & w' & Hgs & Ht & Hall).
      rewrite Hgs in Hrun.
      eexists _, w'. split; [exact Hrun|]. split; [done|].
      apply summary_main with (others := L1 :: map fst rest).
      * done.
      * split; [lia|]. intros L HL. specialize (Hle L HL). lia.
      * split; [done|]. split.
        -- intros L. rewrite <- Hm. cbn [map fst]. rewrite (elem_of_cons _ L m).
           split; [intros H; split; [by right|] | intros [[->|H] Hn]; done].
           intros ->. done.
        -- apply (levels_sorted_by_count classes ((L1, c1) :: rest)).
           ++ done.
           ++ intros L n HLn. apply Hc. by constructor.
      * by exists gs.
    + (* no main level *)
      apply andb_false_iff in Hmaj.
      destruct (level_groups_run classes (m :: L1 :: map fst rest) w Hnd)
        as (gs & w' & Hgs & Ht & Hall).
      rewrite Hgs in Hrun.
      eexists _, w'. split; [exact Hrun|]. split; [done|].
      apply summary_grouped with (levels := m :: L1 :: map fst rest).
      * done.
      * intros m' [Hhalf Hmore].
        destruct (decide (m' = m)) as [->|Hm'].
        -- destruct Hmaj as [Hno|Hno].
           ++ apply Nat.leb_gt in Hno. lia.
           ++ apply Nat.ltb_ge in Hno. specialize (Hmore L1 Hneq). lia.
        -- specialize (Hle m' Hm').
           assert (m <> m') by done. specialize (Hmore m H). lia.
      * split; [by apply NoDup_cons|]. split.
        -- intros L. rewrite <- Hm. cbn [map fst]. tauto.
        -- apply (levels_sorted_by_count classes
                    ((m, c0) :: (L1, c1) :: rest)).
           ++ by constructor.
           ++ intros L n HLn. by apply Hc.
      * by exists gs.
Qed.



(** ** Warnings: what each part of the scripts may emit *)

Lemma add_log_nil (w : World) : add_log w [] = w.
Proof. destruct w. unfold add_log. simpl. by rewrite app_nil_r. Qed.

Lemma add_log_app (w : World) (a b : list str) :
  add_log (add_log w a) b = add_log w (a ++ b).
Proof. unfold add_log. simpl. by rewrite app_assoc. Qed.





Lemma logs_ret {A} (P : str -> Prop) (a : A) : logs P (ret a).
Proof. intros w. exists []. by rewrite add_log_nil. Qed.

Lemma logs_raise {A} (P : str -> Prop) (e : exn) : logs P (@raise A e).
Proof. intros w. exists []. by rewrite add_log_nil. Qed.

Lemma logs_warn (P : str -> Prop) (m : str) : P m -> logs P (warn m).
Proof. intros H w. exists [m]. split; [done|]. by constructor. Qed.

Lemma logs_bind {A B} (P : str -> Prop) (c : M A) (k : A -> M B) :
  logs P c -> (forall a, logs P (k a)) -> logs P (bind c k).
Proof.
  intros Hc Hk w. destruct (Hc w) as (l1 & E1 & H1).
  unfold bind. destruct (c w) as [[a|e] w1]; simpl in E1; subst w1.
  - destruct (Hk a (add_log w l1)) as (l2 & E2 & H2).
    exists (l1 ++ l2). rewrite E2, add_log_app. split; [done|].
    by apply Forall_app.
  - by exists l1.
Qed.

Lemma logs_try_except {A} (P : str -> Prop) (c h : M A) (e : exn) :
  logs P c -> logs P h -> logs P (try_except c e h).
Proof.
  intros Hc Hh w. destruct (Hc w) as (l1 & E1 & H1).
  unfold try_except. destruct (c w) as [[a|e'] w1]; simpl in E1; subst w1.
  - by exists l1.
  - case_bool_decide.
    + destruct (Hh (add_log w l1)) as (l2 & E2 & H2).
      exists (l1 ++ l2). rewrite E2, add_log_app. split; [done|].
      by apply Forall_app.
    + by exists l1.
Qed.

Lemma logs_weaken {A} (P Q : str -> Prop) (c : M A) :
  (forall m, P m -> Q m) -> logs P c -> logs Q c.
Proof.
  intros HPQ Hc w. destruct (Hc w) as (l & E & H).
  exists l. split; [done|]. eapply Forall_impl; eauto.
Qed.

Lemma logs_mapM {A B} (P : str -> Prop) (f : A -> M B) (l : list A) :
  (forall a, logs P (f a)) -> logs P (mapM f l).
Proof.
  intros Hf. induction l as [|x l IH]; cbn [mapM].
  - apply logs_ret.
  - apply logs_bind; [apply Hf|]. intros y.
    apply logs_bind; [apply IH|]. intros ys. apply logs_ret.
Qed.

Lemma logs_getitem {A} (P : str -> Prop) (l : list A) (i : Z) :
  logs P (getitem l i).
Proof.
  unfold getitem. destruct (_ <? 0)%Z; [apply logs_raise|].
  destruct (nth_error _ _); [apply logs_ret | apply logs_raise].
Qed.

Lemma logs_contents_of (P : str -> Prop) (o : option node) :
  logs P (contents_of o).
Proof.
  destruct o as [[s|nm cs]|]; cbn; try apply logs_raise. apply logs_ret.
Qed.

Lemma logs_child_tag (P : str -> Prop) (o : option node) (name : string) :
  logs P (child_tag o name).
Proof.
  destruct o as [[s|nm cs]|]; cbn; try apply logs_raise. apply logs_ret.
Qed.

Lemma logs_text_of (P : str -> Prop) (o : option node) : logs P (text_of o).
Proof. destruct o; cbn; [apply logs_ret | apply logs_raise]. Qed.

Lemma logs_abbreviate (name : str) : logs about_abbreviation (abbreviate name).
Proof.
  unfold abbreviate. apply logs_try_except.
  - intros w. exists []. rewrite add_log_nil. split; [|done].
    unfold abbreviations_getitem. by destruct (_ !! _).
  - apply logs_bind; [|intros; apply logs_ret].
    apply logs_warn. by exists name.
Qed.

Lemma logs_class_list_at (classes : dict str Z) (keys : list str) (L : Z) :
  logs about_abbreviation (Spells.class_list_at classes keys L).
Proof.
  induction keys as [|k keys IH]; cbn [Spells.class_list_at].
  - apply logs_ret.
  - destruct (dict_get classes k); [|apply logs_raise].
    destruct (Z.eqb _ _); [|done].
    apply logs_bind; [apply logs_abbreviate|]. intros a.
    apply logs_bind; [done|]. intros r. apply logs_ret.
Qed.

Lemma logs_level_from_classes (classes : dict str Z) :
  logs about_abbreviation (Spells._level_from_classes classes).
Proof.
  unfold Spells._level_from_classes.
  assert (Hmany : forall lc : list (Z * nat),
    logs about_abbreviation
      (let counts := map snd lc in
       let levels := map fst lc in
       let* c0 := getitem counts 0 in
       let* majority :=
         (if Nat.leb (list_sum counts) (2 * c0) then
            let* c1 := getitem counts 1 in ret (Nat.ltb c1 c0)
          else ret false) in
       let main_level := if majority then head levels else None in
       let levels := if majority then tail levels else levels in
       let* levellist := mapM (Spells.level_group classes) levels in
       let leveltxt := join (py ", ") levellist in
       match main_level with
       | Some m =>
           ret (VStr (str_of_int m ++ py " (" ++ leveltxt ++ py ")"))
       | None => ret (VStr leveltxt)
       end)).
  { intros lc. cbv zeta.
    apply logs_bind; [apply logs_getitem|]. intros c0.
    apply logs_bind.
    { destruct (Nat.leb _ _); [|apply logs_ret].
      apply logs_bind; [apply logs_getitem|]. intros; apply logs_ret. }
    intros majority.
    apply logs_bind.
    { apply logs_mapM. intros L. unfold Spells.level_group.
      apply logs_bind; [apply logs_class_list_at|].
      intros; apply logs_ret. }
    intros levellist. destruct (if majority then _ else _); apply logs_ret. }
  destruct (Spells.most_common _) as [|[L n] [|p rest]].
  - apply (Hmany []).
  - apply logs_ret.
  - apply (Hmany ((L, n) :: p :: rest)).
Qed.

Lemma logs_parse_basic_children (cs : list node) :
  logs about_unknown_tag (parse_basic_children cs).
Proof.
  induction cs as [|[s|nm xs] cs IH]; cbn [parse_basic_children].
  - apply logs_ret.
  - apply logs_bind; [done|]. intros; apply logs_ret.
  - apply logs_bind.
    + destruct (str_eqb nm (py "b")); [apply logs_ret|].
      destruct (str_eqb nm (py "i")); [apply logs_ret|].
      apply logs_bind; [|intros; apply logs_ret].
      apply logs_warn. by eexists.
    + intros piece. apply logs_bind; [done|]. intros; apply logs_ret.
Qed.

Lemma logs_parse_basic_text (item : node) :
  logs about_unknown_tag (_parse_basic_text item).
Proof.
  unfold _parse_basic_text.
  apply logs_bind; [apply logs_contents_of|]. intros cs.
  apply logs_bind; [apply logs_parse_basic_children|].
  intros; apply logs_ret.
Qed.

Lemma logs_ul_process (ul : node) : logs about_unknown_tag (_ul_process ul).
Proof.
  unfold _ul_process.
  apply logs_bind; [apply logs_contents_of|]. intros cs.
  apply logs_bind; [|intros; apply logs_ret].
  apply logs_mapM, logs_parse_basic_text.
Qed.

Lemma logs_table_rows (rows : list node) :
  logs about_unknown_tag (table_rows rows).
Proof.
  induction rows as [|[s|nm cs] rows IH]; cbn [table_rows].
  - apply logs_ret.
  - done.
  - apply logs_bind; [apply logs_mapM, logs_parse_basic_text|].
    intros row. apply logs_bind; [done|]. intros; apply logs_ret.
Qed.

Lemma logs_htmltable2latex (table : node) :
  logs about_unknown_tag (htmltable2latex table).
Proof.
  unfold htmltable2latex.
  apply logs_bind; [apply logs_child_tag|]. intros tr.
  apply logs_bind; [apply logs_contents_of|]. intros cells.
  apply logs_bind; [apply logs_contents_of|]. intros children.
  apply logs_bind; [apply logs_table_rows|]. intros; apply logs_ret.
Qed.

Lemma logs_description_pieces (stops : list str) (sibs : list node) :
  logs about_unknown_tag (description_pieces stops sibs).
Proof.
  induction sibs as [|[s|nm cs] sibs IH]; cbn [description_pieces].
  - apply logs_ret.
  - apply logs_bind; [done|]. intros; apply logs_ret.
  - case_bool_decide; [apply logs_ret|].
    apply logs_bind.
    + destruct (str_eqb nm (py "br")); [apply logs_ret|].
      destruct (str_eqb nm (py "b")); [apply logs_ret|].
      destruct (str_eqb nm (py "i")); [apply logs_ret|].
      destruct (str_eqb nm (py "ul")); [apply logs_ul_process|].
      destruct (str_eqb nm (py "table")); [apply logs_htmltable2latex|].
      apply logs_bind; [|intros; apply logs_ret].
      apply logs_warn. by eexists.
    + intros piece. apply logs_bind; [done|]. intros; apply logs_ret.
Qed.

Lemma logs_run {A} (P : str -> Prop) (c : M A) (w w1 : World)
    (r : result A) :
  logs P c -> c w = (r, w1) ->
  exists log, w1 = add_log w log /\ Forall P log.
Proof.
  intros Hc E. destruct (Hc w) as (log & El & Hl).
  rewrite E in El. by exists log.
Qed.

Lemma logs_silent {A} (c : M A) (w w1 : World) (r : result A) :
  logs (fun _ => False) c -> c w = (r, w1) -> w1 = w.
Proof.
  intros Hc E. destruct (logs_run _ c w w1 r Hc E) as (log & -> & Hl).
  destruct log as [|m log]; [apply add_log_nil|].
  by apply Forall_cons in Hl as [[] _].
Qed.




(** ** The warnings about missing labels differ from all others *)






(** ** The extractions of a spell, one by one *)

Lemma logs_next_nonempty_span (P : str -> Prop) (spans : list node) :
  logs P (Spells.next_nonempty_span spans).
Proof.
  induction spans as [|[s|nm [|c cs]] spans IH];
    cbn [Spells.next_nonempty_span]; try done.
  - apply logs_raise.
  - apply logs_ret.
Qed.

Lemma logs_first_span (P : str -> Prop) (soup : node) :
  logs P (Spells.first_span soup).
Proof.
  unfold Spells.first_span.
  apply logs_bind; [apply logs_child_tag|]. intros table.
  apply logs_bind; [apply logs_child_tag|]. intros span.
  apply logs_bind; [apply logs_contents_of|]. intros contents.
  destruct span as [sp|], contents as [|c cs], table as [t|];
    try apply logs_ret; try apply logs_raise;
    apply logs_next_nonempty_span.
Qed.

Lemma logs_spell_name (P : str -> Prop) (span : option node) :
  logs P (Spells._name_from_span span).
Proof.
  unfold Spells._name_from_span.
  apply logs_bind; [apply logs_child_tag|]. intros h1.
  apply logs_bind; [apply logs_text_of|]. intros; apply logs_ret.
Qed.




Lemma logs_simple_tag_unnamed (P : str -> Prop) (span : node) (s : string) :
  logs P (Spells._get_text_from_simple_tag span s None).
Proof.
  unfold Spells._get_text_from_simple_tag.
  destruct (Spells.find_label span s) as [[tag sibs]|]; apply logs_ret.
Qed.


Lemma logs_classes_loop (P : str -> Prop) (l : list str) (d : dict str Z) :
  logs P (Spells.classes_loop l d).
Proof.
  revert d. induction l as [|e l IH]; intros d; cbn [Spells.classes_loop].
  - apply logs_ret.
  - apply logs_bind; [apply logs_getitem|]. intros c.
    apply logs_bind; [|done].
    unfold int_of_char. destruct (digit_value c);
      [apply logs_ret | apply logs_raise].
Qed.






(** Area, Target, Effect and Duration: no warning, and [None] exactly when
    the label is absent. *)
Lemma ATE_run (span : node) (ATE : string) (w : World) :
  exists r,
    Spells._ATE_from_span span ATE w = (Ok r, w)
    /\ (r = None <-> Spells.find_label span ATE = None).
Proof.
  unfold Spells._ATE_from_span, Spells._get_text_from_simple_tag, bind.
  destruct (Spells.find_label span ATE) as [[tag sibs]|]; cbn.
  - eexists. split; [reflexivity|]. split; discriminate.
  - by exists None.
Qed.

Lemma target_run (span : node) (w : World) :
  exists r,
    Spells._target_from_span span w = (Ok r, w)
    /\ (r = None <-> Spells.find_label span "Target" = None
                     /\ Spells.find_label span "Targets" = None).
Proof.
  unfold Spells._target_from_span, bind.
  destruct (ATE_run span "Target" w) as (r1 & E1 & H1). rewrite E1.
  destruct r1 as [t|].
  - exists (Some t). split; [done|]. split; [discriminate|].
    intros [H _]. by apply H1 in H.
  - destruct (ATE_run span "Targets" w) as (r2 & E2 & H2). rewrite E2.
    exists r2. split; [done|]. rewrite H2. split; [|tauto].
    intros H. split; [|done]. by apply H1.
Qed.


Lemma logs_save (P : str -> Prop) (span : node) :
  logs P (Spells._save_from_span span).
Proof.
  unfold Spells._save_from_span.
  apply logs_bind; [apply logs_simple_tag_unnamed|].
  intros [s|]; apply logs_ret.
Qed.

Lemma logs_sr (P : str -> Prop) (span : node) :
  logs P (Spells._sr_from_span span).
Proof.
  unfold Spells._sr_from_span.
  apply logs_bind; [apply logs_simple_tag_unnamed|].
  intros [s|]; apply logs_ret.
Qed.

(** ** The record of a spell *)





Ltac by_computation := apply (bool_decide_unpack _); vm_compute; exact I.



Ltac run_step H E r w1 :=
  unfold bind at 1 in H;
  match type of H with
  | (let (_, _) := ?c in _) = _ =>
      destruct c as [[r|?] w1] eqn:E; [|discriminate H]
  end;
  cbv beta in H.


(** ** The extractions of an item, one by one *)

Lemma logs_item_name (P : str -> Prop) (span : option node) :
  logs P (Items._name_from_span span).
Proof.
  unfold Items._name_from_span.
  apply logs_bind; [apply logs_child_tag|]. intros h1.
  apply logs_bind; [apply logs_text_of|]. intros; apply logs_ret.
Qed.





Lemma logs_drop_final_semicolon (P : str -> Prop) (s : str) :
  logs P (Items.drop_final_semicolon s).
Proof.
  unfold Items.drop_final_semicolon.
  apply logs_bind; [apply logs_getitem|]. intros c.
  destruct (char_eqb _ _); apply logs_ret.
Qed.






(** ** The record of an item *)









(** ** What [texify] guarantees *)

Lemma subst_char_removes (c : char) (r s : str) :
  c ∉ r -> c ∉ subst_char c r s.
Proof.
  intros Hr. unfold subst_char. induction s as [|x s IH]; simpl.
  - apply not_elem_of_nil.
  - intros [H|H]%elem_of_app; [|done].
    destruct (char_eqb x c) eqn:E; [done|].
    apply list_elem_of_singleton in H. subst x.
    unfold char_eqb in E. by rewrite N.eqb_refl in E.
Qed.

Lemma subst_char_keeps_out (x c : char) (r s : str) :
  x ∉ r -> x ∉ s -> x ∉ subst_char c r s.
Proof.
  intros Hr. unfold subst_char. induction s as [|y s IH]; simpl; intros Hs.
  - apply not_elem_of_nil.
  - apply not_elem_of_cons in Hs as [Hy Hs].
    intros [H|H]%elem_of_app; [|by apply IH].
    destruct (char_eqb y c); [done|].
    by apply list_elem_of_singleton in H.
Qed.

Lemma escape_percent_keeps_out (x : char) (prev : option char) (s : str) :
  x <> BACKSLASH -> x ∉ s -> x ∉ escape_percent_after prev s.
Proof.
  intros Hx. revert prev. induction s as [|y s IH]; intros prev Hs; simpl.
  - apply not_elem_of_nil.
  - apply not_elem_of_cons in Hs as [Hy Hs].
    intros [H|H]%elem_of_app; [|by apply (IH (Some y))].
    destruct (char_eqb y PERCENT && _) eqn:E.
    + apply andb_true_iff in E as [E _]. apply N.eqb_eq in E. subst y.
      apply elem_of_cons in H as [H|H]; [done|].
      by apply list_elem_of_singleton in H.
    + by apply list_elem_of_singleton in H.
Qed.

Lemma texify_has_no_unsafe_char (s : str) :
  Forall (fun c => c ∉ unsafe_chars) (texify s).
Proof.
  apply Forall_forall. intros c Hc Hunsafe. revert Hc.
  rewrite texify_unfold.
  unfold newline_to_break, escape_percent, plain_right_quote,
    plain_left_quote, plain_apostrophe, dash_to_hyphens, escape_minus,
    strip_carriage_returns.
  unfold unsafe_chars in Hunsafe.
  repeat (apply elem_of_cons in Hunsafe as [->|Hunsafe]);
    [ | | | | | | by apply elem_of_nil in Hunsafe].
  all: repeat first
    [ apply subst_char_removes; by_computation
    | apply subst_char_keeps_out; [by_computation|]
    | apply escape_percent_keeps_out; [by_computation|] ].
Qed.

Lemma percents_escaped_fixed (prev : option char) (s : str) :
  percents_escaped prev s -> escape_percent_after prev s = s.
Proof.
  revert prev. induction s as [|c s IH]; intros prev; simpl; [done|].
  intros [Hc Hs]. rewrite (IH _ Hs).
  destruct (char_eqb c PERCENT) eqn:E; [|done].
  apply N.eqb_eq in E. rewrite (Hc E).
  by rewrite bool_decide_eq_true_2.
Qed.

Lemma escape_percent_escapes (prev : option char) (s : str) :
  percents_escaped prev (escape_percent_after prev s).
Proof.
  revert prev. induction s as [|c s IH]; intros prev; simpl; [done|].
  destruct (char_eqb c PERCENT) eqn:E; simpl.
  - apply N.eqb_eq in E. subst c.
    case_bool_decide as Hp; simpl.
    + split; [done | apply IH].
    + split; [done|]. split; [done | apply IH].
  - split; [|apply IH]. intros ->. by rewrite N.eqb_refl in E.
Qed.

Lemma percents_escaped_after_backslash (prev : option char) (s : str) :
  percents_escaped prev s -> percents_escaped (Some BACKSLASH) s.
Proof. destruct s as [|c s]; simpl; [done|]. intros [_ H]. by split. Qed.

Lemma newline_to_break_keeps_escapes (prev : option char) (s : str) :
  percents_escaped prev s -> percents_escaped prev (newline_to_break s).
Proof.
  unfold newline_to_break, subst_char.
  revert prev. induction s as [|c s IH]; intros prev; simpl; [done|].
  intros [Hc Hs]. destruct (char_eqb c LF) eqn:E; simpl.
  - split; [done|]. split; [done|].
    apply IH. by eapply percents_escaped_after_backslash.
  - split; [done|]. by apply IH.
Qed.

(** Whatever passes through [texify] is markup-safe. *)
Lemma texify_is_markup_safe (s : str) : markup_safe (texify s).
Proof.
  split; [apply texify_has_no_unsafe_char|].
  rewrite texify_unfold. unfold escape_percent at 1.
  apply percents_escaped_fixed, newline_to_break_keeps_escapes.
  apply escape_percent_escapes.
Qed.

(** ** Missing Construction heading, missing Duration label *)

Lemma construction_heading_absent (span : node) (w : World) :
  Items.find_heading span "Construction" = None ->
  Items._construction_from_span span w
  = (Ok None,
     mkWorld (abbreviations w)
       (warnings w ++ [py "Could not find Construction tag. Skipping."])).
Proof. intros H. unfold Items._construction_from_span. by rewrite H. Qed.

Lemma duration_label_absent (span : node) (w : World) :
  Spells.find_label span "Duration" = None ->
  Spells._duration_from_span span w
  = (Raise AttributeError,
     mkWorld (abbreviations w)
       (warnings w
        ++ [py "Could not find Duration tag. Skipping element 'duration'."])).
Proof.
  intros H. unfold Spells._duration_from_span, Spells._ATE_from_span,
    Spells._get_text_from_simple_tag.
  by rewrite H.
Qed.

(** C3 fails on the code.  Without a Construction heading the extraction
    warns and returns [None], and the assembly of the item then raises
    [TypeError] on unpacking it; without a Duration label the extraction
    of the duration warns and then raises [AttributeError], and so does the
    assembly of the spell. *)
Theorem missing_label_aborts_assembly :
  (forall span w,
     Items.find_heading span "Construction" = None ->
     Items._construction_from_span span w
     = (Ok None,
        mkWorld (abbreviations w)
          (warnings w ++ [py "Could not find Construction tag. Skipping."])))
  /\ outcome (Items.soup2dict item_without_construction) Items.initial
     = (Raise TypeError,
        [py "Did not find h3 block after Description.";
         py "Could not find Construction tag. Skipping."])
  /\ (forall span w,
        Spells.find_label span "Duration" = None ->
        fst (Spells._duration_from_span span w) = Raise AttributeError)
  /\ outcome (Spells.soup2dict spell_without_duration) Spells.initial
     = (Raise AttributeError,
        [py "Could not find Duration tag. Skipping element 'duration'."]).
Proof.
  split; [exact construction_heading_absent|].
  split; [vm_compute; reflexivity|].
  split; [|vm_compute; reflexivity].
  intros span w H. by rewrite duration_label_absent.
Qed.

Lemma missing_label_aborts_assembly_witness :
  Items.find_heading
    (elt "span" [elt "h1" [txt "Bag of Holding"]]) "Construction" = None
  /\ fst (Items._construction_from_span
            (elt "span" [elt "h1" [txt "Bag of Holding"]]) Items.initial)
     = Ok None.
Proof.
  assert (H : Items.find_heading
                (elt "span" [elt "h1" [txt "Bag of Holding"]]) "Construction"
              = None) by (vm_compute; reflexivity).
  split; [exact H|].
  rewrite (proj1 missing_label_aborts_assembly _ Items.initial H).
  reflexivity.
Defined.

(** ** Fields that are stored as they are read *)

(** C7 fails on the code.  The name and the price of this item reach the
    record with a typographic apostrophe and an em-dash: only the
    description and the construction fields pass through [texify]. *)
Theorem unescaped_fields_reach_the_record :
  exists json,
    outcome (Items.soup2dict item_with_typographic_name) Items.initial
    = (Ok json, [])
    /\ string_field json "name" = Some (py "Hunter" ++ [RSQUO] ++ py "s Cloak")
    /\ string_field json "price" = Some [EM_DASH]
    /\ ~ markup_safe (py "Hunter" ++ [RSQUO] ++ py "s Cloak")
    /\ ~ markup_safe [EM_DASH].
Proof.
  eexists. split; [vm_compute; reflexivity|].
  split; [vm_compute; reflexivity|]. split; [vm_compute; reflexivity|].
  split; apply (bool_decide_unpack _); vm_compute; exact I.
Qed.

(** ** Witnesses *)

(** An entry with an ASCII digit is well formed. *)
Ltac ascii_entry :=
  split; [apply (bool_decide_unpack _); vm_compute; exact I|];
  split; [split; reflexivity|];
  split; [apply (bool_decide_unpack _); vm_compute; exact I|];
  split; [apply (bool_decide_unpack _); vm_compute; exact I|];
  exists (chr "0");
  split; [apply (bool_decide_unpack _); vm_compute; exact I|];
  split; [cbn; lia | reflexivity].

Lemma classes_read_one_trailing_digit_witness :
  let d := [(py "alchemist", 2%Z); (py "magus", 2%Z);
            (py "sorcerer", 3%Z); (py "wizard", 3%Z)] in
  Spells.find_label two_source_spell "Level"
  = Some (elt "b" [txt "Level"],
          [txt " alchemist 2, magus 2, sorcerer 3, wizard 3"])
  /\ Forall well_formed two_source_spell_entries
  /\ py " alchemist 2, magus 2, sorcerer 3, wizard 3"
     = separated (py ",") (map le_text two_source_spell_entries)
  /\ Spells._classes_from_span two_source_spell Spells.initial
     = (Ok (Some d), Spells.initial)
  /\ forall cls, dict_get d cls = listed_level two_source_spell_entries cls.
Proof.
  intros d.
  assert (H1 : Spells.find_label two_source_spell "Level"
               = Some (elt "b" [txt "Level"],
                       [txt " alchemist 2, magus 2, sorcerer 3, wizard 3"]))
    by (vm_compute; reflexivity).
  assert (H2 : Forall well_formed two_source_spell_entries).
  { unfold two_source_spell_entries.
    do 4 (apply Forall_cons_2; [ascii_entry|]). apply Forall_nil_2. }
  assert (H3 : py " alchemist 2, magus 2, sorcerer 3, wizard 3"
               = separated (py ",") (map le_text two_source_spell_entries))
    by (vm_compute; reflexivity).
  split; [exact H1|]. split; [exact H2|]. split; [exact H3|].
  destruct (proj1 (classes_read_one_trailing_digit two_source_spell
                     (elt "b" [txt "Level"]) _ Spells.initial H1)
              two_source_spell_entries ltac:(discriminate) H2 H3)
    as (d' & Hrun & Hget).
  assert (Hd : fst (Spells._classes_from_span two_source_spell
                      Spells.initial) = Ok (Some d))
    by (vm_compute; reflexivity).
  rewrite Hrun in Hd. injection Hd as <-. by split.
Defined.

Lemma source_priority_witness :
  let sources := [py "Ultimate Combat pg. 221";
                  py "Ultimate Magic pg. 205"] in
  let sibs := [txt " "; elt "a" [elt "i" [txt "Ultimate Combat pg. 221"]];
               txt ", "; elt "a" [elt "i" [txt "Ultimate Magic pg. 205"]];
               elt "br" [];
               elt "b" [txt "School"];
               txt " conjuration (creation) [force]; ";
               elt "b" [txt "Level"];
               txt " alchemist 2, magus 2, sorcerer 3, wizard 3"] in
  Spells.find_label two_source_spell "Source"
  = Some (elt "b" [txt "Source"], sibs)
  /\ spell_lists sibs sources
  /\ ~ occurs core_rulebook (concat sources)
  /\ without_page (py "Ultimate Combat pg. 221") (py "Ultimate Combat")
  /\ fst (Spells._source_from_span two_source_spell Spells.initial)
     = Ok (Some (py "PF Ult Combat"))
  /\ item_lists two_source_item
       [py "Ultimate Equipment pg. 208";
        py "Advanced Player's Guide pg. 302"]
  /\ without_page (py "Advanced Player's Guide pg. 302")
       (py "Advanced Player's Guide")
  /\ fst (Items._source_from_span two_source_item Items.initial)
     = Ok (Some (py "PF Adv Play")).
Proof.
  intros sources sibs.
  assert (H1 : Spells.find_label two_source_spell "Source"
               = Some (elt "b" [txt "Source"], sibs))
    by (vm_compute; reflexivity).
  assert (H2 : spell_lists sibs sources).
  { exists (take 5 sibs), (drop 5 sibs).
    split; [reflexivity|]. split; [|split; reflexivity].
    repeat (apply Forall_cons_2; [reflexivity|]). apply Forall_nil_2. }
  assert (H3 : ~ occurs core_rulebook (concat sources))
    by (apply absent_by_find; reflexivity).
  assert (H4 : without_page (py "Ultimate Combat pg. 221")
                 (py "Ultimate Combat")).
  { exact (first_at_by_find (py " pg. ") (py "Ultimate Combat") (py "221")
             eq_refl). }
  assert (H5 : without_page (py "Advanced Player's Guide pg. 302")
                 (py "Advanced Player's Guide")).
  { exact (first_at_by_find (py " pg. ") (py "Advanced Player's Guide")
             (py "302") eq_refl). }
  assert (H6 : ~ occurs core_rulebook
                 (separated (py ", ")
                    [py "Ultimate Equipment pg. 208";
                     py "Advanced Player's Guide pg. 302"]))
    by (apply absent_by_find; reflexivity).
  split; [exact H1|]. split; [exact H2|]. split; [exact H3|].
  split; [exact H4|]. split.
  { rewrite (proj2 (proj2 (proj1 source_priority two_source_spell _ sibs
                             sources Spells.initial H1 H2
                             ltac:(discriminate))
                      _ _ (py "Ultimate Combat") eq_refl H3 H4)).
    vm_compute. reflexivity. }
  split; [exact two_source_item_lists|]. split; [exact H5|].
  rewrite (proj2 (proj2 (proj2 source_priority two_source_item _
                           Items.initial two_source_item_lists
                           ltac:(discriminate))
                    [py "Ultimate Equipment pg. 208"] _
                    (py "Advanced Player's Guide") eq_refl H6 H5)).
  vm_compute. reflexivity.
Defined.


(** * Further properties *)

(** ** [texify], on every input *)

Lemma texify_removes_rewritten (c : char) (s : str) :
  c ∈ rewritten_chars -> c ∉ texify s.
Proof.
  intros Hc. rewrite texify_unfold.
  unfold newline_to_break, escape_percent, plain_right_quote,
    plain_left_quote, plain_apostrophe, dash_to_hyphens, escape_minus,
    strip_carriage_returns.
  unfold rewritten_chars in Hc.
  repeat (apply elem_of_cons in Hc as [->|Hc]);
    [ | | | | | | | by apply elem_of_nil in Hc].
  all: repeat first
    [ apply subst_char_removes; by_computation
    | apply subst_char_keeps_out; [by_computation|]
    | apply escape_percent_keeps_out; [by_computation|] ].
Qed.

Lemma texify_escapes_percents (s : str) : percents_escaped None (texify s).
Proof.
  rewrite texify_unfold.
  apply newline_to_break_keeps_escapes, escape_percent_escapes.
Qed.

(** X1.  The output of [texify] has none of the characters that [texify]
    rewrites, and each of its percent signs follows a backslash. *)
Theorem texify_output_is_escaped (s : str) :
  Forall (fun c => c ∉ rewritten_chars) (texify s)
  /\ percents_escaped None (texify s).
Proof.
  split; [|apply texify_escapes_percents].
  apply Forall_forall. intros c Hc Hr.
  by apply (texify_removes_rewritten c s).
Qed.

(** X2.  [texify] is idempotent on every string. *)
Theorem texify_idempotent (s : str) : texify (texify s) = texify s.
Proof.
  rewrite (texify_unfold (texify s)).
  unfold newline_to_break, escape_percent, plain_right_quote,
    plain_left_quote, plain_apostrophe, dash_to_hyphens, escape_minus,
    strip_carriage_returns.
  rewrite (subst_char_absent CR)
    by (apply texify_removes_rewritten; by_computation).
  rewrite (subst_char_absent EN_DASH)
    by (apply texify_removes_rewritten; by_computation).
  rewrite (subst_char_absent EM_DASH)
    by (apply texify_removes_rewritten; by_computation).
  rewrite (subst_char_absent RSQUO)
    by (apply texify_removes_rewritten; by_computation).
  rewrite (subst_char_absent LDQUO)
    by (apply texify_removes_rewritten; by_computation).
  rewrite (subst_char_absent RDQUO)
    by (apply texify_removes_rewritten; by_computation).
  rewrite (percents_escaped_fixed None)
    by apply texify_escapes_percents.
  apply subst_char_absent, texify_removes_rewritten. by_computation.
Qed.

(** ** The dictionary of classes *)

Lemma keys_dict_set {V} (d : dict str V) (k : str) (v : V) :
  keys (dict_set d k v)
  = if bool_decide (k ∈ keys d) then keys d else keys d ++ [k].
Proof.
  unfold keys. induction d as [|[k0 v0] d IH]; simpl; [done|].
  destruct (decide (k0 = k)) as [->|Hk]; simpl.
  - rewrite bool_decide_eq_true_2; [done | constructor].
  - rewrite IH. destruct (bool_decide (k ∈ map fst d)) eqn:E.
    + apply bool_decide_eq_true in E.
      rewrite bool_decide_eq_true_2; [done | by constructor].
    + apply bool_decide_eq_false in E.
      rewrite bool_decide_eq_false_2; [done|].
      intros [?|?]%elem_of_cons; congruence.
Qed.

Lemma dict_set_NoDup {V} (d : dict str V) (k : str) (v : V) :
  NoDup (keys d) -> NoDup (keys (dict_set d k v)).
Proof.
  intros Hd. rewrite keys_dict_set. case_bool_decide as Hk; [done|].
  apply NoDup_app. split; [done|]. split; [|apply NoDup_singleton].
  intros x Hx ->%list_elem_of_singleton. done.
Qed.

Lemma dict_set_Forall {V} (P : str * V -> Prop) (d : dict str V)
    (k : str) (v : V) :
  Forall P d -> (forall k', P (k', v)) -> Forall P (dict_set d k v).
Proof.
  intros Hd Hv. induction Hd as [|[k0 v0] d H0 Hd IH]; simpl.
  - by repeat constructor.
  - case_decide; constructor; auto.
Qed.

Lemma dict_set_nonempty {V} (d : dict str V) (k : str) (v : V) :
  dict_set d k v <> [].
Proof.
  destruct d as [|[k0 v0] d]; simpl; [discriminate|].
  case_decide; discriminate.
Qed.

Lemma digit_value_range (c : char) (n : Z) :
  digit_value c = Some n -> (0 <= n <= 9)%Z.
Proof.
  unfold digit_value.
  destruct (List.find (fun z => N.leb z c && N.leb c (z + 9))
              decimal_zeros) as [z|] eqn:E; [|done].
  apply List.find_some in E as [_ E].
  apply andb_true_iff in E as [H1 H2].
  apply N.leb_le in H1, H2. intros [= <-]. lia.
Qed.

Lemma split_from_nonempty (sep : str) (skip : nat) (s : str) :
  split_from sep skip s <> [].
Proof.
  revert skip. induction s as [|c s IH]; intros skip; cbn [split_from];
    [discriminate|].
  destruct skip; [|apply IH].
  destruct (startswith (c :: s) sep); [discriminate|].
  destruct (split_from sep 0 s); discriminate.
Qed.

Lemma classes_loop_wellformed (l : list str) (d d' : dict str Z)
    (w w' : World) :
  NoDup (keys d) -> Forall (fun kv => (0 <= snd kv <= 9)%Z) d ->
  (l <> [] \/ d <> []) ->
  Spells.classes_loop l d w = (Ok d', w') ->
  wellformed_classes d' /\ w' = w.
Proof.
  revert d. induction l as [|e l IH]; intros d Hnd Hall Hne Hrun.
  - cbn in Hrun. injection Hrun as <- <-.
    split; [|done]. split; [|done]. by destruct Hne.
  - destruct (entry_level e) as [n|] eqn:Hn.
    + rewrite (classes_loop_step e l d n w Hn) in Hrun.
      apply IH in Hrun; [done| | |].
      * by apply dict_set_NoDup.
      * apply dict_set_Forall; [done|]. intros k'. simpl.
        unfold entry_level in Hn.
        destruct (last e); [|done]. by apply digit_value_range in Hn.
      * right. apply dict_set_nonempty.
    + destruct (classes_loop_bad e l d w Hn) as (err & E & _).
      rewrite E in Hrun. discriminate.
Qed.

(** X3.  Whenever [_classes_from_span] returns a dictionary, it is not
    empty, its levels lie between 0 and 9, no warning was emitted, and
    [_level_from_classes] returns a summary for it: the summary never raises
    inside [soup2dict]. On an empty dictionary it would raise [IndexError]. *)
Theorem classes_always_have_a_summary (span : node) (w w' : World)
    (d : dict str Z) :
  Spells._classes_from_span span w = (Ok (Some d), w') ->
  wellformed_classes d /\ w' = w
  /\ (exists v w'', Spells._level_from_classes d w' = (Ok v, w''))
  /\ fst (Spells._level_from_classes [] w') = Raise IndexError.
Proof.
  intros Hrun.
  unfold Spells._classes_from_span, Spells._get_text_from_simple_tag in Hrun.
  destruct (Spells.find_label span "Level") as [[tag sibs]|].
  - unfold bind in Hrun. cbn [ret] in Hrun.
    destruct (Spells.classes_loop _ [] w) as [[d0|e] w0] eqn:Eloop;
      [|discriminate].
    injection Hrun as <- <-.
    apply classes_loop_wellformed in Eloop as [Hwf ->].
    + split; [done|]. split; [done|]. split; [|done].
      destruct Hwf as (Hne & Hnd & _).
      destruct (level_summary_general d0 w Hne Hnd) as (v & w'' & Hv & _).
      by exists v, w''.
    + constructor.
    + constructor.
    + left. apply split_from_nonempty.
  - cbn in Hrun. discriminate.
Qed.

(** ** The keys of a record *)

Lemma keys_fold_ops (ops : list (str * option value)) (json : dict str value) :
  NoDup (map fst ops) ->
  (forall k, k ∈ keys json -> k ∉ map fst ops) ->
  keys (fold_left apply_op ops json)
  = keys json ++ map fst (filter (fun op => is_Some (snd op)) ops).
Proof.
  revert json. induction ops as [|[k v] ops IH]; intros json Hnd Hfresh.
  - simpl. by rewrite app_nil_r.
  - cbn [map fst] in Hnd. apply NoDup_cons in Hnd as [Hk Hnd].
    cbn [fold_left]. rewrite IH; [|done|].
    + unfold apply_op. cbn [fst snd]. rewrite filter_cons. cbn [snd].
      destruct v as [v|].
      * rewrite decide_True by done. rewrite keys_dict_set.
        rewrite bool_decide_eq_false_2.
        2:{ intros Hin. apply (Hfresh k Hin). constructor. }
        cbn [map fst]. by rewrite <- app_assoc.
      * rewrite decide_False; [done|]. by intros [x Hx].
    + intros k' Hk'. unfold apply_op in Hk'. cbn [fst snd] in Hk'.
      destruct v as [v|].
      * rewrite keys_dict_set in Hk'. case_bool_decide.
        -- intros Hin. apply (Hfresh k' Hk'). by constructor.
        -- apply elem_of_app in Hk' as [Hk'|Hk'].
           ++ intros Hin. apply (Hfresh k' Hk'). by constructor.
           ++ apply list_elem_of_singleton in Hk'. by subst k'.
      * intros Hin. apply (Hfresh k' Hk'). by constructor.
Qed.

Lemma keys_of_ops (ops : list (str * option value)) :
  NoDup (map fst ops) ->
  keys (fold_left apply_op ops [])
  = map fst (filter (fun op => is_Some (snd op)) ops).
Proof.
  intros Hnd. rewrite keys_fold_ops; [done|done|].
  intros k Hk. by apply elem_of_nil in Hk.
Qed.

Lemma keys_of_ops_sublist (ops : list (str * option value)) :
  NoDup (map fst ops) ->
  keys (fold_left apply_op ops []) `sublist_of` map fst ops.
Proof.
  intros Hnd. rewrite keys_of_ops by done.
  apply (fmap_sublist fst), sublist_filter.
Qed.

Lemma key_of_ops (ops : list (str * option value)) (k : str) :
  NoDup (map fst ops) ->
  k ∈ keys (fold_left apply_op ops [])
  <-> exists v, (k, Some v) ∈ ops.
Proof.
  intros Hnd. rewrite keys_of_ops by done. split.
  - intros ([k' v] & -> & Hin)%list_elem_of_fmap.
    apply list_elem_of_filter in Hin as [[x Hx] Hin]. simpl in Hx.
    subst v. by exists x.
  - intros [v Hin]. apply list_elem_of_fmap. exists (k, Some v).
    split; [done|]. apply list_elem_of_filter. split; [by eexists | done].
Qed.

Lemma spell_set_unless_None_op (json : dict str value) (k : string)
    (v : option str) :
  Spells.set_unless_None json k v = apply_op json (py k, VStr <$> v).
Proof. by destruct v. Qed.

Lemma spell_set_always_op (json : dict str value) (k : string)
    (v : option str) :
  Spells.set_always json k v
  = apply_op json
      (py k, Some (match v with Some s => VStr s | None => VNone end)).
Proof. done. Qed.

Lemma dict_set_op (json : dict str value) (k : str) (v : value) :
  dict_set json k v = apply_op json (k, Some v).
Proof. done. Qed.

Lemma duration_is_some (span : node) (w w1 : World) (r : option str) :
  Spells._duration_from_span span w = (Ok r, w1) -> is_Some r.
Proof.
  unfold Spells._duration_from_span, bind.
  destruct (Spells._ATE_from_span span "Duration" w) as [[[d|]|e] w2];
    cbn; try discriminate.
  intros [= <- _]. by eexists.
Qed.

Lemma save_is_some (span : node) (w w1 : World) (r : option str) :
  Spells._save_from_span span w = (Ok r, w1) -> is_Some r.
Proof.
  unfold Spells._save_from_span, Spells._get_text_from_simple_tag, bind.
  destruct (Spells.find_label span "Saving Throw") as [[tag sibs]|]; cbn;
    intros [= <- _]; by eexists.
Qed.

Lemma sr_is_some (span : node) (w w1 : World) (r : option str) :
  Spells._sr_from_span span w = (Ok r, w1) -> is_Some r.
Proof.
  unfold Spells._sr_from_span, Spells._get_text_from_simple_tag, bind.
  destruct (Spells.find_label span "Spell Resistance") as [[tag sibs]|]; cbn;
    intros [= <- _]; by eexists.
Qed.

Ltac to_ops :=
  rewrite ?spell_set_unless_None_op, ?spell_set_always_op, ?dict_set_op.

Ltac in_ops :=
  repeat first [ apply list_elem_of_here | apply list_elem_of_further ].

Lemma ops_functional {V} (ops : list (str * V)) (k : str) (a b : V) :
  NoDup (map fst ops) -> (k, a) ∈ ops -> (k, b) ∈ ops -> a = b.
Proof.
  induction ops as [|[k0 v0] ops IH]; intros Hnd Ha Hb.
  - by apply elem_of_nil in Ha.
  - cbn [map fst] in Hnd. apply NoDup_cons in Hnd as [Hk Hnd].
    apply elem_of_cons in Ha as [Ha|Ha], Hb as [Hb|Hb].
    + congruence.
    + injection Ha as -> ->. exfalso. apply Hk.
      apply list_elem_of_fmap. by exists (k0, b).
    + injection Hb as -> ->. exfalso. apply Hk.
      apply list_elem_of_fmap. by exists (k0, a).
    + by apply IH.
Qed.

Lemma spell_keys_of_record (soup : node) (w w' : World)
    (json : dict str value) :
  Spells.soup2dict soup w = (Ok json, w') ->
  keys json `sublist_of` spell_key_order
  /\ (forall k, k ∈ spell_keys_always -> k ∈ keys json)
  /\ (py "classes" ∈ keys json <-> py "level" ∈ keys json).
Proof.
  intros H. unfold Spells.soup2dict in H. cbv zeta in H.
  run_step H Espan span w1.
  run_step H Ename name w2.
  run_step H Esource source w3.
  run_step H Eschool school w4.
  run_step H Eclasses classes w5.
  run_step H Eblock json3 w6.
  run_step H Etime time w7.
  run_step H Ecomponents components w8.
  run_step H Erange range w9.
  run_step H Earea area w10.
  run_step H Etarget target w11.
  run_step H Eeffect effect w12.
  run_step H Ewarn done_ w13.
  run_step H Eduration duration w14.
  run_step H Esave save w15.
  run_step H Esr sr w16.
  run_step H Edescription description w17.
  injection H as <- <-.
  apply duration_is_some in Eduration as [duration' ->].
  apply save_is_some in Esave as [save' ->].
  apply sr_is_some in Esr as [sr' ->].
  assert (Hblock : exists level : option value,
            (is_Some level <-> is_Some classes)
            /\ json3 = fold_left apply_op
                 [(py "name", Some (VStr name));
                  (py "source", VStr <$> source);
                  (py "school", VStr <$> school);
                  (py "classes", VDict <$> classes);
                  (py "level", level)] []).
  { destruct classes as [classes|].
    - unfold bind in Eblock.
      destruct (Spells._level_from_classes classes w5) as [[level|e] w0];
        [|discriminate Eblock].
      injection Eblock as <- _. exists (Some level).
      split; [split; intros _; by eexists|]. to_ops. reflexivity.
    - injection Eblock as <- _. exists None.
      split; [split; intros [x Hx]; discriminate|]. to_ops. reflexivity. }
  destruct Hblock as (level & Hlevel & ->).
  to_ops.
  match goal with
  | |- context [keys ?j] =>
      change j with
        (fold_left apply_op
           [(py "name", Some (VStr name));
            (py "source", VStr <$> source);
            (py "school", VStr <$> school);
            (py "classes", VDict <$> classes);
            (py "level", level);
            (py "time", VStr <$> time);
            (py "components", VStr <$> components);
            (py "range", VStr <$> range);
            (py "area",
             Some (match area with Some s => VStr s | None => VNone end));
            (py "target",
             Some (match target with Some s => VStr s | None => VNone end));
            (py "effect",
             Some (match effect with Some s => VStr s | None => VNone end));
            (py "duration", VStr <$> Some duration');
            (py "save", VStr <$> Some save');
            (py "sr", VStr <$> Some sr');
            (py "description", VStr <$> description)] [])
  end.
  set (ops := [(py "name", Some (VStr name)); _; _; _; _; _; _; _; _; _; _;
               _; _; _; _]).
  assert (Hnd : NoDup (map fst ops)) by by_computation.
  split; [|split].
  - apply (keys_of_ops_sublist ops Hnd).
  - intros k Hk. apply key_of_ops; [done|].
    unfold spell_keys_always in Hk. cbn [map] in Hk.
    repeat (apply elem_of_cons in Hk as [->|Hk]);
      [ | | | | | | | by apply elem_of_nil in Hk];
      eexists; subst ops; cbn [fmap option_fmap option_map]; in_ops.
  - rewrite !key_of_ops by done.
    assert (Hc : (py "classes", VDict <$> classes) ∈ ops)
      by (subst ops; in_ops).
    assert (Hl : (py "level", level) ∈ ops) by (subst ops; in_ops).
    split; intros [v Hv].
    + pose proof (ops_functional ops _ _ _ Hnd Hv Hc) as E.
      destruct classes as [c|]; [|discriminate E].
      destruct (proj2 Hlevel ltac:(by eexists)) as [lv ->]. by exists lv.
    + pose proof (ops_functional ops _ _ _ Hnd Hv Hl) as E. subst level.
      destruct (proj1 Hlevel ltac:(by eexists)) as [c ->].
      by exists (VDict c).
Qed.

Lemma item_set_unless_None_op (json : dict str value) (k : string)
    (v : option str) :
  Items.set_unless_None json k v = apply_op json (py k, VStr <$> v).
Proof. by destruct v. Qed.

Lemma item_set_always_op (json : dict str value) (k : string)
    (v : option str) :
  Items.set_always json k v
  = apply_op json
      (py k, Some (match v with Some s => VStr s | None => VNone end)).
Proof. done. Qed.

Lemma item_keys_of_record (soup : node) (w w' : World)
    (json : dict str value) :
  Items.soup2dict soup w = (Ok json, w') ->
  keys json `sublist_of` item_key_order
  /\ (forall k, k ∈ item_keys_always -> k ∈ keys json).
Proof.
  intros H. unfold Items.soup2dict in H. cbv zeta in H.
  run_step H Etable table w1.
  run_step H Espan span w2.
  run_step H Ename name w3.
  destruct span as [span|]; [|discriminate H].
  run_step H Esource source w4.
  run_step H Eaura aura w5.
  run_step H Ecl cl w6.
  run_step H Eslot slot w7.
  run_step H Eprice price w8.
  run_step H Eweight weight w9.
  run_step H Edescription description w10.
  run_step H Econstruction construction w11.
  destruct construction as [[[feat spells] others]|]; [|discriminate H].
  injection H as <- <-.
  rewrite ?item_set_unless_None_op, ?item_set_always_op.
  match goal with
  | |- context [keys ?j] =>
      change j with
        (fold_left apply_op
           [(py "name", VStr <$> Some name);
            (py "source", VStr <$> source);
            (py "aura", VStr <$> aura);
            (py "cl", VStr <$> cl);
            (py "slot", VStr <$> slot);
            (py "price", VStr <$> price);
            (py "weight", VStr <$> weight);
            (py "description", VStr <$> description);
            (py "feat",
             Some (match feat with Some s => VStr s | None => VNone end));
            (py "spells",
             Some (match spells with Some s => VStr s | None => VNone end));
            (py "other_requirements",
             Some (match others with Some s => VStr s | None => VNone end))]
           [])
  end.
  set (ops := [(py "name", VStr <$> Some name); _; _; _; _; _; _; _; _; _; _]).
  assert (Hnd : NoDup (map fst ops)) by by_computation.
  split.
  - apply (keys_of_ops_sublist ops Hnd).
  - intros k Hk. apply key_of_ops; [done|].
    unfold item_keys_always in Hk. cbn [map] in Hk.
    repeat (apply elem_of_cons in Hk as [->|Hk]);
      [ | | | | by apply elem_of_nil in Hk];
      eexists; subst ops; cbn [fmap option_fmap option_map]; in_ops.
Qed.

(** X4.  Every record that the spells script assembles has its keys in the
    order [name, source, school, classes, level, time, components, range,
    area, target, effect, duration, save, sr, description], each at most
    once; it always has [name], [area], [target], [effect], [duration],
    [save] and [sr]; and it has [classes] exactly when it has [level]. *)
Theorem spell_record_keys (soup : node) (w w' : World)
    (json : dict str value) :
  Spells.soup2dict soup w = (Ok json, w') ->
  keys json `sublist_of` spell_key_order
  /\ (forall k, k ∈ spell_keys_always -> k ∈ keys json)
  /\ (py "classes" ∈ keys json <-> py "level" ∈ keys json).
Proof. apply spell_keys_of_record. Qed.

(** X5.  Every record that the items script assembles has its keys in the
    order [name, source, aura, cl, slot, price, weight, description, feat,
    spells, other_requirements], each at most once, and it always has
    [name], [feat], [spells] and [other_requirements]. *)
Theorem item_record_keys (soup : node) (w w' : World)
    (json : dict str value) :
  Items.soup2dict soup w = (Ok json, w') ->
  keys json `sublist_of` item_key_order
  /\ (forall k, k ∈ item_keys_always -> k ∈ keys json).
Proof. apply item_keys_of_record. Qed.

(** ** The warnings of a whole run *)

Ltac fixed_warning := left; by_computation.

Lemma known_abbreviation (m : str) : about_abbreviation m -> known_warning m.
Proof. intros H. right. by left. Qed.

Lemma known_unknown_tag (m : str) : about_unknown_tag m -> known_warning m.
Proof. intros H. right. by right. Qed.

Lemma logs_simple_tag (P : str -> Prop) (span : node) (s : string)
    (warnname : option string) :
  (forall wn, warnname = Some wn ->
     P (py "Could not find " ++ py s ++ py " tag. Skipping element '"
        ++ py wn ++ py "'.")) ->
  logs P (Spells._get_text_from_simple_tag span s warnname).
Proof.
  intros HP. unfold Spells._get_text_from_simple_tag.
  destruct (Spells.find_label span s) as [[tag sibs]|]; [apply logs_ret|].
  destruct warnname as [wn|]; [|apply logs_ret].
  apply logs_bind; [|intros; apply logs_ret]. apply logs_warn. by apply HP.
Qed.

Lemma logs_ATE (P : str -> Prop) (span : node) (ATE : string) :
  logs P (Spells._ATE_from_span span ATE).
Proof.
  unfold Spells._ATE_from_span.
  apply logs_bind; [apply logs_simple_tag_unnamed|].
  intros [t|]; apply logs_ret.
Qed.

Lemma logs_spell_soup2dict (soup : node) :
  logs known_warning (Spells.soup2dict soup).
Proof.
  unfold Spells.soup2dict. cbv zeta.
  apply logs_bind; [apply logs_first_span|]. intros span.
  apply logs_bind; [apply logs_spell_name|]. intros name.
  apply logs_bind.
  { unfold Spells._source_from_span.
    destruct (Spells.find_label span "Source") as [[tag sibs]|].
    - destruct (Spells.sources_raw_of sibs) as [|first rest].
      + apply logs_bind; [|intros; apply logs_ret].
        apply logs_warn. fixed_warning.
      + destruct (contains _ _); [apply logs_ret|].
        apply logs_bind; [|intros; apply logs_ret].
        eapply logs_weaken; [|apply logs_abbreviate].
        apply known_abbreviation.
    - apply logs_bind; [|intros; apply logs_ret].
      apply logs_warn. fixed_warning. }
  intros source. apply logs_bind.
  { unfold Spells._school_from_span.
    destruct (Spells.find_label span "School") as [[tag sibs]|];
      [apply logs_ret|].
    apply logs_bind; [|intros; apply logs_ret].
    apply logs_warn. fixed_warning. }
  intros school. apply logs_bind.
  { unfold Spells._classes_from_span. apply logs_bind.
    - apply logs_simple_tag. intros wn [= <-]. fixed_warning.
    - intros [t|]; [|apply logs_ret].
      apply logs_bind; [apply logs_classes_loop|]. intros; apply logs_ret. }
  intros classes. apply logs_bind.
  { destruct classes as [classes|]; [|apply logs_ret].
    apply logs_bind; [|intros; apply logs_ret].
    eapply logs_weaken; [|apply logs_level_from_classes].
    apply known_abbreviation. }
  intros json. apply logs_bind.
  { unfold Spells._time_from_span. apply logs_bind.
    - apply logs_simple_tag. intros wn [= <-]. fixed_warning.
    - intros [t|]; apply logs_ret. }
  intros time. apply logs_bind.
  { unfold Spells._components_from_span. apply logs_bind.
    - apply logs_simple_tag. intros wn [= <-]. fixed_warning.
    - intros [t|]; apply logs_ret. }
  intros components. apply logs_bind.
  { unfold Spells._range_from_span. apply logs_bind.
    - apply logs_simple_tag. intros wn [= <-]. fixed_warning.
    - intros [t|]; [|apply logs_ret].
      destruct (List.find _ _); apply logs_ret. }
  intros range.
  apply logs_bind; [apply logs_ATE|]. intros area.
  apply logs_bind.
  { unfold Spells._target_from_span.
    apply logs_bind; [apply logs_ATE|].
    intros [t|]; [apply logs_ret | apply logs_ATE]. }
  intros target.
  apply logs_bind; [apply logs_ATE|]. intros effect.
  apply logs_bind.
  { destruct area, target, effect; try apply logs_ret.
    apply logs_warn. fixed_warning. }
  intros _. apply logs_bind.
  { unfold Spells._duration_from_span.
    apply logs_bind; [apply logs_ATE|]. intros duration.
    apply logs_bind.
    - destruct duration; [apply logs_ret|]. apply logs_warn. fixed_warning.
    - intros _. apply logs_bind; [|intros; apply logs_ret].
      destruct duration; [apply logs_ret | apply logs_raise]. }
  intros duration.
  apply logs_bind; [apply logs_save|]. intros save.
  apply logs_bind; [apply logs_sr|]. intros sr.
  apply logs_bind; [|intros; apply logs_ret].
  unfold Spells._description_from_span.
  destruct (Spells.find_heading span "Description") as [[tag sibs]|].
  - apply logs_bind; [|intros; apply logs_ret].
    eapply logs_weaken; [|apply logs_description_pieces].
    apply known_unknown_tag.
  - apply logs_bind; [|intros; apply logs_ret].
    apply logs_warn. fixed_warning.
Qed.

Lemma logs_item_soup2dict (soup : node) :
  logs known_warning (Items.soup2dict soup).
Proof.
  unfold Items.soup2dict. cbv zeta.
  apply logs_bind; [apply logs_child_tag|]. intros table.
  apply logs_bind; [apply logs_child_tag|]. intros span.
  apply logs_bind; [apply logs_item_name|]. intros name.
  destruct span as [span|]; [|apply logs_raise].
  apply logs_bind.
  { unfold Items._source_from_span.
    destruct (_ <? 7)%Z.
    { apply logs_bind; [|intros; apply logs_ret].
      apply logs_warn. fixed_warning. }
    destruct (_ =? -1)%Z.
    { apply logs_bind; [|intros; apply logs_ret].
      apply logs_warn. fixed_warning. }
    destruct (contains _ _); [apply logs_ret|].
    apply logs_bind; [apply logs_getitem|]. intros source.
    apply logs_bind; [|intros; apply logs_ret].
    eapply logs_weaken; [|apply logs_abbreviate].
    apply known_abbreviation. }
  intros source. apply logs_bind.
  { unfold Items._aura_from_span.
    destruct (_ <? 5)%Z.
    { apply logs_bind; [|intros; apply logs_ret].
      apply logs_warn. fixed_warning. }
    destruct (_ =? -1)%Z; [|apply logs_ret].
    apply logs_bind; [|intros; apply logs_ret].
    apply logs_warn. fixed_warning. }
  intros aura. apply logs_bind.
  { unfold Items._CL_from_span.
    destruct (Items.find_label span "CL") as [[tag sibs]|];
      [apply logs_ret|].
    apply logs_bind; [|intros; apply logs_ret].
    apply logs_warn. fixed_warning. }
  intros cl. apply logs_bind.
  { unfold Items._slot_from_span.
    destruct (Items.find_label span "Slot") as [[tag sibs]|].
    - apply logs_bind; [apply logs_drop_final_semicolon|]. intros slot.
      destruct (str_eqb _ _); apply logs_ret.
    - apply logs_bind; [|intros; apply logs_ret].
      apply logs_warn. fixed_warning. }
  intros slot. apply logs_bind.
  { unfold Items._price_from_span.
    destruct (Items.find_label span "Price") as [[tag sibs]|].
    - apply logs_bind; [apply logs_drop_final_semicolon|].
      intros; apply logs_ret.
    - apply logs_bind; [|intros; apply logs_ret].
      apply logs_warn. fixed_warning. }
  intros price. apply logs_bind.
  { unfold Items._weight_from_span.
    destruct (Items.find_label span "Weight") as [[tag sibs]|].
    - destruct (str_eqb _ _); apply logs_ret.
    - apply logs_bind; [|intros; apply logs_ret].
      apply logs_warn. fixed_warning. }
  intros weight. apply logs_bind.
  { unfold Items._description_from_span.
    destruct (Items.find_heading span "Description") as [[tag sibs]|].
    - apply logs_bind.
      { eapply logs_weaken; [|apply logs_description_pieces].
        apply known_unknown_tag. }
      intros pieces. apply logs_bind; [|intros; apply logs_ret].
      destruct (snd pieces); [apply logs_ret|].
      apply logs_warn. fixed_warning.
    - apply logs_bind; [|intros; apply logs_ret].
      apply logs_warn. fixed_warning. }
  intros description. apply logs_bind.
  { unfold Items._construction_from_span.
    destruct (Items.find_heading span "Construction") as [[tag sibs]|].
    - destruct sibs; [apply logs_raise | apply logs_ret].
    - apply logs_bind; [|intros; apply logs_ret].
      apply logs_warn. fixed_warning. }
  intros [[[feat spells] others]|]; [apply logs_ret | apply logs_raise].
Qed.

(** X6.  Whether it returns or raises, [soup2dict] of either script leaves
    the table of abbreviations as it is and keeps the warnings emitted
    before; each warning that it adds is one of the fixed messages of the
    scripts, or reports a name without abbreviation or an unknown tag. *)
Theorem soup2dict_only_adds_known_warnings (soup : node) (w : World) :
  (exists log,
     snd (Spells.soup2dict soup w) = add_log w log
     /\ Forall known_warning log)
  /\ (exists log,
        snd (Items.soup2dict soup w) = add_log w log
        /\ Forall known_warning log).
Proof.
  split; [apply logs_spell_soup2dict | apply logs_item_soup2dict].
Qed.

(** ** The caster level, the slot and the price of an item *)

Lemma re_sub_from_keep_range (lo hi : char) (prev : option char) (s : str) :
  re_sub_from [One (NotInRange lo hi)] [] prev 0 s
  = List.filter (fun c => N.leb lo c && N.leb c hi) s.
Proof.
  revert prev. induction s as [|c s IH]; intros prev; [done|].
  cbn [re_sub_from match_here atom_matches List.filter].
  destruct (N.leb lo c && N.leb c hi); cbn.
  - by rewrite IH.
  - by rewrite IH.
Qed.

(** X7.  The caster level that [_CL_from_span] returns is the text after the
    CL label with everything but the digits 0 to 9 removed; no warning is
    emitted when the label is found. *)
Theorem CL_keeps_only_digits (span : node) (w w' : World) (cl : str) :
  Items._CL_from_span span w = (Ok (Some cl), w') ->
  Forall (fun c => is_ascii_digit c = true) cl
  /\ w' = w
  /\ exists tag sibs,
       Items.find_label span "CL" = Some (tag, sibs)
       /\ cl = List.filter is_ascii_digit (str_of_next_sibling sibs).
Proof.
  unfold Items._CL_from_span.
  destruct (Items.find_label span "CL") as [[tag sibs]|]; [|discriminate].
  intros [= <- <-]. unfold re_sub. rewrite re_sub_from_keep_range.
  split; [|split; [done|]].
  - apply Forall_forall. intros c Hc.
    apply list_elem_of_In, List.filter_In in Hc. apply Hc.
  - by exists tag, sibs.
Qed.

Lemma drop_final_semicolon_empty (w : World) :
  Items.drop_final_semicolon [] w = (Raise IndexError, w).
Proof. done. Qed.

Lemma drop_final_semicolon_run (s : str) (w : World) :
  s <> [] ->
  Items.drop_final_semicolon s w
  = (Ok (if bool_decide (last s = Some (chr ";")) then removelast s else s),
     w).
Proof.
  intros Hs. unfold Items.drop_final_semicolon, bind.
  destruct (last s) as [c|] eqn:Hl.
  - rewrite (getitem_last s c w Hl). rewrite slice_all_but_last.
    destruct (char_eqb c (chr ";")) eqn:E.
    + apply N.eqb_eq in E. subst c. by rewrite bool_decide_eq_true_2.
    + rewrite bool_decide_eq_false_2; [done|].
      intros [= ->]. unfold char_eqb in E. by rewrite N.eqb_refl in E.
  - by apply last_None in Hl.
Qed.

(** X8.  When the text after the Slot label, or the text between the Price
    label and the next bold element or heading, is empty once stripped, the
    extraction raises [IndexError]; otherwise it returns the text without
    one final semicolon, and a slot that is exactly an em-dash becomes [--]. *)
Theorem empty_slot_or_price_raises (span tag : node) (sibs : list node)
    (w : World) :
  (Items.find_label span "Slot" = Some (tag, sibs) ->
   let slot := strip (str_of_next_sibling sibs) in
   Items._slot_from_span span w
   = if bool_decide (slot = []) then (Raise IndexError, w)
     else
       let slot :=
         if bool_decide (last slot = Some (chr ";"))
         then removelast slot else slot in
       (Ok (Some (if bool_decide (slot = [EM_DASH]) then py "--" else slot)),
        w))
  /\ (Items.find_label span "Price" = Some (tag, sibs) ->
      let price := strip (concat (Items.price_texts sibs)) in
      Items._price_from_span span w
      = if bool_decide (price = []) then (Raise IndexError, w)
        else
          (Ok (Some (if bool_decide (last price = Some (chr ";"))
                     then removelast price else price)), w)).
Proof.
  split; intros Hfind; cbv zeta.
  - unfold Items._slot_from_span. rewrite Hfind. unfold bind.
    case_bool_decide as Hs.
    + by rewrite Hs.
    + rewrite drop_final_semicolon_run by done. unfold str_eqb.
      match goal with
      | |- context [bool_decide (?x = [EM_DASH])] =>
          destruct (decide (x = [EM_DASH]));
            [ rewrite !(bool_decide_eq_true_2 (x = [EM_DASH])) by done
            | rewrite !(bool_decide_eq_false_2 (x = [EM_DASH])) by done ]
      end; reflexivity.
  - unfold Items._price_from_span. rewrite Hfind. unfold bind.
    case_bool_decide as Hs.
    + by rewrite Hs.
    + by rewrite drop_final_semicolon_run by done.
Qed.

(** ** The description *)

Lemma bind_ext {A B} (c : M A) (k k' : A -> M B) (w : World) :
  (forall a w1, k a w1 = k' a w1) -> bind c k w = bind c k' w.
Proof.
  intros H. unfold bind. destruct (c w) as [[a|e] w1]; [apply H | done].
Qed.

(** X9.  Nothing after the heading that closes the description reaches it:
    the text, the warnings and the outcome are the same whatever follows. *)
Theorem description_stops_at_heading (stops : list str) (pre : list node)
    (nm : str) (cs post post' : list node) (w : World) :
  nm ∈ stops ->
  description_pieces stops (pre ++ Tag nm cs :: post) w
  = description_pieces stops (pre ++ Tag nm cs :: post') w.
Proof.
  intros Hnm. revert w. induction pre as [|[s|n xs] pre IH]; intros w.
  - cbn [app description_pieces]. by rewrite !bool_decide_eq_true_2.
  - cbn [app description_pieces]. unfold bind. by rewrite IH.
  - cbn [app description_pieces]. case_bool_decide; try done.
    apply bind_ext. intros piece w1. unfold bind. by rewrite IH.
Qed.






(** ** Searching the tree *)

Lemma node_nested_ind (P : node -> Prop) :
  (forall s, P (NavigableString s)) ->
  (forall nm cs, Forall P cs -> P (Tag nm cs)) ->
  forall n, P n.
Proof.
  intros Hs Ht. fix IH 1. intros [s|nm cs]; [apply Hs|]. apply Ht.
  revert cs. fix IHcs 1. intros [|c cs]; constructor.
  - apply IH.
  - apply IHcs.
Qed.

Lemma find_tag_passes (p : node -> bool) (n x : node) (sibs : list node) :
  find_tag p n = Some (x, sibs) -> is_tag x = true /\ p x = true.
Proof.
  revert x sibs. induction n as [s|nm cs IH] using node_nested_ind;
    intros x sibs; [discriminate|].
  cbn [find_tag]. induction IH as [|c cs Hc Hcs IHcs]; [discriminate|].
  destruct (is_tag c && p c) eqn:E.
  - intros [= <- <-]. by apply andb_true_iff in E.
  - destruct (find_tag p c) as [[y ys]|] eqn:Ec.
    + intros [= <- <-]. by eapply Hc.
    + apply IHcs.
Qed.

Lemma find_all_pass (p : node -> bool) (n : node) :
  Forall (fun x => is_tag x = true /\ p x = true) (find_all p n).
Proof.
  induction n as [s|nm cs IH] using node_nested_ind; [constructor|].
  cbn [find_all]. induction IH as [|c cs Hc Hcs IHcs]; [constructor|].
  cbn [map concat]. apply Forall_app. split; [|done].
  apply Forall_app. split; [|done].
  destruct (is_tag c && p c) eqn:E; constructor; [|constructor].
  by apply andb_true_iff in E.
Qed.

Lemma named_is (name : string) (n : node) :
  named name n = true -> exists cs, n = Tag (py name) cs.
Proof.
  destruct n as [s|nm cs]; [discriminate|]. cbn. unfold str_eqb.
  intros ->%bool_decide_eq_true. by exists cs.
Qed.

Lemma next_nonempty_span_run (spans : list node) (w w' : World)
    (span : node) :
  Forall (fun x => is_tag x = true /\ named "span" x = true) spans ->
  Spells.next_nonempty_span spans w = (Ok span, w') ->
  w' = w /\ exists c cs, span = Tag (py "span") (c :: cs).
Proof.
  induction 1 as [|x spans [_ Hx] Hspans IH]; [discriminate|].
  apply named_is in Hx as [cs ->]. cbn [Spells.next_nonempty_span].
  destruct cs as [|c cs]; [apply IH|].
  intros [= <- <-]. split; [done|]. by exists c, cs.
Qed.

(** X11.  The span that the spells script reads is a [span] element that is
    not empty; when every [span] of the first table is empty the script
    raises [ValueError], and no warning is emitted by this search. *)
Theorem first_span_is_not_empty (soup : node) (w w' : World)
    (r : result node) :
  Spells.first_span soup w = (r, w') ->
  w' = w
  /\ match r with
     | Ok span => exists c cs, span = Tag (py "span") (c :: cs)
     | Raise e => e = AttributeError \/ e = ValueError
     end.
Proof.
  unfold Spells.first_span, bind.
  destruct soup as [s|nm cs]; [by intros [= <- <-]; split; [|left]|].
  cbn [child_tag ret].
  destruct (find_tag (named "table") (Tag nm cs)) as [[table after]|]
    eqn:Etable; cbn [fmap option_fmap option_map fst child_tag];
    [|by intros [= <- <-]; split; [|left]].
  destruct table as [s|tnm tcs]; [by intros [= <- <-]; split; [|left]|].
  cbn [ret].
  destruct (find_tag (named "span") (Tag tnm tcs)) as [[span after']|]
    eqn:Espan; cbn [fmap option_fmap option_map fst contents_of];
    [|by intros [= <- <-]; split; [|left]].
  destruct (find_tag_passes _ _ _ _ Espan) as [_ Hspan].
  apply named_is in Hspan as [scs ->]. cbn [ret].
  destruct scs as [|c scs].
  - intros Hrun.
    destruct r as [sp|e].
    + eapply next_nonempty_span_run; [|exact Hrun].
      apply Forall_drop, find_all_pass.
    + split.
      * eapply logs_silent; [apply logs_next_nonempty_span | exact Hrun].
      * clear -Hrun. revert Hrun.
        generalize (skipn 1 (find_all (named "span") (Tag tnm tcs))).
        induction l as [|[s|n [|x xs]] l IH];
          cbn [Spells.next_nonempty_span]; try done.
        by intros [= <- _]; right.
  - intros [= <- <-]. split; [done|]. by exists c, scs.
Qed.

(** ** A source without a page reference *)

Lemma slice_drop_last {A} (l : list A) :
  slice l None (Some (-1)%Z) = removelast l.
Proof.
  unfold slice, slice_bound. rewrite removelast_firstn_len.
  change ((-1 <? 0)%Z) with true. cbv iota.
  change (Z.to_nat 0) with 0%nat. rewrite skipn_O.
  destruct l as [|a l]; [done|].
  simpl length.
  replace (Z.max 0 (Z.min (Z.of_nat (S (length l)))
                          (-1 + Z.of_nat (S (length l)))))
    with (Z.of_nat (length l)) by lia.
  by rewrite Z.sub_0_r, Nat2Z.id.
Qed.

(** X12.  When the source that the script keeps holds no [ pg. ], [find]
    answers -1 and the slice [source[:ind]] drops the last character of the
    source: the name that is abbreviated is the source without its last
    character. This holds for the first source of a spell and for the last
    source of an item. *)
Theorem source_without_page_loses_last_char :
  (forall span tag sibs first rest w,
     Spells.find_label span "Source" = Some (tag, sibs) ->
     Spells.sources_raw_of sibs = first :: rest ->
     contains (py "PRPG Core Rulebook") (concat (first :: rest)) = false ->
     find first (py " pg. ") = (-1)%Z ->
     Spells._source_from_span span w
     = (let* a := abbreviate (removelast first) in ret (Some a)) w)
  /\ (forall span source w,
        find (text span) (py "Source ") <> (-1)%Z ->
        find (text span) (py "Aura") <> (-1)%Z ->
        contains (py "PRPG Core Rulebook") (item_source_listing span)
        = false ->
        last (split (item_source_listing span) (py ", ")) = Some source ->
        find source (py " pg. ") = (-1)%Z ->
        Items._source_from_span span w
        = (let* a := abbreviate (removelast source) in ret (Some a)) w).
Proof.
  split.
  - intros span tag sibs first rest w Hf Hs Hc Hp.
    unfold Spells._source_from_span. rewrite Hf, Hs, Hc, Hp.
    by rewrite slice_drop_last.
  - intros span source w Hs Ha Hc Hl Hp.
    unfold Items._source_from_span.
    destruct (items_source_guards span Hs Ha) as [-> ->].
    unfold item_source_listing in Hc, Hl. rewrite Hc.
    unfold bind at 1. rewrite (getitem_last _ source w Hl).
    by rewrite Hp, slice_drop_last.
Qed.

(** ** The two tables of abbreviations *)

Lemma table_of_lookup (l : list (string * string)) (k v : str) :
  NoDup (map (fun kv => py (fst kv)) l) ->
  table_of l !! k = Some v
  <-> (k, v) ∈ map (fun kv => (py (fst kv), py (snd kv))) l.
Proof.
  intros Hnd. unfold table_of. symmetry.
  apply elem_of_list_to_map.
  replace ((map (fun kv => (py (fst kv), py (snd kv))) l).*1)
    with (map (fun kv => py (fst kv)) l); [done|].
  clear. induction l as [|x l IH]; simpl; [done|]. by rewrite IH.
Qed.

(** X14.  In both tables no short code is itself a key, so abbreviating an
    abbreviation changes nothing; and no two names share a short code. *)
Theorem abbreviation_is_idempotent_and_injective (name : str) :
  (abbreviation_of Spells.abbreviations
     (abbreviation_of Spells.abbreviations name)
   = abbreviation_of Spells.abbreviations name)
  /\ (abbreviation_of Items.abbreviations
        (abbreviation_of Items.abbreviations name)
      = abbreviation_of Items.abbreviations name)
  /\ (forall other code,
        Spells.abbreviations !! name = Some code ->
        Spells.abbreviations !! other = Some code -> other = name).
Proof.
  assert (Hs : NoDup (map (fun kv => py (fst kv))
                        (common_abbreviations
                         ++ [("Adventurer's Guide",
                              "PF Adventurer Guide")]%string)))
    by by_computation.
  assert (Hi : NoDup (map (fun kv => py (fst kv)) common_abbreviations))
    by by_computation.
  split; [|split].
  - unfold abbreviation_of at 2 3.
    destruct (Spells.abbreviations !! name) as [code|] eqn:E; simpl;
      [|unfold abbreviation_of; by rewrite E].
    unfold Spells.abbreviations in E. apply table_of_lookup in E; [|done].
    assert (Hall : Forall (fun kv => Spells.abbreviations !! snd kv = None)
              (map (fun kv => (py (fst kv), py (snd kv)))
                 (common_abbreviations
                  ++ [("Adventurer's Guide",
                       "PF Adventurer Guide")]%string)))
      by by_computation.
    rewrite Forall_forall in Hall. specialize (Hall _ E). simpl in Hall.
    unfold abbreviation_of. by rewrite Hall.
  - unfold abbreviation_of at 2 3.
    destruct (Items.abbreviations !! name) as [code|] eqn:E; simpl;
      [|unfold abbreviation_of; by rewrite E].
    unfold Items.abbreviations in E. apply table_of_lookup in E; [|done].
    assert (Hall : Forall (fun kv => Items.abbreviations !! snd kv = None)
              (map (fun kv => (py (fst kv), py (snd kv)))
                 common_abbreviations))
      by by_computation.
    rewrite Forall_forall in Hall. specialize (Hall _ E). simpl in Hall.
    unfold abbreviation_of. by rewrite Hall.
  - intros other code H1 H2. unfold Spells.abbreviations in H1, H2.
    apply table_of_lookup in H1, H2; try done.
    assert (Hcodes : NoDup (map snd
              (map (fun kv => (py (fst kv), py (snd kv)))
                 (common_abbreviations
                  ++ [("Adventurer's Guide",
                       "PF Adventurer Guide")]%string))))
      by by_computation.
    revert H1 H2 Hcodes.
    generalize (map (fun kv => (py (fst kv), py (snd kv)))
                  (common_abbreviations
                   ++ [("Adventurer's Guide",
                        "PF Adventurer Guide")]%string)).
    intros l. induction l as [|[k v] l IH]; intros H1 H2 Hnd.
    + by apply elem_of_nil in H1.
    + cbn [map snd] in Hnd. apply NoDup_cons in Hnd as [Hv Hnd].
      apply elem_of_cons in H1 as [H1|H1], H2 as [H2|H2].
      * congruence.
      * injection H1 as -> ->. exfalso. apply Hv.
        apply list_elem_of_fmap. by exists (other, v).
      * injection H2 as -> ->. exfalso. apply Hv.
        apply list_elem_of_fmap. by exists (name, v).
      * by apply IH.
Qed.

(** ** Fields that end in [texify] *)

Lemma none_if_empty_texify (s : str) :
  safe_or_absent (Items.none_if_empty (texify s)).
Proof.
  unfold safe_or_absent, Items.none_if_empty.
  pose proof (texify_is_markup_safe s) as H.
  destruct (texify s); [done|]. by split.
Qed.

(** X15.  The three construction fields are never the empty string (an empty
    part is [None]) and are always markup-safe. *)
Theorem construction_fields_are_safe (span : node) (w w' : World)
    (feat spells others : option str) :
  Items._construction_from_span span w
  = (Ok (Some (feat, spells, others)), w') ->
  safe_or_absent feat /\ safe_or_absent spells /\ safe_or_absent others.
Proof.
  unfold Items._construction_from_span.
  destruct (Items.find_heading span "Construction") as [[tag sibs]|];
    [|discriminate].
  destruct sibs as [|label after]; [discriminate|].
  unfold Items.split_requirements. cbv zeta.
  destruct (match Items.italic_list_from 0 (Items.requirement_nodes after)
            with [] => _ | _ :: _ => _ end) as [[f s] o].
  intros [= <- <- <- _].
  repeat split; apply none_if_empty_texify.
Qed.

(** X16.  The description of either script and the casting time of a spell
    are markup-safe whenever they are returned. *)
Theorem texified_fields_are_safe (span : node) (w w' : World) (s : str) :
  (Spells._description_from_span span w = (Ok (Some s), w') ->
   markup_safe s)
  /\ (Items._description_from_span span w = (Ok (Some s), w') ->
      markup_safe s)
  /\ (Spells._time_from_span span w = (Ok (Some s), w') -> markup_safe s).
Proof.
  split; [|split].
  - unfold Spells._description_from_span.
    destruct (Spells.find_heading span "Description") as [[tag sibs]|];
      [|discriminate].
    unfold bind. destruct (description_pieces _ sibs w) as [[p|e] w1];
      [|discriminate].
    intros [= <- _]. apply texify_is_markup_safe.
  - unfold Items._description_from_span.
    destruct (Items.find_heading span "Description") as [[tag sibs]|];
      [|discriminate].
    unfold bind. destruct (description_pieces _ sibs w) as [[p|e] w1];
      [|discriminate].
    destruct (snd p); intros [= <- _]; apply texify_is_markup_safe.
  - unfold Spells._time_from_span, Spells._get_text_from_simple_tag, bind.
    destruct (Spells.find_label span "Casting Time") as [[tag sibs]|];
      [|discriminate].
    intros [= <- _]. apply texify_is_markup_safe.
Qed.

(** ** Fields of a spell that never warn *)

(** X17.  Area, Target and Effect never raise and never warn; each is [None]
    exactly when its label is absent, where Target also accepts the label
    Targets. The saving throw and the spell resistance never raise and never
    warn either, and are [none] and [no] when their label is absent. *)
Theorem optional_spell_fields_are_silent (span : node) (w : World) :
  (exists r, Spells._area_from_span span w = (Ok r, w)
             /\ (r = None <-> Spells.find_label span "Area" = None))
  /\ (exists r, Spells._target_from_span span w = (Ok r, w)
                /\ (r = None <-> Spells.find_label span "Target" = None
                                 /\ Spells.find_label span "Targets" = None))
  /\ (exists r, Spells._effect_from_span span w = (Ok r, w)
                /\ (r = None <-> Spells.find_label span "Effect" = None))
  /\ (exists s, Spells._save_from_span span w = (Ok (Some s), w)
                /\ (Spells.find_label span "Saving Throw" = None ->
                    s = py "none"))
  /\ (exists s, Spells._sr_from_span span w = (Ok (Some s), w)
                /\ (Spells.find_label span "Spell Resistance" = None ->
                    s = py "no")).
Proof.
  split; [apply ATE_run|]. split; [apply target_run|].
  split; [apply ATE_run|]. split.
  - unfold Spells._save_from_span, Spells._get_text_from_simple_tag, bind.
    destruct (Spells.find_label span "Saving Throw") as [[tag sibs]|]; cbn;
      eexists; (split; [reflexivity|]); [discriminate | done].
  - unfold Spells._sr_from_span, Spells._get_text_from_simple_tag, bind.
    destruct (Spells.find_label span "Spell Resistance") as [[tag sibs]|];
      cbn; eexists; (split; [reflexivity|]); [discriminate | done].
Qed.

(** ** A page without its heading *)

(** X18.  Without an [h1] in the span the name cannot be read: both scripts
    raise [AttributeError] there, before any warning. *)
Theorem page_without_heading_aborts (soup span : node) (w : World) :
  find_tag (named "h1") span = None ->
  (Spells.first_span soup w = (Ok span, w) ->
   Spells.soup2dict soup w = (Raise AttributeError, w))
  /\ (item_span soup = Some span ->
      Items.soup2dict soup w = (Raise AttributeError, w)).
Proof.
  intros Hh1.
  assert (Hs : Spells._name_from_span (Some span) w
               = (Raise AttributeError, w)).
  { unfold Spells._name_from_span, bind.
    destruct span as [s|nm cs]; [done|]. cbn [child_tag ret].
    by rewrite Hh1. }
  assert (Hi : Items._name_from_span (Some span) w
               = (Raise AttributeError, w)).
  { unfold Items._name_from_span, bind.
    destruct span as [s|nm cs]; [done|]. cbn [child_tag ret].
    by rewrite Hh1. }
  split.
  - intros Hspan. unfold Spells.soup2dict. cbv zeta.
    unfold bind at 1. rewrite Hspan. unfold bind at 1. by rewrite Hs.
  - intros Hspan. unfold Items.soup2dict. cbv zeta.
    unfold item_span in Hspan.
    destruct soup as [s|nm cs]; [done|].
    unfold bind at 1. cbn [child_tag ret].
    destruct (find_tag (named "table") (Tag nm cs)) as [[table after]|];
      [|done].
    cbn [fmap option_fmap option_map fst] in Hspan |- *.
    destruct table as [s|tnm tcs]; [done|].
    unfold bind at 1. cbn [child_tag ret]. rewrite Hspan.
    unfold bind at 1. by rewrite Hi.
Qed.

(** ** The entry point *)

Lemma spell_record_has_no_url (soup : node) (w w' : World)
    (json : dict str value) :
  Spells.soup2dict soup w = (Ok json, w') -> py "url" ∉ keys json.
Proof.
  intros H Hin. apply spell_keys_of_record in H as [Hsub _].
  assert (Hu : py "url" ∈ spell_key_order)
    by (eapply sublist_subseteq; [exact Hsub | exact Hin]).
  revert Hu. by_computation.
Qed.

Lemma item_record_has_no_url (soup : node) (w w' : World)
    (json : dict str value) :
  Items.soup2dict soup w = (Ok json, w') -> py "url" ∉ keys json.
Proof.
  intros H Hin. apply item_keys_of_record in H as [Hsub _].
  assert (Hu : py "url" ∈ item_key_order)
    by (eapply sublist_subseteq; [exact Hsub | exact Hin]).
  revert Hu. by_computation.
Qed.

(** X19.  The entry point refuses a missing URL with [TypeError] and a URL
    outside [https://aonprd.com/] and [https://www.aonprd.com/] with
    [ValueError], in both cases before the page is fetched. When it returns,
    the URL was allowed and the record ends with the key [url], which holds
    the URL and which no earlier entry has as its key. *)
Theorem main_adds_url_last (url2soup : str -> M node) (url : option str)
    (w : World) :
  (url = None ->
   main Spells.soup2dict url2soup url w = (Raise TypeError, w)
   /\ main Items.soup2dict url2soup url w = (Raise TypeError, w))
  /\ (forall u, url = Some u -> allowed_url u = false ->
        main Spells.soup2dict url2soup url w = (Raise ValueError, w)
        /\ main Items.soup2dict url2soup url w = (Raise ValueError, w))
  /\ (forall json w',
        main Spells.soup2dict url2soup url w = (Ok json, w')
        \/ main Items.soup2dict url2soup url w = (Ok json, w') ->
        exists u data,
          url = Some u /\ allowed_url u = true
          /\ json = data ++ [(py "url", VStr u)]
          /\ py "url" ∉ keys data).
Proof.
  split; [by intros ->|]. split.
  { intros u -> Hu. unfold main. by rewrite Hu. }
  intros json w' Hrun. unfold main in Hrun.
  destruct url as [u|]; [|by destruct Hrun].
  destruct (allowed_url u) eqn:Hu; [|by destruct Hrun].
  cbn [negb] in Hrun. unfold bind at 1 3 in Hrun.
  destruct (url2soup u w) as [[soup|e] w1]; [|by destruct Hrun].
  assert (Hset : forall data : dict str value,
            py "url" ∉ keys data ->
            dict_set data (py "url") (VStr u)
            = data ++ [(py "url", VStr u)]).
  { intros data. unfold keys.
    induction data as [|[k v] data IH]; intros Hk; simpl; [done|].
    apply not_elem_of_cons in Hk as [Hk Hd].
    rewrite decide_False by done. by rewrite IH. }
  destruct Hrun as [Hrun|Hrun]; unfold bind in Hrun.
  - destruct (Spells.soup2dict soup w1) as [[data|e] w2] eqn:E;
      [|discriminate].
    injection Hrun as <- <-.
    pose proof (spell_record_has_no_url _ _ _ _ E) as Hno.
    exists u, data. by rewrite Hset.
  - destruct (Items.soup2dict soup w1) as [[data|e] w2] eqn:E;
      [|discriminate].
    injection Hrun as <- <-.
    pose proof (item_record_has_no_url _ _ _ _ E) as Hno.
    exists u, data. by rewrite Hset.
Qed.

(** ** Tables *)





(** ** The range of a spell *)

Lemma match_here_prev (p : list item) (prev prev' : option char) (s : str) :
  Forall plain_item p -> match_here p prev s = match_here p prev' s.
Proof.
  intros Hp. destruct Hp as [|[a|a|a|x] p' Hi Hp']; try done.
Qed.

Lemma re_sub_from_prev (p : list item) (r : list ritem)
    (prev prev' : option char) (k : nat) (s : str) :
  Forall plain_item p ->
  re_sub_from p r prev k s = re_sub_from p r prev' k s.
Proof.
  intros Hp. destruct s as [|c t]; [done|]. cbn [re_sub_from].
  destruct k as [|k]; [|done].
  by rewrite (match_here_prev p prev prev').
Qed.

Lemma re_sub_from_copy (x : char) (p : list item) (r : list ritem)
    (prev : option char) (a b : str) :
  Forall plain_item p -> x ∉ a ->
  re_sub_from (One (Lit x) :: p) r prev 0 (a ++ b)
  = a ++ re_sub_from (One (Lit x) :: p) r prev 0 b.
Proof.
  intros Hp. revert prev. induction a as [|c a IH]; intros prev Hx; [done|].
  apply not_elem_of_cons in Hx as [Hc Ha].
  cbn [app re_sub_from match_here atom_matches]. unfold char_eqb.
  rewrite (proj2 (N.eqb_neq c x)) by congruence.
  f_equal. rewrite IH by done.
  f_equal. apply re_sub_from_prev. by constructor.
Qed.

Lemma compress_ft_after_feet (pre post : str) (c : char) :
  chr " " ∉ pre -> c <> LF ->
  compress_ft (pre ++ py " ft" ++ c :: post)
  = pre ++ py "ft" ++ compress_ft post.
Proof.
  intros Hpre Hc. unfold compress_ft, re_sub.
  rewrite re_sub_from_copy; [|repeat constructor|done].
  cbn [py list_ascii_of_string map app re_sub_from match_here atom_matches].
  unfold char_eqb at 1 2 3 4.
  rewrite !N.eqb_refl. rewrite (proj2 (N.eqb_neq c LF)) by done.
  cbn [negb expand rlit map flat_map app].
  rewrite re_sub_from_copy; [|repeat constructor|done].
  f_equal. cbn [re_sub_from match_here atom_matches].
  change (char_eqb (chr "f") (chr " ")) with false.
  change (char_eqb (chr "t") (chr " ")) with false.
  cbn iota. do 2 f_equal.
  rewrite (re_sub_from_prev _ _ (Some c) None) by repeat constructor.
  apply re_sub_from_prev. repeat constructor.
Qed.

Lemma startswith_head (s : str) (p : ascii) (pre : string) :
  startswith s (py (String p pre)) = true ->
  exists t, s = chr p :: t /\ startswith t (py pre) = true.
Proof.
  destruct s as [|c t]; [discriminate|].
  cbn [py list_ascii_of_string map startswith].
  intros [Hc Ht]%andb_true_iff. apply N.eqb_eq in Hc. subst c.
  by exists t.
Qed.

Ltac compare_chars :=
  repeat match goal with
         | |- context [char_eqb (chr ?a) (chr ?b)] =>
             let v := eval vm_compute in (char_eqb (chr a) (chr b)) in
             change (char_eqb (chr a) (chr b)) with v
         end.

(** X21.  A range that starts with [close], [medium] or [long] is returned
    as that bare word. Otherwise the pattern [ ft.] drops the character that
    follows [ ft] whatever it is, its dot being a wildcard: a range whose
    first blank opens [ ft] followed by a character [c] comes back without
    the blank and without [c]. *)
Theorem range_bands_and_feet (span tag : node) (sibs : list node)
    (w : World) :
  Spells.find_label span "Range" = Some (tag, sibs) ->
  let range := texify (strip_chars (py " ;.") (str_of_next_sibling sibs)) in
  (forall opt,
     opt ∈ range_bands -> startswith range opt = true ->
     Spells._range_from_span span w = (Ok (Some opt), w))
  /\ (forall pre post c,
        range = pre ++ py " ft" ++ c :: post ->
        chr " " ∉ pre ->
        Forall (fun opt => startswith range opt = false) range_bands ->
        Spells._range_from_span span w
        = (Ok (Some (pre ++ py "ft" ++ compress_ft post)), w)).
Proof.
  intros Hlabel range.
  unfold Spells._range_from_span, Spells._get_text_from_simple_tag, bind.
  rewrite Hlabel. cbn [ret]. fold range. split.
  - intros opt Hopt Hstart. unfold range_bands in Hopt.
    repeat (apply elem_of_cons in Hopt as [->|Hopt]);
      [ | | | by apply elem_of_nil in Hopt];
      apply startswith_head in Hstart as (t & -> & Hrest);
      cbn [List.find py list_ascii_of_string map startswith];
      compare_chars; cbn [andb];
      cbn [py list_ascii_of_string map] in Hrest; rewrite Hrest;
      reflexivity.
  - intros pre post c Hrange Hpre Hbands.
    assert (Hc : c <> LF).
    { intros ->. apply (texify_removes_rewritten LF
        (strip_chars (py " ;.") (str_of_next_sibling sibs)));
        [by_computation|].
      fold range. rewrite Hrange. apply elem_of_app. right.
      apply elem_of_app. right. constructor. }
    assert (Hfind : List.find (fun opt => startswith range opt) range_bands
                    = None).
    { unfold range_bands in *.
      apply Forall_cons in Hbands as [H1 Hbands].
      apply Forall_cons in Hbands as [H2 Hbands].
      apply Forall_cons in Hbands as [H3 _].
      cbn [List.find]. by rewrite H1, H2, H3. }
    unfold range_bands in Hfind. rewrite Hfind.
    fold (compress_ft range). rewrite Hrange.
    by rewrite compress_ft_after_feet.
Qed.

(** ** The aura of an item *)

Lemma slice_empty {A} (l : list A) (a b : Z) :
  (0 <= b <= a)%Z -> slice l (Some a) (Some b) = [].
Proof.
  intros H. unfold slice, slice_bound.
  destruct (a <? 0)%Z eqn:Ea; [lia|]. destruct (b <? 0)%Z eqn:Eb; [lia|].
  replace (Z.to_nat _) with 0%nat by lia. done.
Qed.

(** X22.  [_aura_from_span] looks for [Aura ] and for [CL] in the whole text
    of the span. When the first [CL] stands before the end of the first
    [Aura ], as when the name of the item holds these letters, the aura is
    the empty string, not [None], and no warning is emitted. *)
Theorem aura_is_empty_when_CL_comes_first (span : node) (w : World) :
  (0 <= find (text span) (py "Aura "))%Z ->
  (0 <= find (text span) (py "CL")
   <= find (text span) (py "Aura ") + 5)%Z ->
  Items._aura_from_span span w = (Ok (Some []), w).
Proof.
  intros Ha Hc. unfold Items._aura_from_span. cbv zeta.
  destruct (_ <? 5)%Z eqn:E1; [lia|].
  destruct (_ =? -1)%Z eqn:E2; [lia|].
  by rewrite slice_empty.
Qed.

(** ** The components of a spell *)

Lemma thins_refl (D : char -> Prop) (s : str) : thins D s s.
Proof. induction s; by constructor. Qed.

Lemma thins_app (D : char -> Prop) (a a' b b' : str) :
  thins D a a' -> thins D b b' -> thins D (a ++ b) (a' ++ b').
Proof.
  induction 1 as [|c s out H IH|c s out Hc H IH]; intros Hb; cbn [app].
  - done.
  - apply thins_keep. by apply IH.
  - apply thins_drop; [done|]. by apply IH.
Qed.

Lemma thins_trans (D : char -> Prop) (a b c : str) :
  thins D a b -> thins D b c -> thins D a c.
Proof.
  intros Hab. revert c. induction Hab as [|x s out H IH|x s out Hx H IH];
    intros c Hbc.
  - done.
  - inversion Hbc; subst; constructor; auto.
  - apply thins_drop; auto.
Qed.

Lemma thins_Forall (D : char -> Prop) (P : char -> Prop) (s out : str) :
  thins D s out -> Forall P s -> Forall P out.
Proof.
  induction 1; intros Hs; [done| |];
    apply Forall_cons in Hs as [Hc Hs]; [constructor|]; auto.
Qed.

Lemma thins_keeps_escapes (D : char -> Prop) (s out : str)
    (prev prev' : option char) :
  (forall c, D c -> c <> BACKSLASH) ->
  thins D s out ->
  (prev = Some BACKSLASH -> prev' = Some BACKSLASH) ->
  percents_escaped prev s -> percents_escaped prev' out.
Proof.
  intros HD H. revert prev prev'.
  induction H as [|c s out H IH|c s out Hc H IH]; intros prev prev' Hp Hs.
  - done.
  - destruct Hs as [Hc Hs]. split; [auto|]. by apply (IH (Some c)).
  - destruct Hs as [_ Hs]. apply (IH (Some c)); [|done].
    intros [= ->]. by destruct (HD _ Hc).
Qed.

Lemma re_sub_from_skip (p : list item) (r : list ritem)
    (prev : option char) (a b : str) :
  exists prev',
    re_sub_from p r prev (length a) (a ++ b) = re_sub_from p r prev' 0 b.
Proof.
  revert prev. induction a as [|c a IH]; intros prev.
  - exists prev. by destruct b.
  - cbn [length app re_sub_from]. apply IH.
Qed.

(** A substitution thins its text when each of its matches does. *)
Lemma re_sub_thins (D : char -> Prop) (p : list item) (r : list ritem) :
  (forall prev s g n,
     match_here p prev s = Some (g, S n) ->
     exists m rest,
       s = m ++ rest /\ length m = S n /\ thins D m (expand r g)) ->
  forall s prev, thins D s (re_sub_from p r prev 0 s).
Proof.
  intros Hmatch s.
  remember (length s) as n eqn:En. revert s En.
  induction n as [n IH] using lt_wf_ind. intros s En prev.
  destruct s as [|c t]; [constructor|].
  cbn [re_sub_from].
  destruct (match_here p prev (c :: t)) as [[g [|k]]|] eqn:E.
  - apply thins_keep. apply (IH (length t)); [subst n; simpl; lia | done].
  - destruct (Hmatch _ _ _ _ E) as (m & rest & Hs & Hlen & Hthin).
    destruct m as [|c' m]; [discriminate Hlen|].
    injection Hs as <- ->. injection Hlen as <-.
    destruct (re_sub_from_skip p r (Some c) m rest) as [prev' ->].
    change (c :: m ++ rest) with ((c :: m) ++ rest).
    apply thins_app; [done|].
    apply (IH (length rest)); [|done].
    subst n. cbn [length]. rewrite length_app. lia.
  - apply thins_keep. apply (IH (length t)); [subst n; simpl; lia | done].
Qed.

(** Read a successful match of a pattern of literal atoms. *)
Ltac read_match H :=
  cbn [match_here atom_matches map py list_ascii_of_string] in H;
  try discriminate H;
  repeat match type of H with
         | context [if ?b then _ else _] =>
             let E := fresh "E" in destruct b eqn:E; [|discriminate H]
         end;
  try discriminate H;
  repeat match goal with
         | E : char_eqb _ _ = true |- _ => apply N.eqb_eq in E; subst
         end;
  injection H as <- <-;
  cbn [expand flat_map app rlit map py list_ascii_of_string].

Lemma components_thin (comp : str) :
  thins squeezed comp
    (re_sub (map (fun c => One (Lit c)) (py " lbs.")) (rlit (py "lb"))
       (re_sub (map (fun c => One (Lit c)) (py " gp")) (rlit (py "gp"))
          (re_sub [Group (OneOf (py "MF")); One (Lit (chr " "));
                   One (Lit (chr "("))]
                  [RGroup1; RChar (chr "(")]
             (re_sub [Group (OneOf (py "VSMF)")); One (Lit (chr ","));
                      One (Lit (chr " "))]
                     [RGroup1; RChar (chr ",")] comp)))).
Proof.
  assert (Hsp : squeezed (chr " ")) by by_computation.
  assert (Hs : squeezed (chr "s")) by by_computation.
  assert (Hdot : squeezed (chr ".")) by by_computation.
  unfold re_sub.
  eapply thins_trans; [|apply re_sub_thins].
  eapply thins_trans; [|apply re_sub_thins].
  eapply thins_trans; [|apply re_sub_thins].
  apply re_sub_thins.
  - intros prev s g n H.
    destruct s as [|a [|b [|c rest]]]; read_match H.
    exists [a; chr ","; chr " "], rest. split; [done|]. split; [done|].
    apply thins_keep, thins_keep, thins_drop; [done|constructor].
  - intros prev s g n H.
    destruct s as [|a [|b [|c rest]]]; read_match H.
    exists [a; chr " "; chr "("], rest. split; [done|]. split; [done|].
    apply thins_keep, thins_drop; [done|]. apply thins_refl.
  - intros prev s g n H.
    destruct s as [|a [|b [|c rest]]]; read_match H.
    exists (py " gp"), rest. split; [done|]. split; [done|].
    apply thins_drop; [done|]. apply thins_refl.
  - intros prev s g n H.
    destruct s as [|a [|b [|c [|d [|e rest]]]]]; read_match H.
    exists (py " lbs."), rest. split; [done|]. split; [done|].
    apply thins_drop; [done|]. apply thins_keep, thins_keep.
    apply thins_drop; [done|]. apply thins_drop; [done|]. constructor.
Qed.

(** X23.  The components that [_components_from_span] returns are
    markup-safe: the four substitutions after [texify] only remove blanks
    and the [s] and the dot of [lbs.], which leaves every escape in place. *)
Theorem components_stay_safe (span : node) (w w' : World) (s : str) :
  Spells._components_from_span span w = (Ok (Some s), w') ->
  markup_safe s
  /\ exists tag sibs,
       Spells.find_label span "Components" = Some (tag, sibs)
       /\ thins squeezed
            (texify (strip_chars (py " ;.") (str_of_next_sibling sibs))) s.
Proof.
  unfold Spells._components_from_span, Spells._get_text_from_simple_tag,
    bind.
  destruct (Spells.find_label span "Components") as [[tag sibs]|];
    [|discriminate].
  cbn [ret]. intros [= <- _].
  pose proof (components_thin
    (texify (strip_chars (py " ;.") (str_of_next_sibling sibs)))) as Hthin.
  split; [|by exists tag, sibs].
  destruct (texify_is_markup_safe
    (strip_chars (py " ;.") (str_of_next_sibling sibs))) as [Hchars _].
  split.
  - eapply thins_Forall; [exact Hthin | exact Hchars].
  - apply percents_escaped_fixed.
    eapply thins_keeps_escapes; [| exact Hthin | done
                                | apply texify_escapes_percents].
    intros c Hc ->. revert Hc. by_computation.
Qed.

(** ** Instances of the properties above *)

Lemma run_from_fst {A} (c : M A) (w : World) (r : result A) :
  fst (c w) = r -> c w = (r, snd (c w)).
Proof. intros <-. apply surjective_pairing. Qed.

Lemma classes_always_have_a_summary_witness :
  let d := [(py "alchemist", 2%Z); (py "magus", 2%Z);
            (py "sorcerer", 3%Z); (py "wizard", 3%Z)] in
  fst (Spells._classes_from_span two_source_spell Spells.initial)
  = Ok (Some d)
  /\ wellformed_classes d
  /\ exists v, fst (Spells._level_from_classes d Spells.initial) = Ok v.
Proof.
  intros d.
  assert (H : fst (Spells._classes_from_span two_source_spell
                     Spells.initial) = Ok (Some d))
    by (vm_compute; reflexivity).
  split; [exact H|].
  destruct (classes_always_have_a_summary two_source_spell Spells.initial
              _ d (run_from_fst _ _ _ H)) as (Hwf & Hw & (v & w'' & Hv) & _).
  split; [exact Hwf|]. exists v. rewrite Hw in Hv. by rewrite Hv.
Defined.

Lemma spell_record_keys_witness :
  exists json,
    fst (Spells.soup2dict spell_with_area_only Spells.initial) = Ok json
    /\ keys json `sublist_of` spell_key_order
    /\ py "duration" ∈ keys json.
Proof.
  eexists.
  split; [vm_compute; reflexivity|].
  edestruct (spell_record_keys spell_with_area_only Spells.initial)
    as (Hsub & Hall & _).
  { apply run_from_fst. vm_compute. reflexivity. }
  split; [exact Hsub|]. apply Hall. by_computation.
Defined.

Lemma item_record_keys_witness :
  exists json,
    fst (Items.soup2dict item_with_typographic_name Items.initial) = Ok json
    /\ keys json `sublist_of` item_key_order
    /\ py "feat" ∈ keys json.
Proof.
  eexists.
  split; [vm_compute; reflexivity|].
  edestruct (item_record_keys item_with_typographic_name Items.initial)
    as (Hsub & Hall).
  { apply run_from_fst. vm_compute. reflexivity. }
  split; [exact Hsub|]. apply Hall. by_computation.
Defined.

Lemma CL_keeps_only_digits_witness :
  fst (Items._CL_from_span two_source_item Items.initial)
  = Ok (Some (py "1"))
  /\ Forall (fun c => is_ascii_digit c = true) (py "1").
Proof.
  assert (H : fst (Items._CL_from_span two_source_item Items.initial)
              = Ok (Some (py "1"))) by (vm_compute; reflexivity).
  split; [exact H|].
  exact (proj1 (CL_keeps_only_digits two_source_item Items.initial _
                  (py "1") (run_from_fst _ _ _ H))).
Defined.

Lemma empty_slot_or_price_raises_witness :
  Items.find_label item_with_empty_slot "Slot"
  = Some (elt "b" [txt "Slot"],
          [txt " "; elt "b" [txt "Price"]; txt " ";
           elt "b" [txt "Weight"]; txt " 1 lb."])
  /\ fst (Items._slot_from_span item_with_empty_slot Items.initial)
     = Raise IndexError.
Proof.
  assert (H : Items.find_label item_with_empty_slot "Slot"
              = Some (elt "b" [txt "Slot"],
                      [txt " "; elt "b" [txt "Price"]; txt " ";
                       elt "b" [txt "Weight"]; txt " 1 lb."]))
    by (vm_compute; reflexivity).
  split; [exact H|].
  rewrite (proj1 (empty_slot_or_price_raises item_with_empty_slot _ _
                    Items.initial) H).
  reflexivity.
Defined.

Lemma description_stops_at_heading_witness :
  py "h3" ∈ [py "h3"; py "h2"; py "h1"]
  /\ description_pieces [py "h3"; py "h2"; py "h1"]
       ([txt "Text."] ++ elt "h3" [txt "Construction"] :: [txt "Not read."])
       Spells.initial
     = description_pieces [py "h3"; py "h2"; py "h1"]
         ([txt "Text."] ++ elt "h3" [txt "Construction"] :: [])
         Spells.initial.
Proof.
  assert (H : py "h3" ∈ [py "h3"; py "h2"; py "h1"]) by by_computation.
  split; [exact H|].
  exact (description_stops_at_heading _ [txt "Text."] (py "h3")
           [txt "Construction"] [txt "Not read."] [] Spells.initial H).
Defined.


Lemma first_span_is_not_empty_witness :
  exists c cs,
    fst (Spells.first_span spell_with_area_only Spells.initial)
    = Ok (Tag (py "span") (c :: cs)).
Proof.
  destruct (first_span_is_not_empty spell_with_area_only Spells.initial _ _
              (run_from_fst _ _ _ eq_refl)) as [_ H].
  destruct (fst (Spells.first_span spell_with_area_only Spells.initial))
    as [span|e] eqn:E.
  - destruct H as (c & cs & ->). by exists c, cs.
  - exfalso. revert E. vm_compute. discriminate.
Defined.

Lemma source_without_page_loses_last_char_witness :
  find (py "Ultimate Magic") (py " pg. ") = (-1)%Z
  /\ Spells._source_from_span spell_source_without_page Spells.initial
     = (let* a := abbreviate (py "Ultimate Magi") in ret (Some a))
         Spells.initial
  /\ Items._source_from_span item_source_without_page Items.initial
     = (let* a := abbreviate (py "Ultimate Equipmen") in ret (Some a))
         Items.initial.
Proof.
  assert (H : find (py "Ultimate Magic") (py " pg. ") = (-1)%Z)
    by (vm_compute; reflexivity).
  split; [exact H|]. split.
  - refine (proj1 source_without_page_loses_last_char
              spell_source_without_page (elt "b" [txt "Source"]) _
              (py "Ultimate Magic") [] Spells.initial _ _ _ H);
      vm_compute; reflexivity.
  - refine (proj2 source_without_page_loses_last_char
              item_source_without_page (py "Ultimate Equipment")
              Items.initial _ _ _ _ _);
      vm_compute; try reflexivity; discriminate.
Defined.

Lemma abbreviation_is_idempotent_and_injective_witness :
  Spells.abbreviations !! py "Ultimate Magic" = Some (py "PF Ult Magic")
  /\ abbreviation_of Spells.abbreviations
       (abbreviation_of Spells.abbreviations (py "Ultimate Magic"))
     = abbreviation_of Spells.abbreviations (py "Ultimate Magic")
  /\ forall other,
       Spells.abbreviations !! other = Some (py "PF Ult Magic") ->
       other = py "Ultimate Magic".
Proof.
  assert (H : Spells.abbreviations !! py "Ultimate Magic"
              = Some (py "PF Ult Magic")) by (vm_compute; reflexivity).
  split; [exact H|].
  destruct (abbreviation_is_idempotent_and_injective (py "Ultimate Magic"))
    as (Hidem & _ & Hinj).
  split; [exact Hidem|]. intros other. exact (Hinj other _ H).
Defined.

Lemma construction_fields_are_safe_witness :
  fst (Items._construction_from_span construction_block Items.initial)
  = Ok (Some (Some (py "Craft Wondrous Item"),
              Some (py "pass without trace"), None))
  /\ safe_or_absent (Some (py "Craft Wondrous Item"))
  /\ safe_or_absent (Some (py "pass without trace"))
  /\ safe_or_absent None.
Proof.
  assert (H : fst (Items._construction_from_span construction_block
                     Items.initial)
              = Ok (Some (Some (py "Craft Wondrous Item"),
                          Some (py "pass without trace"), None)))
    by (vm_compute; reflexivity).
  split; [exact H|].
  exact (construction_fields_are_safe construction_block Items.initial _
           _ _ _ (run_from_fst _ _ _ H)).
Defined.

Lemma texified_fields_are_safe_witness :
  fst (Items._description_from_span described_span Items.initial)
  = Ok (Some (py "Lasts 50\% longer--or not."))
  /\ markup_safe (py "Lasts 50\% longer--or not.").
Proof.
  assert (H : fst (Items._description_from_span described_span
                     Items.initial)
              = Ok (Some (py "Lasts 50\% longer--or not.")))
    by (vm_compute; reflexivity).
  split; [exact H|].
  exact (proj1 (proj2 (texified_fields_are_safe described_span
                         Items.initial _ _))
           (run_from_fst _ _ _ H)).
Defined.

Lemma optional_spell_fields_are_silent_witness :
  Spells.find_label described_span "Saving Throw" = None
  /\ fst (Spells._save_from_span described_span Spells.initial)
     = Ok (Some (py "none")).
Proof.
  assert (H : Spells.find_label described_span "Saving Throw" = None)
    by (vm_compute; reflexivity).
  split; [exact H|].
  destruct (optional_spell_fields_are_silent described_span Spells.initial)
    as (_ & _ & _ & (s & Hs & Hnone) & _).
  rewrite Hs, (Hnone H). reflexivity.
Defined.

Lemma page_without_heading_aborts_witness :
  find_tag (named "h1") (elt "span" span_without_heading) = None
  /\ fst (Spells.soup2dict (page span_without_heading) Spells.initial)
     = Raise AttributeError
  /\ fst (Items.soup2dict (page span_without_heading) Items.initial)
     = Raise AttributeError.
Proof.
  assert (H : find_tag (named "h1") (elt "span" span_without_heading)
              = None) by (vm_compute; reflexivity).
  split; [exact H|]. split.
  - rewrite (proj1 (page_without_heading_aborts
                      (page span_without_heading) _ Spells.initial H));
      reflexivity.
  - rewrite (proj2 (page_without_heading_aborts
                      (page span_without_heading) _ Items.initial H));
      reflexivity.
Defined.

Lemma main_adds_url_last_witness :
  let u := py "https://aonprd.com/SpellDisplay.aspx?ItemName=Fireball" in
  exists data,
    fst (main Spells.soup2dict (fun _ => ret spell_with_area_only) (Some u)
           Spells.initial)
    = Ok (data ++ [(py "url", VStr u)]).
Proof.
  intros u.
  destruct (fst (main Spells.soup2dict (fun _ => ret spell_with_area_only)
                   (Some u) Spells.initial)) as [json|e] eqn:E.
  - destruct (proj2 (proj2 (main_adds_url_last
                              (fun _ => ret spell_with_area_only) (Some u)
                              Spells.initial))
                json _ (or_introl (run_from_fst _ _ _ E)))
      as (u' & data & Hu & _ & -> & _).
    injection Hu as <-. by exists data.
  - exfalso. revert E. vm_compute. discriminate.
Defined.


Lemma range_bands_and_feet_witness :
  Spells.find_label range_in_feet "Range"
  = Some (elt "b" [txt "Range"], [txt " 120 ft line; "])
  /\ (chr " " ∉ py "120")
  /\ fst (Spells._range_from_span range_in_feet Spells.initial)
     = Ok (Some (py "120ftline")).
Proof.
  assert (H1 : Spells.find_label range_in_feet "Range"
               = Some (elt "b" [txt "Range"], [txt " 120 ft line; "]))
    by (vm_compute; reflexivity).
  assert (H2 : chr " " ∉ py "120") by by_computation.
  split; [exact H1|]. split; [exact H2|].
  rewrite (proj2 (range_bands_and_feet range_in_feet _ _ Spells.initial H1)
             (py "120") (py "line") (chr " "));
    [reflexivity | vm_compute; reflexivity | exact H2 | by_computation].
Defined.

Lemma aura_is_empty_when_CL_comes_first_witness :
  find (text item_named_with_CL) (py "CL") = 8%Z
  /\ find (text item_named_with_CL) (py "Aura ") = 15%Z
  /\ Items._aura_from_span item_named_with_CL Items.initial
     = (Ok (Some []), Items.initial).
Proof.
  assert (H1 : find (text item_named_with_CL) (py "CL") = 8%Z)
    by (vm_compute; reflexivity).
  assert (H2 : find (text item_named_with_CL) (py "Aura ") = 15%Z)
    by (vm_compute; reflexivity).
  split; [exact H1|]. split; [exact H2|].
  apply aura_is_empty_when_CL_comes_first; rewrite ?H1, ?H2; lia.
Defined.

Lemma components_stay_safe_witness :
  fst (Spells._components_from_span components_only Spells.initial)
  = Ok (Some (py "V,S,M(powdered silver worth 25gp, 2lb of it)"))
  /\ markup_safe (py "V,S,M(powdered silver worth 25gp, 2lb of it)").
Proof.
  assert (H : fst (Spells._components_from_span components_only
                     Spells.initial)
              = Ok (Some (py "V,S,M(powdered silver worth 25gp, 2lb of it)")))
    by (vm_compute; reflexivity).
  split; [exact H|].
  exact (proj1 (components_stay_safe components_only Spells.initial _ _
                  (run_from_fst _ _ _ H))).
Defined.
